(** * CleanDiffuser: the robomimic dataset pipeline

    A shallow embedding of [cleandiffuser/dataset/robomimic_dataset.py]:
    the absolute-action conversion and its inverse, the dataset item
    lookup, and the HDF5-to-replay-buffer conversion with its bounded pool
    of image-copy tasks.  The sequence sampler and the min-max normalizer
    live in modules of the repository that are imported by that file; they
    are modelled from their description. *)

From Stdlib Require Import ZArith QArith Qminmax Qfield Lia Lqa.
From stdpp Require Import base tactics option list gmap strings.

Open Scope nat_scope.

(** ** Exceptions and fallible computations *)

Inductive exn : Type :=
| KeyError (key : string)
| IndexError
| ValueError
| TypeError
| AttributeError
| AssertionError
| ZeroDivisionError
| RuntimeError (msg : string).

Inductive result (A : Type) : Type :=
| Ok (a : A)
| Err (e : exn).
Arguments Ok {A} a.
Arguments Err {A} e.

#[export] Instance result_ret : MRet result := fun A a => Ok a.
#[export] Instance result_bind : MBind result := fun A B f r =>
  match r with
  | Ok a => f a
  | Err e => Err e
  end.

Definition raises {A} (r : result A) : Prop :=
  match r with Ok _ => False | Err _ => True end.

Definition is_ok {X} (r : result X) : Prop :=
  match r with Ok _ => True | Err _ => False end.

#[export] Instance is_ok_dec {X} (r : result X) : Decision (is_ok r).
Proof. destruct r; simpl; apply _. Defined.

Definition of_option {A} (e : exn) (o : option A) : result A :=
  match o with Some a => Ok a | None => Err e end.

Definition to_option {X} (r : result X) : option X :=
  match r with Ok x => Some x | Err _ => None end.

(** [d[key]] on a Python dict or an HDF5 group. *)
Definition getitem {V} (d : gmap string V) (key : string) : result V :=
  of_option (KeyError key) (d !! key).

(** ** numpy arrays: a shape and the elements in row-major order *)

Module NdArray.
Section ndarray.
Context {A : Type}.

Record ndarray : Type := mk_ndarray { shape : list nat; data : list A }.

Definition size_of (s : list nat) : nat := foldr Nat.mul 1 s.

Definition wf (a : ndarray) : Prop := length (data a) = size_of (shape a).

(** [a.shape[:-1]] and [a.shape[-1]]. *)
Definition leading (a : ndarray) : list nat := take (length (shape a) - 1) (shape a).
Definition last_dim (a : ndarray) : result nat := of_option IndexError (last (shape a)).

(** The sub-array along the last axis at flat position [i] of the
    leading axes. *)
Definition row (w : nat) (l : list A) (i : nat) : list A := take w (drop (i * w) l).

Definition rows_of (n w : nat) (l : list A) : list (list A) := row w l <$> seq 0 n.

Definition rows (a : ndarray) : list (list A) :=
  rows_of (size_of (leading a)) (default 0 (last (shape a))) (data a).

(** A function of the last axis applied to every row; [w'] is the width
    of its results. *)
Definition apply_last (f : list A → list A) (w' : nat) (a : ndarray) : ndarray :=
  {| shape := leading a ++ [w']; data := concat (f <$> rows a) |}.

(** [a[..., lo:hi]] for non-negative bounds, which numpy clamps to the
    width. *)
Definition slice_last (lo hi : nat) (a : ndarray) : ndarray :=
  let w := default 0 (last (shape a)) in
  apply_last (fun r => take (hi - lo) (drop lo r)) (Nat.min hi w - lo) a.

(** [a[..., lo:]]. *)
Definition slice_last_from (lo : nat) (a : ndarray) : ndarray :=
  apply_last (drop lo) (default 0 (last (shape a)) - lo) a.

(** [a[..., [-1]]]: indexing an axis of width 0 is an error. *)
Definition index_last_m1 (a : ndarray) : result ndarray :=
  match last (shape a) with
  | Some (S w) => Ok (apply_last (fun r => drop w r) 1 a)
  | _ => Err IndexError
  end.

(** [np.concatenate([a, b, c], axis=-1)]. *)
Definition concatenate_last3 (a b c : ndarray) : result ndarray :=
  if decide (leading a = leading b ∧ leading b = leading c
             ∧ shape a ≠ [] ∧ shape b ≠ [] ∧ shape c ≠ []) then
    Ok {| shape := leading a ++ [default 0 (last (shape a)) + default 0 (last (shape b))
                                + default 0 (last (shape c))];
          data := concat (zip_with app (zip_with app (rows a) (rows b)) (rows c)) |}
  else Err ValueError.

(** [np.concatenate(arrays, axis=0)]. *)
Definition concatenate0 (arrays : list ndarray) : result ndarray :=
  match arrays with
  | [] => Err ValueError
  | a :: rest =>
      match shape a with
      | [] => Err ValueError
      | _ :: tl =>
          if forallb (fun b => bool_decide (drop 1 (shape b) = tl ∧ shape b ≠ [])) rest then
            Ok {| shape := sum_list ((fun b => default 0 (head (shape b))) <$> arrays) :: tl;
                  data := concat (data <$> arrays) |}
          else Err ValueError
      end
  end.

(** [a.reshape(-1, d1, .., dk)]: the leading dimension is inferred. *)
Definition reshape_infer (tl : list nat) (a : ndarray) : result ndarray :=
  let p := size_of tl in
  let n := size_of (shape a) in
  if decide (p ≠ 0 ∧ n `mod` p = 0) then Ok {| shape := n `div` p :: tl; data := data a |}
  else Err ValueError.

(** [a.reshape(s)] for an explicit shape [s]. *)
Definition reshape (s : list nat) (a : ndarray) : result ndarray :=
  if decide (size_of s = size_of (shape a)) then Ok {| shape := s; data := data a |}
  else Err ValueError.

End ndarray.
Arguments ndarray A : clear implicits.
End NdArray.

(** ** Absolute actions: [_convert_actions] and [undo_transform_action] *)

Module Actions.
Import NdArray.
Section actions.
(** The elements are float32 values, on which [astype(np.float32)] is
    the identity.  [Casts._convert_actions] below keeps the cast, for
    elements of any type. *)
Context {A : Type}.

(** [RotationTransformer(from_rep="axis_angle", to_rep=...)]: it acts on
    the last axis, from width 3 to width [to_dim] and back.
    [forward_row] stands for [forward] followed by the cast of its result
    to float32. *)
Record RotationTransformer : Type := {
  to_dim : nat;
  forward_row : list A → list A;
  inverse_row : list A → list A
}.

Definition forward (rt : RotationTransformer) (rot : ndarray A) : ndarray A :=
  apply_last (forward_row rt) (to_dim rt) rot.

(** The result of [inverse] is an axis-angle rotation, of width 3: the
    properties of [undo_transform_action] below ask this of
    [inverse_row] at the width they are about. *)
Definition inverse (rt : RotationTransformer) (rot : ndarray A) : ndarray A :=
  apply_last (inverse_row rt) 3 rot.

Definition _convert_actions (raw_actions : ndarray A) (abs_action : bool)
    (rotation_transformer : RotationTransformer) : result (ndarray A) :=
  if abs_action then
    w ← last_dim raw_actions;
    let is_dual_arm := bool_decide (w = 14) in
    raw_actions ← (if is_dual_arm then reshape_infer [2; 7] raw_actions
                   else mret raw_actions);
    let pos := slice_last 0 3 raw_actions in
    let rot := slice_last 3 6 raw_actions in
    let gripper := slice_last_from 6 raw_actions in
    let rot := forward rotation_transformer rot in
    raw_actions ← concatenate_last3 pos rot gripper;
    if is_dual_arm then reshape_infer [20] raw_actions else mret raw_actions
  else mret raw_actions.

(** [d_rot] is [action.shape[-1] - 4]; below width 4 Python's slice
    [3 : 3 + d_rot] is empty, as is the slice at the truncated
    difference. *)
Definition undo_transform_action (rotation_transformer : RotationTransformer)
    (action : ndarray A) : result (ndarray A) :=
  let raw_shape := shape action in
  w ← last_dim action;
  action ← (if bool_decide (w = 20) then reshape_infer [2; 10] action else mret action);
  w' ← last_dim action;
  let d_rot := w' - 4 in
  let pos := slice_last 0 3 action in
  let rot := slice_last 3 (3 + d_rot) action in
  gripper ← index_last_m1 action;
  let rot := inverse rotation_transformer rot in
  uaction ← concatenate_last3 pos rot gripper;
  if bool_decide (w = 20) then
    reshape (take (length raw_shape - 1) raw_shape ++ [14]) uaction
  else mret uaction.

(** What the two functions do to one row of the last axis. *)
Definition convert_row (rt : RotationTransformer) (r : list A) : list A :=
  (take 3 r ++ forward_row rt (take 3 (drop 3 r))) ++ drop 6 r.

Definition undo_row (rt : RotationTransformer) (w : nat) (r : list A) : list A :=
  (take 3 r ++ inverse_row rt (take (3 + (w - 4) - 3) (drop 3 r))) ++ drop (w - 1) r.

(** A transformer to the 6-dimensional rotation representation whose
    inverse undoes [forward] up to the relation [close]. *)
Record rotation_6d_ok (close : A → A → Prop) (rt : RotationTransformer) : Prop := {
  rot_to_dim : to_dim rt = 6;
  rot_forward_width : ∀ r, length r = 3 → length (forward_row rt r) = 6;
  rot_inverse_width : ∀ x, length x = 6 → length (inverse_row rt x) = 3;
  rot_round_trip : ∀ r, length r = 3 → Forall2 close (inverse_row rt (forward_row rt r)) r
}.


End actions.
Arguments RotationTransformer A : clear implicits.
End Actions.

(** ** The min-max normalizer *)

Module Normalizers.

(** Division of floats by zero does not raise; it yields a value that is
    not a number.  [None] stands for such a value. *)
Definition qdiv (a b : Q) : option Q :=
  if Qeq_bool b 0 then None else Some (a / b)%Q.

(** Modelled from the spec: [MinMaxNormalizer] of
    [cleandiffuser.utils.normalizers], which is imported by the dataset
    but is not among the sources.  Per element of the last axis it holds
    the minimum and the maximum, and the bounds of the output range
    (default [-1, 1]). *)
Record MinMaxNormalizer : Type := {
  mins : list Q;
  maxs : list Q;
  out_min : Q;
  out_max : Q
}.

Definition midpoint (lo hi : Q) : Q := ((lo + hi) * (1 # 2))%Q.

(** Modelled from the spec: the affine map from [min, max] to
    [out_min, out_max]; an element with [max == min] goes to the midpoint
    of the output range, with no division. *)
Definition normalize1 (lo hi mn mx x : Q) : option Q :=
  if Qeq_bool mx mn then Some (midpoint lo hi)
  else d ← qdiv (x - mn) (mx - mn); Some (d * (hi - lo) + lo)%Q.

(** Modelled from the spec: the algebraic inverse of the affine map. *)
Definition unnormalize1 (lo hi mn mx y : Q) : option Q :=
  d ← qdiv (y - lo) (hi - lo); Some (d * (mx - mn) + mn)%Q.

Definition zip3_with {X Y} (f : Q → Q → X → Y) (mns mxs : list Q) (xs : list X) : list Y :=
  zip_with (fun '(mn, mx) x => f mn mx x) (zip mns mxs) xs.

(** Modelled from the spec: both maps act elementwise on the last axis
    of a sample, here a list of rows. *)
Definition normalize (n : MinMaxNormalizer) (x : list (list Q)) : list (list (option Q)) :=
  zip3_with (normalize1 (out_min n) (out_max n)) (mins n) (maxs n) <$> x.

Definition unnormalize (n : MinMaxNormalizer) (y : list (list Q)) : list (list (option Q)) :=
  zip3_with (unnormalize1 (out_min n) (out_max n)) (mins n) (maxs n) <$> y.

(** Modelled from the spec: the statistics of a sample array, the
    minimum and maximum of every element of the last axis over all
    rows. *)
Definition column_stat (op : Q → Q → Q) (x : list (list Q)) : list Q :=
  match x with
  | [] => []
  | r :: rest => foldl (zip_with op) r rest
  end.

Definition from_samples (x : list (list Q)) : MinMaxNormalizer :=
  {| mins := column_stat Qmin x; maxs := column_stat Qmax x;
     out_min := -1; out_max := 1 |}.

End Normalizers.

(** ** The sequence sampler *)

Module Sampler.
Section sampler.
(** [R] is the type of one step of a field. *)
Context {R : Type}.

(** Modelled from the spec: the columnar store [ReplayBuffer] of
    [cleandiffuser.dataset.replay_buffer], which is not among the
    sources: one flat column per field and the cumulative exclusive end
    of every episode. *)
Record ReplayBuffer : Type := {
  rb_data : gmap string (list R);
  rb_episode_ends : list nat
}.

(** Episode [i] covers the rows from [episode_ends[i-1]] (or 0) to
    [episode_ends[i]]. *)
Definition episode_bounds (ends : list nat) : list (nat * nat) := zip (0 :: ends) ends.

(** Modelled from the spec: [SequenceSampler] of
    [cleandiffuser.dataset.dataset_utils], which is not among the
    sources.  The optional per-field cap [key_first_k] is left out: the
    low-dimensional dataset constructs its sampler without it. *)
Record SequenceSampler : Type := {
  replay_buffer : ReplayBuffer;
  sequence_length : nat;
  pad_before : nat;
  pad_after : nat
}.

Record window : Type := { w_episode : nat; w_start : Z; w_end : Z }.

(** The number of valid start positions of an episode of length [n]. *)
Definition num_windows (s : SequenceSampler) (n : nat) : nat :=
  Z.to_nat (Z.max 0 (Z.of_nat n + Z.of_nat (pad_before s) + Z.of_nat (pad_after s)
                     - Z.of_nat (sequence_length s) + 1)).

(** Modelled from the spec: the table of windows, ordered by episode and
    then by local start. *)
Definition episode_windows (s : SequenceSampler) (i : nat) (b : nat * nat) : list window :=
  (fun j => let start := (- Z.of_nat (pad_before s) + Z.of_nat j)%Z in
            {| w_episode := i; w_start := start;
               w_end := (start + Z.of_nat (sequence_length s))%Z |})
    <$> seq 0 (num_windows s (b.2 - b.1)).

Definition indices (s : SequenceSampler) : list window :=
  concat (imap (episode_windows s) (episode_bounds (rb_episode_ends (replay_buffer s)))).

Definition len (s : SequenceSampler) : nat := length (indices s).

Definition clamp (x : Z) (n : nat) : nat := Z.to_nat (Z.max 0 (Z.min x (Z.of_nat n))).

(** Modelled from the spec: edge replication.  The first valid row is
    repeated in front and the last valid row behind.  The spec leaves a
    window without a valid row open: there is nothing to repeat, the
    model refuses it, and no property below rests on that choice. *)
Definition pad_edge (front back : nat) (sample : list R) : result (list R) :=
  match sample with
  | [] => if decide (front + back = 0) then Ok [] else Err IndexError
  | r :: _ => Ok (replicate front r ++ sample ++ replicate back (List.last sample r))
  end.

(** Modelled from the spec: the rows of one field for a window of the
    episode with bounds [b]. *)
Definition sample_field (w : window) (b : nat * nat) (column : list R) : result (list R) :=
  let n := b.2 - b.1 in
  let episode := take n (drop b.1 column) in
  let start := clamp (w_start w) n in
  let stop := clamp (w_end w) n in
  let sample := take (stop - start) (drop start episode) in
  pad_edge (Z.to_nat (Z.of_nat start - w_start w)) (Z.to_nat (w_end w - Z.of_nat stop)) sample.

(** The only exception a field raises is [IndexError]. *)
Definition collect {X} (m : gmap string (result X)) : result (gmap string X) :=
  if decide (map_Forall (fun _ r => is_ok r) m) then Ok (omap to_option m)
  else Err IndexError.

(** Modelled from the spec: [sample_sequence(idx)]. *)
Definition sample_sequence (s : SequenceSampler) (idx : Z) : result (gmap string (list R)) :=
  w ← (if decide (0 ≤ idx)%Z then of_option IndexError (indices s !! Z.to_nat idx)
       else Err IndexError);
  b ← of_option IndexError (episode_bounds (rb_episode_ends (replay_buffer s)) !! w_episode w);
  collect (sample_field w b <$> rb_data (replay_buffer s)).



End sampler.
Arguments ReplayBuffer R : clear implicits.
Arguments SequenceSampler R : clear implicits.
End Sampler.

(** ** The low-dimensional dataset *)

Module Dataset.
Import Sampler Normalizers.

(** The values of the dictionary returned by [get_normalizer]: a
    normalizer or a nested dictionary of normalizers. *)
Inductive normalizer_entry : Type :=
| NormLeaf (n : MinMaxNormalizer)
| NormDict (d : gmap string MinMaxNormalizer).

(** Subscripting a normalizer object is a [TypeError]; asking a
    dictionary for its [normalize] attribute is an [AttributeError]. *)
Definition as_dict (e : normalizer_entry) : result (gmap string MinMaxNormalizer) :=
  match e with NormDict d => Ok d | NormLeaf _ => Err TypeError end.

Definition as_normalizer (e : normalizer_entry) : result MinMaxNormalizer :=
  match e with NormLeaf n => Ok n | NormDict _ => Err AttributeError end.

(** The attributes of [RobomimicDataset] that item access reads.  A row
    of a field is a vector of numbers. *)
Record RobomimicDataset : Type := {
  sampler : SequenceSampler (list Q);
  state_normalizer : MinMaxNormalizer;
  action_normalizer : MinMaxNormalizer
}.

Definition get_normalizer (self : RobomimicDataset) : gmap string normalizer_entry :=
  {[ "obs" := NormDict {[ "state" := state_normalizer self ]};
     "act" := NormLeaf (action_normalizer self) ]}.

(** [self.normalizer] is assigned once, by [__init__], from
    [self.get_normalizer()]. *)
Definition normalizer (self : RobomimicDataset) : gmap string normalizer_entry :=
  get_normalizer self.

(** [__init__] once the demonstrations are in the replay buffer. *)
Definition __init__ (replay_buffer : ReplayBuffer (list Q)) (horizon pad_before pad_after : nat)
    : result RobomimicDataset :=
  obs ← getitem (rb_data replay_buffer) "obs";
  action ← getitem (rb_data replay_buffer) "action";
  mret {| sampler := {| Sampler.replay_buffer := replay_buffer; sequence_length := horizon;
                        Sampler.pad_before := pad_before; Sampler.pad_after := pad_after |};
          state_normalizer := from_samples obs;
          action_normalizer := from_samples action |}.

(** The dictionary [{"obs": {"state": state}, "act": action}]. *)
Record item : Type := {
  item_obs_state : list (list (option Q));
  item_act : list (list (option Q))
}.

Definition __len__ (self : RobomimicDataset) : nat := len (sampler self).

Definition __getitem__ (self : RobomimicDataset) (idx : Z) : result item :=
  sample ← sample_sequence (sampler self) idx;
  obs_entry ← getitem (normalizer self) "obs";
  obs_dict ← as_dict obs_entry;
  state_n ← getitem obs_dict "state";
  sample_obs ← getitem sample "obs";
  let state := normalize state_n sample_obs in
  action_entry ← getitem (normalizer self) "action";
  action_n ← as_normalizer action_entry;
  sample_action ← getitem sample "action";
  let action := normalize action_n sample_action in
  mret {| item_obs_state := state; item_act := action |}.

(** [sample_to_data] looks the normalizers up in the same way; the cast
    of the sample to float32 leaves the model's numbers as they are. *)
Definition sample_to_data (self : RobomimicDataset) (sample : gmap string (list (list Q)))
    : result item :=
  sample_obs ← getitem sample "obs";
  obs_entry ← getitem (normalizer self) "obs";
  obs_dict ← as_dict obs_entry;
  state_n ← getitem obs_dict "state";
  let state := normalize state_n sample_obs in
  sample_action ← getitem sample "action";
  action_entry ← getitem (normalizer self) "action";
  action_n ← as_normalizer action_entry;
  let action := normalize action_n sample_action in
  mret {| item_obs_state := state; item_act := action |}.

End Dataset.

(** ** [_convert_robomimic_to_replay] *)

Module Convert.
Import NdArray Actions.
Section convert.
Context {A : Type}.

(** [astype(np.float32)] on one element. *)
Variable astype_float32 : A → A.
(** The codec [Jpeg2k(level=50)]: whether a frame is encoded and decoded
    back without an exception. *)
Variable codec_ok : ndarray A → bool.
(** [multiprocessing.cpu_count()]. *)
Variable cpu_count : Z.

(** One entry of [shape_meta["obs"]]; [attr_type] is [None] when the
    entry has no ["type"]. *)
Record attr : Type := { attr_shape : list nat; attr_type : option string }.

(** [shape_meta]: the entries of ["obs"] in the order of the dictionary,
    and [shape_meta["action"]["shape"]]. *)
Record shape_meta_t : Type := {
  sm_obs : list (string * attr);
  sm_action_shape : list nat
}.

(** The group [data/demo_i] of the HDF5 file. *)
Record demo : Type := { demo_obs : gmap string (ndarray A); demo_actions : ndarray A }.

(** A zarr array: its shape, the shape of a chunk and the chunks that
    have been written. *)
Record zarr_array : Type := {
  z_shape : list nat;
  z_chunks : list nat;
  z_store : gmap nat (ndarray A)
}.

(** [ReplayBuffer(root)]: the arrays of the group [data] and
    [meta/episode_ends]. *)
Record replay_root : Type := {
  root_data : gmap string zarr_array;
  root_episode_ends : list nat
}.

Definition obs_type (a : attr) : string := default "low_dim" (attr_type a).

Definition keys_of_type (ty : string) (sm : shape_meta_t) : list string :=
  (filter (fun kv => obs_type kv.2 = ty) (sm_obs sm)).*1.

Definition rgb_keys (sm : shape_meta_t) : list string := keys_of_type "rgb" sm.
Definition lowdim_keys (sm : shape_meta_t) : list string := keys_of_type "low_dim" sm.

(** [shape_meta["obs"][key]]. *)
Definition obs_attr (sm : shape_meta_t) (key : string) : result attr :=
  of_option (KeyError key) ((fun p => p.2.2) <$> list_find (fun kv => kv.1 = key) (sm_obs sm)).

Definition foldM {S X} (f : S → X → result S) : S → list X → result S :=
  fix go (s : S) (l : list X) : result S :=
    match l with
    | [] => Ok s
    | x :: l => s' ← f s x; go s' l
    end.

(** *** Counting the steps *)

Definition shape0 (a : ndarray A) : result nat := of_option IndexError (head (shape a)).

Fixpoint count_steps (prev_end : nat) (demos : list demo) : result (list nat) :=
  match demos with
  | [] => Ok []
  | d :: demos =>
      episode_length ← shape0 (demo_actions d);
      let episode_end := prev_end + episode_length in
      rest ← count_steps episode_end demos;
      Ok (episode_end :: rest)
  end.

(** [[0] + episode_ends[:-1]]. *)
Definition starts_of (episode_ends : list nat) : list nat :=
  0 :: take (length episode_ends - 1) episode_ends.




(** *** The low-dimensional fields and the action *)

Definition astype (a : ndarray A) : ndarray A :=
  {| shape := shape a; data := astype_float32 <$> data a |}.

(** [demo[data_key][:].astype(np.float32)], where [data_key] is
    ["actions"] for the key ["action"] and ["obs/" + key] otherwise. *)
Definition read_lowdim (key : string) (d : demo) : result (ndarray A) :=
  arr ← (if decide (key = "action") then Ok (demo_actions d) else getitem (demo_obs d) key);
  Ok (astype arr).

(** The per-episode arrays of a key, concatenated in episode order. *)
Definition concat_lowdim (key : string) (demos : list demo) : result (ndarray A) :=
  this_data ← mapM (read_lowdim key) demos;
  concatenate0 this_data.

(** [data_group.array(name=key, data=this_data, chunks=this_data.shape)]:
    one chunk holds the whole array; an array of that name may not
    exist yet.  The chunk grid divides every axis by its chunk length,
    which is the axis itself: an array with an axis of length 0 is
    refused with [ZeroDivisionError]. *)
Definition group_array (name : string) (d : ndarray A) (g : gmap string zarr_array)
    : result (gmap string zarr_array) :=
  match g !! name with
  | Some _ => Err ValueError
  | None =>
      if decide (0 ∈ shape d) then Err ZeroDivisionError
      else Ok (<[name := {| z_shape := shape d; z_chunks := shape d;
                            z_store := {[0 := d]} |}]> g)
  end.

(** The shape that the assertion compares with. *)
Definition declared_shape (sm : shape_meta_t) (key : string) : result (list nat) :=
  if decide (key = "action") then Ok (sm_action_shape sm)
  else a ← obs_attr sm key; Ok (attr_shape a).

(** The array of a key: the action passes through [_convert_actions]. *)
Definition converted_lowdim (demos : list demo) (abs_action : bool)
    (rt : RotationTransformer A) (key : string) : result (ndarray A) :=
  this_data ← concat_lowdim key demos;
  if decide (key = "action") then _convert_actions this_data abs_action rt
  else Ok this_data.

(** The array of a key after the assertion on its shape. *)
Definition checked_lowdim (sm : shape_meta_t) (demos : list demo) (abs_action : bool)
    (rt : RotationTransformer A) (n_steps : nat) (key : string) : result (ndarray A) :=
  this_data ← converted_lowdim demos abs_action rt key;
  declared ← declared_shape sm key;
  if decide (shape this_data = n_steps :: declared) then Ok this_data
  else Err AssertionError.

Definition save_lowdim_key (sm : shape_meta_t) (demos : list demo) (abs_action : bool)
    (rt : RotationTransformer A) (n_steps : nat)
    (g : gmap string zarr_array) (key : string) : result (gmap string zarr_array) :=
  this_data ← checked_lowdim sm demos abs_action rt n_steps key;
  group_array key this_data g.

Definition save_lowdim (sm : shape_meta_t) (demos : list demo) (abs_action : bool)
    (rt : RotationTransformer A) (n_steps : nat) : result (gmap string zarr_array) :=
  foldM (save_lowdim_key sm demos abs_action rt n_steps) ∅ (lowdim_keys sm ++ ["action"]).

(** *** The image fields *)

(** [hdf5_arr[hdf5_idx]]. *)
Definition frame_at (hdf5_arr : ndarray A) (hdf5_idx : nat) : ndarray A :=
  let s := drop 1 (shape hdf5_arr) in
  {| shape := s; data := row (size_of s) (data hdf5_arr) hdf5_idx |}.

(** [zarr_arr[zarr_idx] = value] on an array with one chunk per row:
    the row must exist, the value must have the shape of a row, and the
    codec must accept it.  A value without axes, which would fill the
    row, is not a frame and is refused like any other shape. *)
Definition zarr_setitem (z : zarr_array) (zarr_idx : nat) (value : ndarray A)
    : result zarr_array :=
  if decide (zarr_idx < default 0 (head (z_shape z))) then
    if decide (shape value = drop 1 (z_shape z)) then
      if codec_ok value then
        Ok {| z_shape := z_shape z; z_chunks := z_chunks z;
              z_store := <[zarr_idx := value]> (z_store z) |}
      else Err (RuntimeError "codec")
    else Err ValueError
  else Err IndexError.

(** [img_copy]: every exception of the write or of the read back is
    caught and turned into [False].  [g] holds the array that [zarr_arr]
    refers to under [key]. *)
Definition img_copy (g : gmap string zarr_array) (key : string) (zarr_idx : nat)
    (hdf5_arr : ndarray A) (hdf5_idx : nat) : bool * gmap string zarr_array :=
  match g !! key ≫= (fun z => to_option (zarr_setitem z zarr_idx (frame_at hdf5_arr hdf5_idx))) with
  | Some z' => (true, <[key := z']> g)
  | None => (false, g)
  end.

(** What [img_copy] returns for the frame [hdf5_idx] of [hdf5_arr] and
    the row [zarr_idx] of a fresh image array of [n_steps] rows for the
    declared shape [(c, h, w)]. *)
Definition copy_ok (n_steps : nat) (chw : nat * nat * nat) (zarr_idx : nat)
    (hdf5_arr : ndarray A) (hdf5_idx : nat) : bool :=
  let '(c, h, w) := chw in
  bool_decide (is_ok (zarr_setitem {| z_shape := [n_steps; h; w; c]; z_chunks := [1; h; w; c];
                                      z_store := ∅ |} zarr_idx (frame_at hdf5_arr hdf5_idx))).

(** A submitted task: the field and row it writes and what its
    [result()] is. *)
Record future : Type := { f_key : string; f_zarr_idx : nat; f_result : bool }.

(** [concurrent.futures.wait(futures, return_when=FIRST_COMPLETED)]:
    which of the tasks in flight are done at the [k]-th call, and which
    are not, is decided by the thread pool and not by the program. *)
Variable first_completed : nat → list future → list future * list future.

(** What [wait] guarantees: it splits the tasks in flight, and it
    returns only when at least one of them is done. *)
Definition wait_ok : Prop :=
  ∀ k fs, (first_completed k fs).1 ++ (first_completed k fs).2 ≡ₚ fs
          ∧ (fs ≠ [] → (first_completed k fs).1 ≠ []).

(** The state of the image phase.  [inflight_log] records [len(futures)]
    after every [futures.add]; the program does not read it. *)
Record pool : Type := {
  futures : list future;
  n_waits : nat;
  inflight_log : list nat;
  data_group : gmap string zarr_array
}.

(** Computations that change the state and may raise; the state
    survives an exception. *)
Definition M (X : Type) : Type := pool → result X * pool.

Definition ret {X} (x : X) : M X := fun st => (Ok x, st).
Definition raise {X} (e : exn) : M X := fun st => (Err e, st).
Definition bind {X Y} (m : M X) (f : X → M Y) : M Y := fun st =>
  match m st with
  | (Ok x, st') => f x st'
  | (Err e, st') => (Err e, st')
  end.
Definition lift {X} (r : result X) : M X := fun st => (r, st).

Fixpoint forM_ {X} (f : X → M unit) (l : list X) : M unit :=
  match l with
  | [] => ret tt
  | x :: l => bind (f x) (fun _ => forM_ f l)
  end.

(** [for f in completed: if not f.result(): raise RuntimeError(...)]. *)
Definition drain (completed : list future) : M unit :=
  if forallb f_result completed then ret tt
  else raise (RuntimeError "Failed to encode image!").

Definition wait_first : M (list future) := fun st =>
  let r := first_completed (n_waits st) (futures st) in
  (Ok r.1, {| futures := r.2; n_waits := S (n_waits st);
              inflight_log := inflight_log st; data_group := data_group st |}).

(** [concurrent.futures.wait(futures)] returns when all are done. *)
Definition wait_all : M (list future) := fun st =>
  (Ok (futures st), {| futures := []; n_waits := S (n_waits st);
                       inflight_log := inflight_log st; data_group := data_group st |}).

(** [futures.add(executor.submit(img_copy, ...))].  The write of the
    task is applied to the store when the task is submitted. *)
Definition submit (key : string) (zarr_idx : nat) (hdf5_arr : ndarray A) (hdf5_idx : nat)
    : M unit := fun st =>
  let r := img_copy (data_group st) key zarr_idx hdf5_arr hdf5_idx in
  let fs := futures st ++ [{| f_key := key; f_zarr_idx := zarr_idx; f_result := r.1 |}] in
  (Ok tt, {| futures := fs; n_waits := n_waits st;
             inflight_log := inflight_log st ++ [length fs]; data_group := r.2 |}).

(** [if len(futures) >= max_inflight_tasks:] wait for the first task to
    complete and check the completed ones. *)
Definition throttle (max_inflight_tasks : Z) : M unit := fun st =>
  if decide (max_inflight_tasks ≤ Z.of_nat (length (futures st)))%Z
  then bind wait_first drain st
  else ret tt st.

(** The body of the innermost loop. *)
Definition copy_step (max_inflight_tasks : Z) (key : string) (episode_starts : list nat)
    (episode_idx : nat) (hdf5_arr : ndarray A) (hdf5_idx : nat) : M unit :=
  bind (throttle max_inflight_tasks) (fun _ =>
  bind (lift (of_option IndexError (episode_starts !! episode_idx))) (fun start =>
  let zarr_idx := start + hdf5_idx in
  submit key zarr_idx hdf5_arr hdf5_idx)).

(** [enumerate]. *)
Definition enumerate {X} (l : list X) : list (nat * X) := imap pair l.

Definition copy_episode (max_inflight_tasks : Z) (key : string) (episode_starts : list nat)
    (p : nat * demo) : M unit :=
  bind (lift (getitem (demo_obs p.2) key)) (fun hdf5_arr =>
  bind (lift (shape0 hdf5_arr)) (fun n =>
  forM_ (copy_step max_inflight_tasks key episode_starts p.1 hdf5_arr) (seq 0 n))).

(** [data_group.require_dataset(name=key, shape=..., chunks=...)]. *)
Definition require_dataset (name : string) (shp chunks : list nat) : M unit := fun st =>
  match data_group st !! name with
  | Some z => if decide (z_shape z = shp) then (Ok tt, st) else (Err TypeError, st)
  | None =>
      (Ok tt, {| futures := futures st; n_waits := n_waits st;
                 inflight_log := inflight_log st;
                 data_group := <[name := {| z_shape := shp; z_chunks := chunks;
                                            z_store := ∅ |}]> (data_group st) |})
  end.

(** [c, h, w = shape]. *)
Definition unpack3 (shp : list nat) : result (nat * nat * nat) :=
  match shp with
  | [c; h; w] => Ok (c, h, w)
  | _ => Err ValueError
  end.

Definition copy_key (sm : shape_meta_t) (demos : list demo) (max_inflight_tasks : Z)
    (n_steps : nat) (episode_starts : list nat) (key : string) : M unit :=
  bind (lift (obs_attr sm key)) (fun a =>
  bind (lift (unpack3 (attr_shape a))) (fun '(c, h, w) =>
  bind (require_dataset key [n_steps; h; w; c] [1; h; w; c]) (fun _ =>
  forM_ (copy_episode max_inflight_tasks key episode_starts) (enumerate demos)))).

(** The block under [ThreadPoolExecutor(max_workers=n_workers)], which
    refuses a worker count below 1. *)
Definition load_images (sm : shape_meta_t) (demos : list demo) (n_workers max_inflight_tasks : Z)
    (n_steps : nat) (episode_starts : list nat) : M unit :=
  bind (if decide (n_workers ≤ 0)%Z then raise ValueError else ret tt) (fun _ =>
  bind (forM_ (copy_key sm demos max_inflight_tasks n_steps episode_starts) (rgb_keys sm))
    (fun _ =>
  bind wait_all drain)).

Definition init_pool (g : gmap string zarr_array) : pool :=
  {| futures := []; n_waits := 0; inflight_log := []; data_group := g |}.

(** [max_inflight_tasks] when the arguments are [None]. *)
Definition workers (n_workers : option Z) : Z := default cpu_count n_workers.
Definition inflight_bound (n_workers max_inflight_tasks : option Z) : Z :=
  default (workers n_workers * 5)%Z max_inflight_tasks.

(** The HDF5 group [data] is the list of its groups [demo_0], [demo_1],
    ... *)
Definition _convert_robomimic_to_replay (shape_meta : shape_meta_t) (demos : list demo)
    (abs_action : bool) (rotation_transformer : RotationTransformer A)
    (n_workers max_inflight_tasks : option Z) : result replay_root :=
  let max_inflight_tasks := inflight_bound n_workers max_inflight_tasks in
  let n_workers := workers n_workers in
  episode_ends ← count_steps 0 demos;
  n_steps ← of_option IndexError (last episode_ends);
  let episode_starts := starts_of episode_ends in
  g ← save_lowdim shape_meta demos abs_action rotation_transformer n_steps;
  let r := load_images shape_meta demos n_workers max_inflight_tasks n_steps episode_starts
             (init_pool g) in
  _ ← r.1;
  Ok {| root_data := data_group r.2; root_episode_ends := episode_ends |}.

(** *** Properties of the state of the image phase *)

(** A property of the state that a computation keeps, whether it
    returns or raises. *)
Definition keeps {X} (I : pool → Prop) (m : M X) : Prop := ∀ st, I st → I (m st).2.

(** The number of tasks in flight, now and after every earlier
    [futures.add], is at most [bound]. *)
Definition within (bound : Z) (st : pool) : Prop :=
  Forall (fun k => (Z.of_nat k ≤ bound)%Z) (inflight_log st)
  ∧ (Z.of_nat (length (futures st)) ≤ bound)%Z.

(** A task in flight has failed. *)
Definition bad (st : pool) : Prop := ∃ f, f ∈ futures st ∧ f_result f = false.

(** Once a task in flight has failed, a computation that returns leaves
    a failed task in flight. *)
Definition stays_bad {X} (m : M X) : Prop :=
  ∀ st, bad st → is_ok (m st).1 → bad (m st).2.

(** The group holds an array of shape [shp] under [key]. *)
Definition has_image (key : string) (shp : list nat) (st : pool) : Prop :=
  ∃ z, data_group st !! key = Some z ∧ z_shape z = shp.

End convert.
Arguments demo A : clear implicits.
Arguments zarr_array A : clear implicits.
Arguments replay_root A : clear implicits.
Arguments pool A : clear implicits.
End Convert.

(** ** Example inputs *)

Module Examples.
Import NdArray Actions Normalizers Sampler Dataset Convert.

(** A stand-in for a rotation transformer: six numbers of which the
    first three are the rotation vector. *)
Definition rt_demo : RotationTransformer Z :=
  {| to_dim := 6; forward_row := fun r => r ++ r; inverse_row := take 3 |}.


Definition dual_arm_demo : ndarray Z :=
  {| shape := [1; 14]; data := [1; 2; 3; 4; 5; 6; 7; 11; 12; 13; 14; 15; 16; 17]%Z |}.




Definition demo_buffer : ReplayBuffer (list Q) :=
  {| rb_data := {[ "obs" := [[0]; [1]; [2]; [3]; [4]; [5]; [6]; [7]]%Q;
                   "action" := [[1]; [1]; [0]; [0]; [1]; [0]; [1]; [1]]%Q ]};
     rb_episode_ends := [5; 8] |}.

Definition demo_dataset : result RobomimicDataset := __init__ demo_buffer 4 1 1.

Definition demo_frames (n : nat) : ndarray Z :=
  {| shape := [n; 1; 1; 1]; data := replicate n 7%Z |}.
Definition demo_acts (n : nat) : ndarray Z :=
  {| shape := [n; 7]; data := replicate (n * 7) 1%Z |}.
Definition demo_pos (n : nat) : ndarray Z :=
  {| shape := [n; 3]; data := replicate (n * 3) 2%Z |}.

(** An episode with [n] steps and [m] frames. *)
Definition make_demo (n m : nat) : demo Z :=
  {| demo_obs := {[ "cam" := demo_frames m; "pos" := demo_pos n ]};
     demo_actions := demo_acts n |}.

Definition demo_meta : shape_meta_t :=
  {| sm_obs := [("cam", {| attr_shape := [1; 1; 1]; attr_type := Some "rgb" |});
                ("pos", {| attr_shape := [3]; attr_type := None |})];
     sm_action_shape := [7] |}.

(** The declared shape of ["pos"] is not the shape of the data. *)
Definition bad_meta : shape_meta_t :=
  {| sm_obs := [("cam", {| attr_shape := [1; 1; 1]; attr_type := Some "rgb" |});
                ("pos", {| attr_shape := [4]; attr_type := None |})];
     sm_action_shape := [7] |}.

(** A thread pool in which the oldest task completes first. *)
Definition oldest_first (k : nat) (fs : list future) : list future * list future :=
  (take 1 fs, drop 1 fs).

Definition convert_demo (sm : shape_meta_t) (demos : list (demo Z))
    (n_workers max_inflight_tasks : option Z) : result (replay_root Z) :=
  _convert_robomimic_to_replay id (fun _ => true) 4 oldest_first sm demos false rt_demo
    n_workers max_inflight_tasks.

(** An episode of three steps whose second frame the codec below
    rejects. *)
Definition flawed_demo : demo Z :=
  {| demo_obs := {[ "cam" := {| shape := [3; 1; 1; 1]; data := [7; 9; 7]%Z |};
                    "pos" := demo_pos 3 ]};
     demo_actions := demo_acts 3 |}.

Definition picky_codec (frame : ndarray Z) : bool := bool_decide (data frame ≠ [9%Z]).

End Examples.

(** ** The cast of the converted actions *)

Module Casts.
Import NdArray Actions Convert.
Section casts.
Context {A : Type}.

(** [astype(np.float32)] on one element of the concatenated row, of
    whatever type the element is. *)
Variable astype_float32 : A → A.

(** [_convert_actions] on actions whose elements are of any type:
    [forward_row] is [forward] as it is, and the concatenation of the
    three parts is cast as a whole.  Relative actions are returned as
    they are, without a cast. *)
Definition _convert_actions (raw_actions : ndarray A) (abs_action : bool)
    (rotation_transformer : RotationTransformer A) : result (ndarray A) :=
  if abs_action then
    w ← last_dim raw_actions;
    let is_dual_arm := bool_decide (w = 14) in
    raw_actions ← (if is_dual_arm then reshape_infer [2; 7] raw_actions
                   else mret raw_actions);
    let pos := slice_last 0 3 raw_actions in
    let rot := slice_last 3 6 raw_actions in
    let gripper := slice_last_from 6 raw_actions in
    let rot := forward rotation_transformer rot in
    raw_actions ← concatenate_last3 pos rot gripper;
    let raw_actions := astype astype_float32 raw_actions in
    if is_dual_arm then reshape_infer [20] raw_actions else mret raw_actions
  else mret raw_actions.

End casts.
End Casts.

(** ** More example inputs *)

Module MoreExamples.
Import NdArray Actions Convert.

(** A stand-in for the cast to float32 on whole numbers: an odd number
    is rounded down to the even number below it, as the cast rounds
    16777217 to 16777216. *)
Definition round_even (x : Z) : Z := (2 * (x / 2))%Z.

(** One action of width 7 that the cast changes in every part. *)
Definition odd_action : ndarray Z :=
  {| shape := [1; 7]; data := [16777217; 3; 5; 7; 9; 11; 13]%Z |}.

(** A stand-in for a transformer to quaternions: four numbers per
    rotation. *)
Definition rt_quat : RotationTransformer Z :=
  {| to_dim := 4; forward_row := fun r => r ++ [0%Z]; inverse_row := take 3 |}.

(** Five dual-arm actions. *)
Definition five_dual_arm : ndarray Z :=
  {| shape := [5; 14]; data := replicate 70 1%Z |}.

(** A file for the default [shape_meta]: one episode of one step with
    two cameras of 84 by 84 pixels. *)
Definition default_frames : ndarray Z :=
  {| shape := [1; 84; 84; 3]; data := replicate (84 * 84 * 3) 0%Z |}.

Definition default_demo : demo Z :=
  {| demo_obs := {[ "agentview_image" := default_frames;
                    "robot0_eye_in_hand_image" := default_frames;
                    "robot0_eef_pos" := {| shape := [1; 3]; data := [1; 2; 3]%Z |};
                    "robot0_eef_quat" := {| shape := [1; 4]; data := [0; 0; 0; 1]%Z |};
                    "robot0_gripper_qpos" := {| shape := [1; 2]; data := [5; 5]%Z |} ]};
     demo_actions := {| shape := [1; 7]; data := [1; 2; 3; 4; 5; 6; 7]%Z |} |}.

End MoreExamples.

(** ** What the image phase does to the store *)

Module Stores.
Import NdArray Convert.
Section stores.
Context {A : Type}.

(** The array that [require_dataset] creates for an image field of
    [n_steps] frames. *)
Definition fresh_image (n_steps h w c : nat) : zarr_array A :=
  {| z_shape := [n_steps; h; w; c]; z_chunks := [1; h; w; c]; z_store := ∅ |}.

(** The array after [value] has been written to the row [idx]. *)
Definition written (z : zarr_array A) (idx : nat) (value : ndarray A) : zarr_array A :=
  {| z_shape := z_shape z; z_chunks := z_chunks z;
     z_store := <[idx := value]> (z_store z) |}.

(** One change of the group during the image phase: an array for an
    image field is created, or a frame of the shape of a row is written
    to an existing row of the array of an image field. *)
Inductive store_step (keys : list string) (n_steps : nat)
    : gmap string (zarr_array A) → gmap string (zarr_array A) → Prop :=
| step_create key h w c g :
    key ∈ keys → g !! key = None →
    store_step keys n_steps g (<[key := fresh_image n_steps h w c]> g)
| step_write key z idx value g :
    key ∈ keys → g !! key = Some z →
    idx < default 0 (head (z_shape z)) → shape value = drop 1 (z_shape z) →
    store_step keys n_steps g (<[key := written z idx value]> g).

(** The group of the final state is reached from the group of the
    first state by such changes. *)
Definition evolves {X} (keys : list string) (n_steps : nat) (m : @M A X) : Prop :=
  ∀ st, rtc (store_step keys n_steps) (data_group st) (data_group (m st).2).





(** The array that [data_group.array] creates for a low-dimensional
    field: one chunk with the whole array. *)
Definition lowdim_array (d : ndarray A) : zarr_array A :=
  {| z_shape := shape d; z_chunks := shape d; z_store := {[0 := d]} |}.

(** [demo["actions"].shape[0]]; an array without axes has no length. *)
Definition episode_length (d : demo A) : nat := default 0 (head (shape (demo_actions d))).

End stores.
End Stores.

(** ** [RobomimicImageDataset]: the replay buffer of [__init__] *)

Module ImageDataset.
Import NdArray Actions Convert.
Section image_dataset.
Context {A : Type}.
Variable astype_float32 : A → A.
Variable codec_ok : ndarray A → bool.
Variable cpu_count : Z.
Variable first_completed : nat → list future → list future * list future.

(** The [shape_meta] that [__init__] uses when it is given [None]. *)
Definition default_shape_meta (abs_action : bool) : shape_meta_t :=
  {| sm_obs :=
       [("agentview_image", {| attr_shape := [3; 84; 84]; attr_type := Some "rgb" |});
        ("robot0_eye_in_hand_image", {| attr_shape := [3; 84; 84]; attr_type := Some "rgb" |});
        ("robot0_eef_pos", {| attr_shape := [3]; attr_type := Some "low_dim" |});
        ("robot0_eef_quat", {| attr_shape := [4]; attr_type := Some "low_dim" |});
        ("robot0_gripper_qpos", {| attr_shape := [2]; attr_type := Some "low_dim" |})];
     sm_action_shape := [if negb abs_action then 7 else 10] |}.

(** [self.replay_buffer] as [__init__] builds it: the worker count and
    the bound on the tasks in flight are left at [None]. *)
Definition init_replay_buffer (shape_meta : option shape_meta_t) (demos : list (demo A))
    (abs_action : bool) (rotation_transformer : RotationTransformer A)
    : result (replay_root A) :=
  let shape_meta := default (default_shape_meta abs_action) shape_meta in
  _convert_robomimic_to_replay astype_float32 codec_ok cpu_count first_completed
    shape_meta demos abs_action rotation_transformer None None.

End image_dataset.
End ImageDataset.

(** ** What the conversion asks of a file *)

Module Accepts.
Import NdArray Convert Stores.
Section accepts.
Context {A : Type}.
Variable codec_ok : ndarray A → bool.

(** Every episode holds the actions in the declared shape, which has
    no axis of length 0. *)
Definition actions_ok (sm : shape_meta_t) (demos : list (demo A)) : Prop :=
  (0 ∉ sm_action_shape sm)
  ∧ Forall (fun d => shape (demo_actions d) = episode_length d :: sm_action_shape sm) demos.

(** Every episode holds the low-dimensional field [key] in the declared
    shape, one row per step, and the declared shape has no axis of
    length 0. *)
Definition lowdim_ok (sm : shape_meta_t) (demos : list (demo A)) (key : string) : Prop :=
  ∃ a, obs_attr sm key = Ok a ∧ (0 ∉ attr_shape a)
       ∧ Forall (fun d => ∃ arr, demo_obs d !! key = Some arr
                                 ∧ shape arr = episode_length d :: attr_shape a) demos.

(** Every episode holds the image field [key], declared as
    [(c, h, w)] with no axis of length 0, as one frame of shape
    [(h, w, c)] per step, and the codec accepts every frame. *)
Definition image_ok (sm : shape_meta_t) (demos : list (demo A)) (key : string) : Prop :=
  ∃ a c h w, obs_attr sm key = Ok a ∧ attr_shape a = [c; h; w]
    ∧ 0 < c ∧ 0 < h ∧ 0 < w
    ∧ Forall (fun d => ∃ arr, demo_obs d !! key = Some arr
                              ∧ shape arr = [episode_length d; h; w; c]
                              ∧ ∀ j, j < episode_length d → codec_ok (frame_at arr j) = true)
        demos.

(** The tasks in flight have all succeeded, and the arrays of the image
    fields have the shapes that their declarations ask for. *)
Definition sound (sm : shape_meta_t) (n_steps : nat) (st : pool A) : Prop :=
  Forall (fun f => f_result f = true) (futures st)
  ∧ ∀ key a c h w z,
      key ∈ rgb_keys sm → obs_attr sm key = Ok a → attr_shape a = [c; h; w] →
      data_group st !! key = Some z → z_shape z = [n_steps; h; w; c].

End accepts.
End Accepts.

(** ** [_data_to_obs]: one episode of the low-dimensional dataset *)

Module Episode.
Import NdArray Actions Convert.
Section episode.
Context {A : Type}.
Variable astype_float32 : A → A.

(** [np.concatenate(arrays, axis=-1)]: at least one array, none without
    axes, and all of the same shape up to the last axis. *)
Definition concatenate_last (arrays : list (ndarray A)) : result (ndarray A) :=
  match arrays with
  | [] => Err ValueError
  | a :: rest =>
      if decide (shape a ≠ [] ∧ Forall (fun b => shape b ≠ [] ∧ leading b = leading a) rest)
      then
        Ok {| shape := leading a ++ [sum_list ((fun b => default 0 (last (shape b))) <$> arrays)];
              data := concat ((fun i => concat ((fun b => row (default 0 (last (shape b)))
                                                             (data b) i) <$> arrays))
                                <$> seq 0 (size_of (leading a))) |}
      else Err ValueError
  end.

(** [raw_obs] is the HDF5 group [demo["obs"]].  The caller passes the
    actions as float32 values, on which the cast of the converted
    actions is the identity, as in [_convert_actions].  The observation
    is read and joined before the actions are looked at. *)
Definition _data_to_obs (raw_obs : gmap string (ndarray A)) (raw_actions : ndarray A)
    (obs_keys : list string) (abs_action : bool) (rotation_transformer : RotationTransformer A)
    : result (gmap string (ndarray A)) :=
  parts ← mapM (getitem raw_obs) obs_keys;
  obs ← concatenate_last parts;
  let obs := astype astype_float32 obs in
  raw_actions ←
    (if abs_action then
       w ← last_dim raw_actions;
       let is_dual_arm := bool_decide (w = 14) in
       raw_actions ← (if is_dual_arm then reshape_infer [2; 7] raw_actions
                      else mret raw_actions);
       let pos := slice_last 0 3 raw_actions in
       let rot := slice_last 3 6 raw_actions in
       let gripper := slice_last_from 6 raw_actions in
       let rot := forward rotation_transformer rot in
       raw_actions ← concatenate_last3 pos rot gripper;
       if is_dual_arm then reshape_infer [20] raw_actions else mret raw_actions
     else mret raw_actions);
  mret ({[ "obs" := obs; "action" := raw_actions ]} : gmap string (ndarray A)).

End episode.
End Episode.

(** ** [RobomimicImageDataset]: the dictionary of normalizers *)

Module ImageNormalizer.
Import NdArray Convert.
Section image_normalizer.
(** [N] is the type of a normalizer object. *)
Context {A N : Type}.
(** [MinMaxNormalizer(self.replay_buffer[key][:])]. *)
Variable fit : zarr_array A → N.
(** [MinMaxNormalizer(None, -3, max_rgb_values, min_rgb_values)], where
    the two arrays have the declared shape and hold 255 and 0. *)
Variable pixel_range : list nat → N.

(** A value of [self.normalizer]: a normalizer or the dictionary under
    ["obs"]. *)
Inductive entry : Type :=
| Leaf (n : N)
| Dict (d : gmap string N).

Definition subscript (e : entry) (key : string) : result N :=
  match e with Dict d => getitem d key | Leaf _ => Err TypeError end.

Definition as_leaf (e : entry) : result N :=
  match e with Leaf n => Ok n | Dict _ => Err AttributeError end.

(** The three assignments that fill [self.normalizer] in [__init__]:
    the low-dimensional fields, the image fields, the action. *)
Definition init_normalizer (shape_meta : shape_meta_t) (replay_buffer : replay_root A)
    : result (gmap string entry) :=
  obs ← foldM (fun obs key =>
                 z ← getitem (root_data replay_buffer) key;
                 Ok (<[key := fit z]> obs)) (∅ : gmap string N) (lowdim_keys shape_meta);
  obs ← foldM (fun obs key =>
                 a ← obs_attr shape_meta key;
                 Ok (<[key := pixel_range (attr_shape a)]> obs)) obs (rgb_keys shape_meta);
  action ← getitem (root_data replay_buffer) "action";
  Ok {[ "obs" := Dict obs; "action" := Leaf (fit action) ]}.

(** [self.normalizer["obs"][key]] and [self.normalizer["action"]]. *)
Definition lookup_obs (normalizer : gmap string entry) (key : string) : result N :=
  e ← getitem normalizer "obs"; subscript e key.

Definition lookup_action (normalizer : gmap string entry) : result N :=
  e ← getitem normalizer "action"; as_leaf e.

(** The normalizers that [__getitem__] looks up, in its order: the image
    fields, the low-dimensional fields, the action. *)
Definition getitem_normalizers (normalizer : gmap string entry) (shape_meta : shape_meta_t)
    : result (list N * list N * N) :=
  rgb ← mapM (lookup_obs normalizer) (rgb_keys shape_meta);
  lowdim ← mapM (lookup_obs normalizer) (lowdim_keys shape_meta);
  action ← lookup_action normalizer;
  Ok (rgb, lowdim, action).

End image_normalizer.
Arguments entry N : clear implicits.
End ImageNormalizer.

(** * Properties *)

Import NdArray Actions Normalizers Sampler Dataset Convert Examples.

(** ** Fallible computations *)

Lemma bind_Ok {B C} (x : B) (f : B → result C) : Ok x ≫= f = f x.
Proof. done. Qed.

Lemma bind_Err {B C} (e : exn) (f : B → result C) : Err e ≫= f = Err e.
Proof. done. Qed.

Lemma bind_Ok_inv {B C} (m : result B) (f : B → result C) (y : C) :
  m ≫= f = Ok y → ∃ x, m = Ok x ∧ f x = Ok y.
Proof. destruct m as [x|e]; [|done]. intros H. by exists x. Qed.

Lemma bind_raises {B C} (m : result B) (f : B → result C) :
  raises m → raises (m ≫= f).
Proof. by destruct m. Qed.

Lemma getitem_singleton {V} (k : string) (v : V) : getitem {[ k := v ]} k = Ok v.
Proof. unfold getitem. by rewrite lookup_singleton_eq. Qed.

(** ** Arrays and their rows *)

Section ndarray_facts.
Context {A : Type}.
Implicit Types (a : ndarray A) (l : list A) (rs : list (list A)).

Lemma size_of_snoc (s : list nat) (w : nat) : size_of (s ++ [w]) = size_of s * w.
Proof. induction s as [|d s IH]; simpl; [lia|]. rewrite IH. lia. Qed.

Lemma leading_snoc a (s : list nat) w : shape a = s ++ [w] → leading a = s.
Proof.
  intros E. unfold leading. rewrite E, length_app. simpl.
  replace (length s + 1 - 1) with (length s) by lia. by rewrite take_app_length.
Qed.

Lemma last_shape_snoc a (s : list nat) w : shape a = s ++ [w] → last (shape a) = Some w.
Proof. intros ->. apply last_snoc. Qed.


Lemma length_concat_uniform w rs :
  Forall (fun r => length r = w) rs → length (concat rs) = length rs * w.
Proof.
  induction 1 as [|r rs Hr _ IH]; simpl; [done|]. rewrite length_app, IH, Hr. lia.
Qed.

Lemma length_rows_of n w l : length (rows_of n w l) = n.
Proof. unfold rows_of. by rewrite length_fmap, length_seq. Qed.

Lemma rows_of_cons n w r l :
  length r = w → rows_of (S n) w (r ++ l) = r :: rows_of n w l.
Proof.
  intros Hr. unfold rows_of. simpl. f_equal.
  - unfold row. simpl. rewrite drop_0. by rewrite take_app_length'.
  - rewrite <- fmap_S_seq, <- list_fmap_compose. apply list_fmap_ext.
    intros _ i _. unfold row. simpl.
    by rewrite <- drop_drop, drop_app_length'.
Qed.

Lemma rows_of_concat w rs :
  Forall (fun r => length r = w) rs → rows_of (length rs) w (concat rs) = rs.
Proof.
  induction 1 as [|r rs Hr _ IH]; simpl; [done|].
  by rewrite rows_of_cons, IH.
Qed.


Lemma rows_of_width n w l :
  length l = n * w → Forall (fun r => length r = w) (rows_of n w l).
Proof.
  revert l. induction n as [|n IH]; intros l Hl; [constructor|].
  rewrite <- (take_drop w l). rewrite rows_of_cons by (rewrite length_take; lia).
  constructor; [rewrite length_take; lia|]. apply IH. rewrite length_drop. lia.
Qed.

Lemma rows_width a s w :
  shape a = s ++ [w] → wf a → Forall (fun r => length r = w) (rows a).
Proof.
  intros E Hwf. unfold rows. rewrite (leading_snoc _ _ _ E), (last_shape_snoc _ _ _ E). simpl.
  apply rows_of_width. unfold wf in Hwf. by rewrite Hwf, E, size_of_snoc.
Qed.

Lemma length_rows a : length (rows a) = size_of (leading a).
Proof. apply length_rows_of. Qed.


Lemma shape_apply_last (f : list A → list A) w' a :
  shape (apply_last f w' a) = leading a ++ [w'].
Proof. done. Qed.

Lemma rows_apply_last (f : list A → list A) w' a :
  Forall (fun r => length (f r) = w') (rows a) →
  rows (apply_last f w' a) = f <$> rows a.
Proof.
  intros Hf. unfold rows at 1.
  rewrite (leading_snoc _ _ _ (shape_apply_last f w' a)).
  rewrite (last_shape_snoc _ _ _ (shape_apply_last f w' a)). simpl.
  rewrite <- length_rows, <- (length_fmap f). apply rows_of_concat.
  by apply Forall_fmap.
Qed.

Lemma wf_apply_last (f : list A → list A) w' a :
  Forall (fun r => length (f r) = w') (rows a) → wf (apply_last f w' a).
Proof.
  intros Hf. unfold wf. simpl. rewrite size_of_snoc, <- length_rows.
  rewrite (length_concat_uniform w'), length_fmap; [done|]. by apply Forall_fmap.
Qed.

Lemma apply_last_compose (f g : list A → list A) w1 w2 a :
  Forall (fun r => length (f r) = w1) (rows a) →
  apply_last g w2 (apply_last f w1 a) = apply_last (g ∘ f) w2 a.
Proof.
  intros Hf. unfold apply_last at 1 3. f_equal.
  - by rewrite (leading_snoc _ _ _ (shape_apply_last f w1 a)).
  - by rewrite rows_apply_last, <- list_fmap_compose.
Qed.

Lemma concatenate_last3_apply (f g h : list A → list A) wf' wg wh a :
  Forall (fun r => length (f r) = wf') (rows a) →
  Forall (fun r => length (g r) = wg) (rows a) →
  Forall (fun r => length (h r) = wh) (rows a) →
  concatenate_last3 (apply_last f wf' a) (apply_last g wg a) (apply_last h wh a)
  = Ok (apply_last (fun r => (f r ++ g r) ++ h r) (wf' + wg + wh) a).
Proof.
  intros Hf Hg Hh. unfold concatenate_last3.
  rewrite !(leading_snoc _ _ _ (shape_apply_last _ _ a)).
  rewrite !(last_shape_snoc _ _ _ (shape_apply_last _ _ a)). simpl.
  rewrite decide_True.
  2:{ repeat split; try done; by destruct (leading a). }
  unfold apply_last at 4. do 3 f_equal.
  rewrite !rows_apply_last by done.
  generalize (rows a). intros rs. induction rs as [|r rs IH]; csimpl; [done|]. by rewrite IH.
Qed.
End ndarray_facts.

(** ** The conversion of actions, row by row *)

Section action_facts.
Context {A : Type} (close : A → A → Prop) (rt : RotationTransformer A).
Hypothesis close_refl : ∀ x, close x x.
Hypothesis rt_ok : rotation_6d_ok close rt.







End action_facts.

(** ** The conversion of actions on arrays *)

Section action_arrays.
Context {A : Type} (close : A → A → Prop) (rt : RotationTransformer A).
Hypothesis close_refl : ∀ x, close x x.
Hypothesis rt_ok : rotation_6d_ok close rt.

Lemma last_dim_snoc (a : ndarray A) s w : shape a = s ++ [w] → last_dim a = Ok w.
Proof. intros E. unfold last_dim. by rewrite (last_shape_snoc _ _ _ E). Qed.

Lemma index_last_m1_snoc (a : ndarray A) s w :
  shape a = s ++ [S w] → index_last_m1 a = Ok (apply_last (drop w) 1 a).
Proof. intros E. unfold index_last_m1. by rewrite (last_shape_snoc _ _ _ E). Qed.

Lemma reshape_infer_ok (tl : list nat) (a : ndarray A) n :
  size_of tl ≠ 0 → size_of (shape a) = n * size_of tl →
  reshape_infer tl a = Ok {| shape := n :: tl; data := data a |}.
Proof.
  intros Hp Hn. unfold reshape_infer. cbv zeta. rewrite Hn.
  rewrite decide_True by (split; [done|by apply Nat.Div0.mod_mul]).
  by rewrite Nat.div_mul.
Qed.

Lemma reshape_ok (s : list nat) (a : ndarray A) :
  size_of s = size_of (shape a) → reshape s a = Ok {| shape := s; data := data a |}.
Proof. intros Hs. unfold reshape. by rewrite decide_True. Qed.





End action_arrays.

Lemma rt_demo_ok : rotation_6d_ok eq rt_demo.
Proof.
  split; simpl; [done|..].
  - intros r Hr. rewrite length_app. lia.
  - intros x Hx. rewrite length_take. lia.
  - intros r Hr. rewrite take_app_length' by done. by apply Forall_Forall2_diag, Forall_true.
Qed.



(** ** Item access of the low-dimensional dataset *)

Lemma normalizer_obs self :
  getitem (normalizer self) "obs" = Ok (NormDict {[ "state" := state_normalizer self ]}).
Proof. done. Qed.

Lemma normalizer_action self : getitem (normalizer self) "action" = Err (KeyError "action").
Proof. done. Qed.

Lemma getitem_KeyError_action self idx sample :
  sample_sequence (sampler self) idx = Ok sample → is_Some (sample !! "obs") →
  __getitem__ self idx = Err (KeyError "action").
Proof.
  intros Hs [obs Hobs]. unfold __getitem__. rewrite Hs.
  rewrite bind_Ok, normalizer_obs, bind_Ok. unfold as_dict.
  rewrite bind_Ok, getitem_singleton, bind_Ok.
  assert (Hg : getitem sample "obs" = Ok obs) by (unfold getitem; by rewrite Hobs).
  rewrite Hg, bind_Ok. cbv zeta. by rewrite normalizer_action, bind_Err.
Qed.

Lemma sample_to_data_raises self sample : raises (sample_to_data self sample).
Proof.
  unfold sample_to_data. destruct (getitem sample "obs"); [|done].
  rewrite bind_Ok, normalizer_obs, bind_Ok. unfold as_dict.
  rewrite bind_Ok, getitem_singleton, bind_Ok. cbv zeta.
  destruct (getitem sample "action"); [|done].
  by rewrite bind_Ok, normalizer_action, bind_Err.
Qed.

(** C1: for a valid index, [__getitem__] should return the normalized
    observation and action.  It never does: [get_normalizer] files the
    action normalizer under ["act"], [__getitem__] looks it up under
    ["action"], and the lookup raises [KeyError].  On the example dataset,
    which has 6 windows, index 0 raises [KeyError("action")]. *)
Theorem getitem_raises_KeyError :
  (∀ self idx, raises (__getitem__ self idx))
  ∧ (∃ self, demo_dataset = Ok self ∧ __len__ self = 6
             ∧ __getitem__ self 0 = Err (KeyError "action")).
Proof.
  split.
  - intros self idx. unfold __getitem__.
    destruct (sample_sequence (sampler self) idx) as [sample|e]; [|done].
    rewrite bind_Ok, normalizer_obs, bind_Ok. unfold as_dict.
    rewrite bind_Ok, getitem_singleton, bind_Ok.
    destruct (getitem sample "obs"); [|done].
    rewrite bind_Ok. cbv zeta. by rewrite normalizer_action, bind_Err.
  - eexists. split; [reflexivity|]. split; vm_compute; reflexivity.
Qed.

(** ** The normalizer *)

Section normalizer_facts.
Local Open Scope Q_scope.

Lemma qdiv_Some (a b : Q) : ¬ b == 0 → qdiv a b = Some (a / b).
Proof.
  intros Hb. unfold qdiv. destruct (Qeq_bool b 0) eqn:E; [|done].
  by apply Qeq_bool_iff in E.
Qed.

Lemma normalize1_constant (lo hi mn mx x : Q) :
  mx == mn → normalize1 lo hi mn mx x = Some (midpoint lo hi).
Proof. intros E. unfold normalize1. apply Qeq_bool_iff in E. by rewrite E. Qed.

Lemma normalize1_affine (lo hi mn mx x : Q) :
  ¬ mx == mn →
  normalize1 lo hi mn mx x = Some ((x - mn) / (mx - mn) * (hi - lo) + lo).
Proof.
  intros E. unfold normalize1. destruct (Qeq_bool mx mn) eqn:Eb.
  - by apply Qeq_bool_iff in Eb.
  - rewrite qdiv_Some; [done|]. intros H. apply E. lra.
Qed.

Lemma unnormalize1_affine (lo hi mn mx y : Q) :
  ¬ hi == lo →
  unnormalize1 lo hi mn mx y = Some ((y - lo) / (hi - lo) * (mx - mn) + mn).
Proof. intros E. unfold unnormalize1. rewrite qdiv_Some; [done|]. intros H. apply E. lra. Qed.
End normalizer_facts.

(** C9: for [x] within [[mn, mx]], [unnormalize1] undoes [normalize1], in
    exact rational arithmetic; where [mx == mn], [normalize1] is the
    midpoint of the output range and divides by nothing; and outside
    [[mn, mx]] the value is extrapolated beyond the output range, not
    clipped, and still recovered. *)
Theorem unnormalize_normalize (lo hi mn mx : Q) :
  (∀ x, (lo < hi)%Q → (mn <= x)%Q → (x <= mx)%Q →
     ∃ y x', normalize1 lo hi mn mx x = Some y ∧ unnormalize1 lo hi mn mx y = Some x'
             ∧ (x' == x)%Q)
  ∧ (∀ x, (mx == mn)%Q → normalize1 lo hi mn mx x = Some (midpoint lo hi))
  ∧ (∀ x, (lo < hi)%Q → (mn < mx)%Q →
     ∃ y x', normalize1 lo hi mn mx x = Some y ∧ unnormalize1 lo hi mn mx y = Some x'
             ∧ (x' == x)%Q
             ∧ ((x < mn)%Q → (y < lo)%Q) ∧ ((mx < x)%Q → (hi < y)%Q)).
Proof.
  split; [|split].
  - intros x Hrange Hlo Hhi.
    assert (Hne : ¬ (hi == lo)%Q) by (intros H; lra).
    destruct (Qeq_dec mx mn) as [E|E].
    + eexists _, _. split; [by apply normalize1_constant|].
      split; [by apply unnormalize1_affine|].
      assert (x == mn)%Q as -> by lra. rewrite E. field. intros H. apply Hne. lra.
    + eexists _, _. split; [by apply normalize1_affine|].
      split; [by apply unnormalize1_affine|].
      field. split; intros H; [apply E|apply Hne]; lra.
  - intros x. apply normalize1_constant.
  - intros x Hrange Hlt.
    assert (Hne : ¬ (hi == lo)%Q) by (intros H; lra).
    assert (E : ¬ (mx == mn)%Q) by (intros H; lra).
    eexists _, _. split; [by apply normalize1_affine|].
    split; [by apply unnormalize1_affine|]. split.
    { field. split; intros H; [apply E|apply Hne]; lra. }
    assert (Hd : (0 < mx - mn)%Q) by lra.
    assert (Hs : (0 < hi - lo)%Q) by lra.
    split; intros Hx.
    + assert (((x - mn) / (mx - mn)) * (hi - lo) < 0)%Q; [|lra].
      assert (Heq : (((x - mn) / (mx - mn)) * (hi - lo)
                     == - ((mn - x) * ((hi - lo) / (mx - mn))))%Q) by (field; lra).
      rewrite Heq.
      assert (0 < (mn - x) * ((hi - lo) / (mx - mn)))%Q; [|lra].
      apply Qmult_lt_0_compat; [lra|]. apply Qlt_shift_div_l; lra.
    + assert (hi - lo < ((x - mn) / (mx - mn)) * (hi - lo))%Q; [|lra].
      assert (Heq : (((x - mn) / (mx - mn)) * (hi - lo)
                     == (hi - lo) + (x - mx) * ((hi - lo) / (mx - mn)))%Q) by (field; lra).
      rewrite Heq.
      assert (0 < (x - mx) * ((hi - lo) / (mx - mn)))%Q; [|lra].
      apply Qmult_lt_0_compat; [lra|]. apply Qlt_shift_div_l; lra.
Qed.

Lemma unnormalize_normalize_witness :
  (∃ y x', normalize1 (-1) 1 0 2 (1 # 2) = Some y ∧ unnormalize1 (-1) 1 0 2 y = Some x'
           ∧ (x' == 1 # 2)%Q)
  ∧ normalize1 (-1) 1 3 3 3 = Some (midpoint (-1) 1)
  ∧ (∃ y x', normalize1 (-1) 1 0 2 5 = Some y ∧ unnormalize1 (-1) 1 0 2 y = Some x'
             ∧ (x' == 5)%Q ∧ (1 < y)%Q).
Proof.
  split; [|split].
  - apply (proj1 (unnormalize_normalize (-1) 1 0 2) (1 # 2)%Q); reflexivity || discriminate.
  - apply (proj1 (proj2 (unnormalize_normalize (-1) 1 3 3)) 3%Q); reflexivity.
  - destruct (proj2 (proj2 (unnormalize_normalize (-1) 1 0 2)) 5%Q eq_refl eq_refl)
      as (y & x' & Hn & Hu & Hx & _ & Hhi).
    exists y, x'. repeat split; [done..|]. by apply Hhi.
Defined.

(** ** The sampler *)

Section sampler_facts.
Context {R : Type}.
Implicit Types (s : SequenceSampler R) (w : window) (b : nat * nat) (column : list R).

Lemma length_concat_imap {X Y} (f : nat → X → list Y) (l : list X) :
  length (concat (imap f l)) = sum_list (imap (fun i x => length (f i x)) l).
Proof.
  revert f. induction l as [|x l IH]; intros f; [done|].
  simpl. by rewrite length_app, IH.
Qed.

Lemma length_episode_windows s i b :
  length (episode_windows s i b) = num_windows s (b.2 - b.1).
Proof. unfold episode_windows. by rewrite length_fmap, length_seq. Qed.

Lemma len_sum s :
  len s = sum_list ((fun b => num_windows s (b.2 - b.1))
                      <$> episode_bounds (rb_episode_ends (replay_buffer s))).
Proof.
  unfold len, indices. rewrite length_concat_imap, <- imap_const. f_equal.
  apply imap_ext. intros i b _. apply length_episode_windows.
Qed.
End sampler_facts.

(** C7: [len] is the sum over the episodes of
    [max(0, n + pad_before + pad_after - sequence_length + 1)], [n] being
    the length of the episode; two episodes of lengths 5 and 3 with
    sequence length 4 and one step of padding on either side have 6
    windows. *)
Theorem len_closed_form :
  (∀ (R : Type) (s : SequenceSampler R),
     len s = sum_list
       ((fun b => Z.to_nat (Z.max 0 (Z.of_nat (b.2 - b.1) + Z.of_nat (pad_before s)
                                     + Z.of_nat (pad_after s)
                                     - Z.of_nat (sequence_length s) + 1)))
          <$> episode_bounds (rb_episode_ends (replay_buffer s))))
  ∧ (∀ (R : Type) (columns : gmap string (list R)),
       episode_bounds [5; 8] = [(0, 5); (5, 8)]
       ∧ len {| replay_buffer := {| rb_data := columns; rb_episode_ends := [5; 8] |};
                sequence_length := 4; pad_before := 1; pad_after := 1 |} = 6).
Proof. split; [|done]. intros R s. apply len_sum. Qed.

Section sampler_windows.
Context {R : Type}.
Implicit Types (s : SequenceSampler R) (w : window) (b : nat * nat) (column : list R).




End sampler_windows.

Section sampler_table.
Context {R : Type}.
Implicit Types (s : SequenceSampler R) (w : window) (b : nat * nat).





End sampler_table.



(** ** The conversion: low-dimensional fields *)

Section convert_lowdim.
Context {A : Type} (astype_float32 : A → A).
Implicit Types (demos : list (demo A)) (key : string).

Lemma foldM_Ok_elem {S X} (f : S → X → result S) (l : list X) (x : X) (s s' : S) :
  foldM f s l = Ok s' → x ∈ l → ∃ s1 s2, f s1 x = Ok s2.
Proof.
  revert s. induction l as [|y l IH]; intros s Hf Hin; [by apply elem_of_nil in Hin|].
  simpl in Hf. apply bind_Ok_inv in Hf as (s1 & Hy & Hrest).
  apply elem_of_cons in Hin as [->|Hin]; [by exists s, s1|]. by eapply IH.
Qed.

Lemma foldM_raises {S X} (f : S → X → result S) (l : list X) (x : X) (s : S) :
  x ∈ l → (∀ s1, raises (f s1 x)) → raises (foldM f s l).
Proof.
  intros Hin Hx. destruct (foldM f s l) as [s'|e] eqn:Hf; [|done].
  destruct (foldM_Ok_elem f l x s s' Hf Hin) as (s1 & s2 & H12).
  specialize (Hx s1). by rewrite H12 in Hx.
Qed.

Lemma mapM_result_Forall2 {X Y} (f : X → result Y) (l : list X) (ys : list Y) :
  mapM f l = Ok ys → Forall2 (fun x y => f x = Ok y) l ys.
Proof.
  revert ys. induction l as [|x l IH]; intros ys H.
  - injection H as <-. constructor.
  - simpl in H. apply bind_Ok_inv in H as (y & Hy & H).
    apply bind_Ok_inv in H as (ys' & Hys & H). injection H as <-.
    constructor; [done|]. by apply IH.
Qed.

Lemma concatenate0_data (arrays : list (ndarray A)) (r : ndarray A) :
  concatenate0 arrays = Ok r →
  data r = concat (data <$> arrays)
  ∧ shape r = sum_list ((fun b => default 0 (head (shape b))) <$> arrays) :: drop 1 (shape r).
Proof.
  unfold concatenate0. destruct arrays as [|a rest]; [done|].
  destruct (shape a) as [|n tl] eqn:Ha; [done|].
  destruct (forallb _ rest); [|done]. intros [= <-]. simpl. by rewrite Ha.
Qed.

Lemma concat_lowdim_order key demos (raw : ndarray A) :
  concat_lowdim astype_float32 key demos = Ok raw →
  ∃ arrays, Forall2 (fun d a => read_lowdim astype_float32 key d = Ok a) demos arrays
            ∧ data raw = concat (data <$> arrays)
            ∧ head (shape raw) = Some (sum_list ((fun b => default 0 (head (shape b))) <$> arrays)).
Proof.
  unfold concat_lowdim. intros H. apply bind_Ok_inv in H as (arrays & Hm & Hc).
  exists arrays. split; [by apply mapM_result_Forall2|].
  destruct (concatenate0_data _ _ Hc) as [Hd Hs]. split; [done|]. by rewrite Hs.
Qed.

Lemma checked_lowdim_inv sm demos abs_action rt n_steps key (d : ndarray A) :
  checked_lowdim astype_float32 sm demos abs_action rt n_steps key = Ok d →
  ∃ declared, converted_lowdim astype_float32 demos abs_action rt key = Ok d
              ∧ declared_shape sm key = Ok declared ∧ shape d = n_steps :: declared.
Proof.
  unfold checked_lowdim. intros H. apply bind_Ok_inv in H as (d' & Hc & H).
  apply bind_Ok_inv in H as (declared & Hd & H).
  destruct (decide (shape d' = n_steps :: declared)) as [Hs|]; [|done].
  injection H as <-. by exists declared.
Qed.

Lemma checked_lowdim_mismatch sm demos abs_action rt n_steps key (d : ndarray A) declared :
  converted_lowdim astype_float32 demos abs_action rt key = Ok d →
  declared_shape sm key = Ok declared → shape d ≠ n_steps :: declared →
  checked_lowdim astype_float32 sm demos abs_action rt n_steps key = Err AssertionError.
Proof.
  intros Hc Hd Hs. unfold checked_lowdim. rewrite Hc, bind_Ok, Hd, bind_Ok.
  by rewrite decide_False.
Qed.

Lemma save_lowdim_stored sm demos abs_action rt n_steps (g : gmap string (zarr_array A)) key :
  save_lowdim astype_float32 sm demos abs_action rt n_steps = Ok g →
  key ∈ lowdim_keys sm ++ ["action"] →
  ∃ d, checked_lowdim astype_float32 sm demos abs_action rt n_steps key = Ok d.
Proof.
  intros Hs Hin. unfold save_lowdim in Hs.
  destruct (foldM_Ok_elem _ _ key _ _ Hs Hin) as (g1 & g2 & Hk).
  unfold save_lowdim_key in Hk. apply bind_Ok_inv in Hk as (d & Hd & _). by exists d.
Qed.

Context (codec_ok : ndarray A → bool) (cpu_count : Z).
Context (first_completed : nat → list future → list future * list future).

Lemma convert_Ok_inv sm demos abs_action rt n_workers max_inflight_tasks (rb : replay_root A) :
  _convert_robomimic_to_replay astype_float32 codec_ok cpu_count first_completed
    sm demos abs_action rt n_workers max_inflight_tasks = Ok rb →
  ∃ episode_ends n_steps g,
    count_steps 0 demos = Ok episode_ends ∧ last episode_ends = Some n_steps
    ∧ save_lowdim astype_float32 sm demos abs_action rt n_steps = Ok g
    ∧ root_episode_ends rb = episode_ends
    ∧ is_ok (load_images codec_ok first_completed sm demos (workers cpu_count n_workers)
               (inflight_bound cpu_count n_workers max_inflight_tasks) n_steps
               (starts_of episode_ends) (init_pool g)).1.
Proof.
  unfold _convert_robomimic_to_replay. cbv zeta. intros H.
  apply bind_Ok_inv in H as (ends & Hends & H).
  apply bind_Ok_inv in H as (n_steps & Hn & H).
  apply bind_Ok_inv in H as (g & Hg & H).
  apply bind_Ok_inv in H as (u & Hu & H). injection H as <-.
  exists ends, n_steps, g. split; [done|]. split; [destruct (last ends); simpl in Hn; congruence|].
  split; [done|]. split; [done|]. by rewrite Hu.
Qed.
End convert_lowdim.

(** C5: for every low-dimensional key and for ["action"], the array of
    the key is the concatenation of the per-episode arrays in episode
    order; when the conversion returns, the shape of the array (after the
    conversion of actions) is [n_steps] followed by the declared shape;
    and when that shape differs, the conversion raises and returns no
    store. *)
Theorem lowdim_shape_asserted {A : Type} (astype_float32 : A → A) (codec_ok : ndarray A → bool)
    (cpu_count : Z) (first_completed : nat → list future → list future * list future)
    (sm : shape_meta_t) (demos : list (demo A)) (abs_action : bool) (rt : RotationTransformer A)
    (n_workers max_inflight_tasks : option Z) (key : string) :
  key ∈ lowdim_keys sm ++ ["action"] →
  (∀ raw, concat_lowdim astype_float32 key demos = Ok raw →
     ∃ arrays, Forall2 (fun d a => read_lowdim astype_float32 key d = Ok a) demos arrays
               ∧ data raw = concat (data <$> arrays)
               ∧ head (shape raw)
                 = Some (sum_list ((fun b => default 0 (head (shape b))) <$> arrays)))
  ∧ (∀ rb, _convert_robomimic_to_replay astype_float32 codec_ok cpu_count first_completed
             sm demos abs_action rt n_workers max_inflight_tasks = Ok rb →
       ∃ n_steps d declared,
         last (root_episode_ends rb) = Some n_steps
         ∧ converted_lowdim astype_float32 demos abs_action rt key = Ok d
         ∧ declared_shape sm key = Ok declared
         ∧ shape d = n_steps :: declared)
  ∧ (∀ episode_ends n_steps d declared,
       count_steps 0 demos = Ok episode_ends → last episode_ends = Some n_steps →
       converted_lowdim astype_float32 demos abs_action rt key = Ok d →
       declared_shape sm key = Ok declared →
       shape d ≠ n_steps :: declared →
       raises (_convert_robomimic_to_replay astype_float32 codec_ok cpu_count first_completed
                 sm demos abs_action rt n_workers max_inflight_tasks)).
Proof.
  intros Hkey. split; [|split].
  - intros raw. apply concat_lowdim_order.
  - intros rb Hrb.
    apply convert_Ok_inv in Hrb as (ends & n_steps & g & Hends & Hlast & Hg & Hroot & _).
    destruct (save_lowdim_stored _ _ _ _ _ _ _ key Hg Hkey) as (d & Hd).
    apply checked_lowdim_inv in Hd as (declared & Hc & Hdecl & Hshape).
    exists n_steps, d, declared. by rewrite Hroot.
  - intros ends n_steps d declared Hends Hlast Hc Hdecl Hshape.
    unfold _convert_robomimic_to_replay. cbv zeta.
    rewrite Hends, bind_Ok, Hlast. cbn [of_option]. rewrite bind_Ok.
    apply bind_raises. unfold save_lowdim. apply (foldM_raises _ _ key); [done|].
    intros g. unfold save_lowdim_key.
    by rewrite (checked_lowdim_mismatch _ _ _ _ _ _ _ _ _ Hc Hdecl Hshape).
Qed.

Lemma lowdim_shape_asserted_witness :
  (∃ n_steps d declared,
      last [2; 5] = Some n_steps
      ∧ converted_lowdim id [make_demo 2 2; make_demo 3 3] false rt_demo "pos" = Ok d
      ∧ declared_shape demo_meta "pos" = Ok declared
      ∧ shape d = n_steps :: declared)
  ∧ raises (convert_demo bad_meta [make_demo 2 2; make_demo 3 3] None None).
Proof.
  split.
  - assert (Hkey : "pos" ∈ lowdim_keys demo_meta ++ ["action"]).
    { vm_compute. apply list_elem_of_here. }
    destruct (lowdim_shape_asserted id (fun _ => true) 4 oldest_first demo_meta
                [make_demo 2 2; make_demo 3 3] false rt_demo None None "pos" Hkey)
      as (_ & Hok & _).
    assert (Hrun : ∃ rb, convert_demo demo_meta [make_demo 2 2; make_demo 3 3] None None
                         = Ok rb ∧ root_episode_ends rb = [2; 5]).
    { vm_compute. eexists. split; reflexivity. }
    destruct Hrun as (rb & Hrb & Hroot).
    destruct (Hok rb Hrb) as (n & d & decl & H1 & H2 & H3 & H4).
    exists n, d, decl. split; [by rewrite <- Hroot|]. exact (conj H2 (conj H3 H4)).
  - assert (Hkey : "pos" ∈ lowdim_keys bad_meta ++ ["action"]).
    { vm_compute. apply list_elem_of_here. }
    destruct (lowdim_shape_asserted id (fun _ => true) 4 oldest_first bad_meta
                [make_demo 2 2; make_demo 3 3] false rt_demo None None "pos" Hkey)
      as (_ & _ & Hbad).
    apply (Hbad [2; 5] 5 {| shape := [5; 3]; data := replicate 15 2%Z |} [4]);
      [reflexivity..|]. intros [=].
Defined.

(** C10: on a container without episodes the list of episode ends is
    empty and the conversion raises [IndexError]. *)
Theorem convert_no_episodes {A : Type} (astype_float32 : A → A) (codec_ok : ndarray A → bool)
    (cpu_count : Z) (first_completed : nat → list future → list future * list future)
    (sm : shape_meta_t) (abs_action : bool) (rt : RotationTransformer A)
    (n_workers max_inflight_tasks : option Z) :
  count_steps (A := A) 0 [] = Ok []
  ∧ _convert_robomimic_to_replay astype_float32 codec_ok cpu_count first_completed
      sm [] abs_action rt n_workers max_inflight_tasks = Err IndexError.
Proof. done. Qed.

(** ** The conversion: the image phase *)

Section image_phase.
Context {A : Type} (codec_ok : ndarray A → bool).
Context (first_completed : nat → list future → list future * list future).
Hypothesis Hwait : wait_ok first_completed.

Lemma keeps_ret {X} (I : pool A → Prop) (x : X) : keeps I (ret x).
Proof. by intros st. Qed.

Lemma keeps_raise {X} (I : pool A → Prop) e : keeps I (raise (X := X) e).
Proof. by intros st. Qed.

Lemma keeps_lift {X} (I : pool A → Prop) (r : result X) : keeps I (lift r).
Proof. by intros st. Qed.

Lemma keeps_bind {X Y} (I : pool A → Prop) (m : @M A X) (f : X → @M A Y) :
  keeps I m → (∀ x, keeps I (f x)) → keeps I (bind m f).
Proof.
  intros Hm Hf st Hst. unfold bind. specialize (Hm st Hst).
  destruct (m st) as [[x|e] st']; [by apply Hf|done].
Qed.

Lemma keeps_forM {X} (I : pool A → Prop) (f : X → @M A unit) (l : list X) :
  (∀ x, keeps I (f x)) → keeps I (forM_ f l).
Proof.
  intros Hf. induction l as [|x l IH]; [apply keeps_ret|].
  simpl. apply keeps_bind; [done|]. by intros _.
Qed.

Lemma keeps_drain (I : pool A → Prop) completed : keeps I (drain completed).
Proof. unfold drain. destruct (forallb _ _); [apply keeps_ret|apply keeps_raise]. Qed.

Lemma length_first_completed k fs :
  length (first_completed k fs).1 + length (first_completed k fs).2 = length fs
  ∧ (fs ≠ [] → 1 ≤ length (first_completed k fs).1).
Proof.
  destruct (Hwait k fs) as [Hp Hne]. split.
  - by rewrite <- length_app, Hp.
  - intros Hfs. specialize (Hne Hfs). destruct (first_completed k fs).1; [done|simpl; lia].
Qed.

Lemma keeps_require_dataset bound name shp chunks :
  keeps (A := A) (within bound) (require_dataset name shp chunks).
Proof.
  intros st Hst. unfold require_dataset.
  destruct (data_group st !! name) as [z|]; [|done]. by destruct (decide _).
Qed.

Lemma keeps_copy_step (max_inflight_tasks : Z) key episode_starts episode_idx hdf5_arr hdf5_idx :
  keeps (within (Z.max max_inflight_tasks 1))
    (copy_step codec_ok first_completed max_inflight_tasks key episode_starts episode_idx
       hdf5_arr hdf5_idx).
Proof.
  intros st [Hlog Hlen]. unfold copy_step, bind at 1, throttle.
  destruct (decide (max_inflight_tasks ≤ Z.of_nat (length (futures st)))%Z) as [Hfull|Hroom].
  - unfold bind at 1, wait_first.
    destruct (length_first_completed (n_waits st) (futures st)) as [Hsum Hone].
    set (done_ := (first_completed (n_waits st) (futures st)).1) in *.
    set (rest := (first_completed (n_waits st) (futures st)).2) in *.
    assert (Hrest : (Z.of_nat (length rest) + 1 ≤ Z.max max_inflight_tasks 1)%Z).
    { destruct (futures st) as [|f fs] eqn:Hfs.
      - simpl in Hsum. lia.
      - specialize (Hone ltac:(done)). simpl in *. lia. }
    unfold drain. destruct (forallb f_result done_); [|split; simpl; [done|lia]].
    unfold ret, bind, lift. destruct (episode_starts !! episode_idx) as [start|];
      [|split; simpl; [done|lia]].
    simpl. split; simpl.
    + apply Forall_app. split; [done|]. apply Forall_singleton.
      rewrite length_app. simpl. lia.
    + rewrite length_app. simpl. lia.
  - unfold ret, bind, lift. destruct (episode_starts !! episode_idx) as [start|]; [|done].
    simpl. split; simpl.
    + apply Forall_app. split; [done|]. apply Forall_singleton.
      rewrite length_app. simpl. lia.
    + rewrite length_app. simpl. lia.
Qed.

Lemma keeps_copy_episode (max_inflight_tasks : Z) key episode_starts p :
  keeps (within (Z.max max_inflight_tasks 1))
    (copy_episode codec_ok first_completed max_inflight_tasks key episode_starts p).
Proof.
  unfold copy_episode. apply keeps_bind; [apply keeps_lift|]. intros hdf5_arr.
  apply keeps_bind; [apply keeps_lift|]. intros n.
  apply keeps_forM. intros j. apply keeps_copy_step.
Qed.

Lemma keeps_copy_key sm demos (max_inflight_tasks : Z) n_steps episode_starts key :
  keeps (within (Z.max max_inflight_tasks 1))
    (copy_key codec_ok first_completed sm demos max_inflight_tasks n_steps episode_starts key).
Proof.
  unfold copy_key. apply keeps_bind; [apply keeps_lift|]. intros a.
  apply keeps_bind; [apply keeps_lift|]. intros [[c h] w].
  apply keeps_bind; [apply keeps_require_dataset|]. intros _.
  apply keeps_forM. intros p. apply keeps_copy_episode.
Qed.

Lemma keeps_wait_all bound : keeps (A := A) (within bound) wait_all.
Proof. intros st [Hlog Hlen]. split; simpl; [done|]. lia. Qed.

Lemma keeps_load_images sm demos n_workers (max_inflight_tasks : Z) n_steps episode_starts :
  keeps (within (Z.max max_inflight_tasks 1))
    (load_images codec_ok first_completed sm demos n_workers max_inflight_tasks n_steps
       episode_starts).
Proof.
  unfold load_images. apply keeps_bind.
  { destruct (decide _); [apply keeps_raise|apply keeps_ret]. }
  intros _. apply keeps_bind.
  { apply keeps_forM. intros key. apply keeps_copy_key. }
  intros _. apply keeps_bind; [apply keeps_wait_all|intros completed; apply keeps_drain].
Qed.

Lemma within_init bound (g : gmap string (zarr_array A)) :
  (0 ≤ bound)%Z → within bound (init_pool g).
Proof. intros Hb. split; simpl; [constructor|done]. Qed.

Lemma load_images_workers sm demos n_workers (max_inflight_tasks : Z) n_steps episode_starts
    (g : gmap string (zarr_array A)) :
  (n_workers ≤ 0)%Z →
  load_images codec_ok first_completed sm demos n_workers max_inflight_tasks n_steps
    episode_starts (init_pool g) = (Err ValueError, init_pool g).
Proof. intros Hn. unfold load_images, bind. by rewrite decide_True. Qed.
End image_phase.

Lemma oldest_first_ok : wait_ok oldest_first.
Proof.
  intros k fs. unfold oldest_first. simpl. split; [by rewrite take_drop|].
  by destruct fs.
Qed.

(** C6, as amended: the bound on the tasks in flight is 5 times the
    worker count unless it is given; the number of tasks in flight after
    any submission is at most the larger of the bound and 1, hence at most
    the bound when the bound is at least 1, and at most the default bound
    for every worker count. *)
Theorem inflight_bounded {A : Type} (codec_ok : ndarray A → bool) (cpu_count : Z)
    (first_completed : nat → list future → list future * list future)
    (sm : shape_meta_t) (demos : list (demo A)) (n_workers max_inflight_tasks : option Z)
    (n_steps : nat) (episode_starts : list nat) (g : gmap string (zarr_array A)) :
  wait_ok first_completed →
  let bound := inflight_bound cpu_count n_workers max_inflight_tasks in
  let final := (load_images codec_ok first_completed sm demos (workers cpu_count n_workers)
                  bound n_steps episode_starts (init_pool g)).2 in
  (max_inflight_tasks = None → bound = (workers cpu_count n_workers * 5)%Z)
  ∧ Forall (fun k => (Z.of_nat k ≤ Z.max bound 1)%Z) (inflight_log final)
  ∧ ((1 ≤ bound)%Z → Forall (fun k => (Z.of_nat k ≤ bound)%Z) (inflight_log final))
  ∧ (max_inflight_tasks = None →
     Forall (fun k => (Z.of_nat k ≤ bound)%Z) (inflight_log final)).
Proof.
  intros Hwait bound final.
  assert (Hmax : Forall (fun k => (Z.of_nat k ≤ Z.max bound 1)%Z) (inflight_log final)).
  { apply (keeps_load_images codec_ok first_completed Hwait). apply within_init. lia. }
  split; [by intros ->|]. split; [done|]. split.
  - intros Hb. by replace (Z.max bound 1) with bound in Hmax by lia.
  - intros Hnone. destruct (decide (workers cpu_count n_workers ≤ 0)%Z) as [Hw|Hw].
    + unfold final. rewrite load_images_workers by done. constructor.
    + assert (1 ≤ bound)%Z by (unfold bound; rewrite Hnone; simpl; lia).
      by replace (Z.max bound 1) with bound in Hmax by lia.
Qed.

Lemma inflight_bounded_witness :
  Forall (fun k => (Z.of_nat k ≤ 2)%Z)
    (inflight_log (load_images (fun _ => true) oldest_first demo_meta
                     [make_demo 2 2; make_demo 3 3] 1 2 5 [0; 2] (init_pool ∅)).2).
Proof.
  apply (proj1 (proj2 (proj2 (inflight_bounded (fun _ => true) 4 oldest_first demo_meta
                  [make_demo 2 2; make_demo 3 3] (Some 1%Z) (Some 2%Z) 5 [0; 2] ∅
                  oldest_first_ok)))).
  simpl. lia.
Defined.

(** C6, counterexample: with [max_inflight_tasks = 0] every submission
    leaves one task in flight, which is more than the bound. *)
Lemma inflight_exceeds_zero_bound :
  wait_ok oldest_first
  ∧ inflight_bound 4 (Some 1%Z) (Some 0%Z) = 0%Z
  ∧ inflight_log (load_images (fun _ => true) oldest_first demo_meta
                    [make_demo 2 2; make_demo 3 3] 1 0 5 [0; 2] (init_pool ∅)).2
    = [1; 1; 1; 1; 1].
Proof. split; [apply oldest_first_ok|]. split; reflexivity. Qed.

Section failing_tasks.
Context {A : Type} (codec_ok : ndarray A → bool).
Context (first_completed : nat → list future → list future * list future).
Hypothesis Hwait : wait_ok first_completed.

Lemma stays_bad_ret {X} (x : X) : stays_bad (A := A) (ret x).
Proof. by intros st. Qed.

Lemma stays_bad_raise {X} e : stays_bad (A := A) (raise (X := X) e).
Proof. by intros st. Qed.

Lemma stays_bad_lift {X} (r : result X) : stays_bad (A := A) (lift r).
Proof. by intros st. Qed.

Lemma stays_bad_bind {X Y} (m : @M A X) (f : X → @M A Y) :
  stays_bad m → (∀ x, stays_bad (A := A) (f x)) → stays_bad (A := A) (bind m f).
Proof.
  intros Hm Hf st Hst. unfold bind. specialize (Hm st Hst).
  destruct (m st) as [[x|e] st']; [|done]. intros Hok. apply Hf; [by apply Hm|done].
Qed.

Lemma stays_bad_forM {X} (f : X → @M A unit) (l : list X) :
  (∀ x, stays_bad (A := A) (f x)) → stays_bad (A := A) (forM_ f l).
Proof.
  intros Hf. induction l as [|x l IH]; [apply stays_bad_ret|].
  simpl. apply stays_bad_bind; [done|]. by intros _.
Qed.

Lemma stays_bad_wait_drain : stays_bad (A := A) (bind (wait_first first_completed) drain).
Proof.
  intros st (f & Hin & Hf). unfold bind, wait_first, drain. simpl.
  destruct (forallb f_result (first_completed (n_waits st) (futures st)).1) eqn:Hall;
    [|done].
  intros _. exists f. split; [|done]. simpl.
  destruct (Hwait (n_waits st) (futures st)) as [Hp _].
  rewrite <- Hp in Hin. apply elem_of_app in Hin as [Hin|Hin]; [|done].
  rewrite forallb_forall in Hall. apply list_elem_of_In in Hin.
  specialize (Hall f Hin). congruence.
Qed.

Lemma stays_bad_submit key zarr_idx hdf5_arr hdf5_idx :
  stays_bad (A := A) (submit codec_ok key zarr_idx hdf5_arr hdf5_idx).
Proof.
  intros st (f & Hin & Hf) _. exists f. split; [|done]. simpl.
  apply elem_of_app. by left.
Qed.

Lemma stays_bad_require_dataset name shp chunks :
  stays_bad (A := A) (require_dataset (A := A) name shp chunks).
Proof.
  intros st Hst. unfold require_dataset.
  destruct (data_group st !! name) as [z|]; [|done]. by destruct (decide _).
Qed.

Lemma stays_bad_copy_step max_inflight_tasks key episode_starts episode_idx hdf5_arr hdf5_idx :
  stays_bad (A := A) (copy_step codec_ok first_completed max_inflight_tasks key episode_starts
               episode_idx hdf5_arr hdf5_idx).
Proof.
  unfold copy_step. apply stays_bad_bind.
  - intros st Hst. unfold throttle. destruct (decide _); [by apply stays_bad_wait_drain|done].
  - intros _. apply stays_bad_bind; [apply stays_bad_lift|]. intros start.
    apply stays_bad_submit.
Qed.

Lemma stays_bad_copy_episode max_inflight_tasks key episode_starts p :
  stays_bad (A := A) (copy_episode codec_ok first_completed max_inflight_tasks key episode_starts p).
Proof.
  unfold copy_episode. apply stays_bad_bind; [apply stays_bad_lift|]. intros hdf5_arr.
  apply stays_bad_bind; [apply stays_bad_lift|]. intros n.
  apply stays_bad_forM. intros j. apply stays_bad_copy_step.
Qed.

Lemma stays_bad_copy_key sm demos max_inflight_tasks n_steps episode_starts key :
  stays_bad (A := A) (copy_key codec_ok first_completed sm demos max_inflight_tasks n_steps
               episode_starts key).
Proof.
  unfold copy_key. apply stays_bad_bind; [apply stays_bad_lift|]. intros a.
  apply stays_bad_bind; [apply stays_bad_lift|]. intros [[c h] w].
  apply stays_bad_bind; [apply stays_bad_require_dataset|]. intros _.
  apply stays_bad_forM. intros p. apply stays_bad_copy_episode.
Qed.

(** One iteration that puts a failed task in flight makes the whole
    loop leave a failed task in flight. *)
Lemma forM_makes_bad {X} (I : pool A → Prop) (f : X → @M A unit) (l : list X) (x : X) :
  x ∈ l → (∀ y, keeps I (f y)) → (∀ y, stays_bad (A := A) (f y)) →
  (∀ st, I st → is_ok (f x st).1 → bad (f x st).2) →
  ∀ st, I st → is_ok (forM_ f l st).1 → bad (forM_ f l st).2.
Proof.
  intros Hin HI Hstay Hx. induction l as [|y l IH]; [by apply elem_of_nil in Hin|].
  intros st Hst. simpl. unfold bind.
  destruct (f y st) as [[[]|e] st1] eqn:Hy; [|done].
  apply elem_of_cons in Hin as [->|Hin].
  - intros Hok. apply stays_bad_forM; [done| |done].
    specialize (Hx st Hst). rewrite Hy in Hx. by apply Hx.
  - apply IH; [done|]. specialize (HI y st Hst). by rewrite Hy in HI.
Qed.
End failing_tasks.

Section failing_copy.
Context {A : Type} (codec_ok : ndarray A → bool).
Context (first_completed : nat → list future → list future * list future).
Hypothesis Hwait : wait_ok first_completed.

Lemma bind_Ok_eq {X Y} (m : @M A X) (f : X → @M A Y) st x st' :
  m st = (Ok x, st') → bind m f st = f x st'.
Proof. intros H. unfold bind. by rewrite H. Qed.

Lemma bind_Err_eq {X Y} (m : @M A X) (f : X → @M A Y) st e st' :
  m st = (Err e, st') → bind m f st = (Err e, st').
Proof. intros H. unfold bind. by rewrite H. Qed.

Lemma zarr_setitem_shape (z z' : zarr_array A) idx v :
  zarr_setitem codec_ok z idx v = Ok z' → z_shape z' = z_shape z.
Proof.
  unfold zarr_setitem. repeat (destruct (decide _); [|done]).
  destruct (codec_ok v); [|done]. by intros [= <-].
Qed.

Lemma zarr_setitem_ok_shape (z1 z2 : zarr_array A) idx v :
  z_shape z1 = z_shape z2 →
  is_ok (zarr_setitem codec_ok z1 idx v) → is_ok (zarr_setitem codec_ok z2 idx v).
Proof.
  intros Hs. unfold zarr_setitem. rewrite Hs.
  repeat (destruct (decide _); [|done]). by destruct (codec_ok v).
Qed.

Lemma img_copy_has_image g key' idx arr j key shp (z : zarr_array A) :
  g !! key = Some z → z_shape z = shp →
  ∃ z', (img_copy codec_ok g key' idx arr j).2 !! key = Some z' ∧ z_shape z' = shp.
Proof.
  intros Hg Hz. unfold img_copy.
  destruct (g !! key') as [z0|] eqn:Hk'; simpl; [|by exists z].
  destruct (zarr_setitem codec_ok z0 idx (frame_at arr j)) as [z1|e] eqn:Hset; simpl;
    [|by exists z].
  destruct (decide (key' = key)) as [->|Hne].
  - rewrite lookup_insert_eq. exists z1. split; [done|].
    rewrite (zarr_setitem_shape _ _ _ _ Hset). congruence.
  - rewrite lookup_insert_ne by done. by exists z.
Qed.

Lemma keeps_has_image_throttle key shp max_inflight_tasks :
  keeps (A := A) (has_image key shp) (throttle first_completed max_inflight_tasks).
Proof.
  intros st Hst. unfold throttle. destruct (decide _); [|done].
  unfold bind, wait_first, drain. simpl. by destruct (forallb _ _).
Qed.

Lemma keeps_has_image_copy_step key shp max_inflight_tasks key' episode_starts episode_idx
    hdf5_arr hdf5_idx :
  keeps (A := A) (has_image key shp)
    (copy_step codec_ok first_completed max_inflight_tasks key' episode_starts episode_idx
       hdf5_arr hdf5_idx).
Proof.
  unfold copy_step. apply keeps_bind.
  - apply keeps_has_image_throttle.
  - intros _. apply keeps_bind; [apply keeps_lift|]. intros start.
    intros st (z & Hz & Hs). unfold submit, has_image. simpl.
    by eapply img_copy_has_image.
Qed.

Lemma keeps_has_image_copy_episode key shp max_inflight_tasks key' episode_starts p :
  keeps (A := A) (has_image key shp)
    (copy_episode codec_ok first_completed max_inflight_tasks key' episode_starts p).
Proof.
  unfold copy_episode. apply keeps_bind; [apply keeps_lift|]. intros hdf5_arr.
  apply keeps_bind; [apply keeps_lift|]. intros n.
  apply keeps_forM. intros j. apply keeps_has_image_copy_step.
Qed.

Lemma copy_step_fails max_inflight_tasks key episode_starts episode_idx hdf5_arr hdf5_idx
    n_steps c h w start st :
  has_image key [n_steps; h; w; c] st →
  episode_starts !! episode_idx = Some start →
  copy_ok codec_ok n_steps (c, h, w) (start + hdf5_idx) hdf5_arr hdf5_idx = false →
  is_ok (copy_step codec_ok first_completed max_inflight_tasks key episode_starts episode_idx
           hdf5_arr hdf5_idx st).1 →
  bad (copy_step codec_ok first_completed max_inflight_tasks key episode_starts episode_idx
         hdf5_arr hdf5_idx st).2.
Proof.
  intros Himg Hstart Hfail. unfold copy_step.
  pose proof (keeps_has_image_throttle key _ max_inflight_tasks st Himg) as Himg1.
  destruct (throttle first_completed max_inflight_tasks st) as [[[]|e] st1] eqn:Ht;
    [|by rewrite (bind_Err_eq _ _ _ _ _ Ht)].
  rewrite (bind_Ok_eq _ _ _ _ _ Ht). simpl in Himg1.
  rewrite Hstart. rewrite (bind_Ok_eq _ _ st1 start st1) by done.
  intros _. unfold submit. simpl.
  eexists. split; [apply elem_of_app; right; apply list_elem_of_here|]. simpl.
  destruct Himg1 as (z & Hz & Hs). unfold img_copy. rewrite Hz. simpl.
  destruct (zarr_setitem codec_ok z (start + hdf5_idx) (frame_at hdf5_arr hdf5_idx))
    as [z'|e] eqn:Hset; [|done].
  exfalso. unfold copy_ok in Hfail. apply bool_decide_eq_false in Hfail. apply Hfail.
  apply (zarr_setitem_ok_shape z); [by rewrite Hs|]. by rewrite Hset.
Qed.

Lemma elem_of_enumerate {X} (l : list X) (i : nat) (x : X) :
  l !! i = Some x → (i, x) ∈ enumerate l.
Proof.
  intros Hi. unfold enumerate. apply list_elem_of_lookup. exists i.
  by rewrite list_lookup_imap, Hi.
Qed.

Lemma copy_key_fails sm demos max_inflight_tasks n_steps episode_starts key a c h w
    e d hdf5_arr j start st :
  obs_attr sm key = Ok a → unpack3 (attr_shape a) = Ok (c, h, w) →
  demos !! e = Some d → demo_obs d !! key = Some hdf5_arr →
  j < default 0 (head (shape hdf5_arr)) →
  episode_starts !! e = Some start →
  copy_ok codec_ok n_steps (c, h, w) (start + j) hdf5_arr j = false →
  is_ok (copy_key codec_ok first_completed sm demos max_inflight_tasks n_steps
           episode_starts key st).1 →
  bad (copy_key codec_ok first_completed sm demos max_inflight_tasks n_steps
         episode_starts key st).2.
Proof.
  intros Ha Hchw Hd Harr Hj Hstart Hfail. unfold copy_key. rewrite Ha.
  rewrite (bind_Ok_eq _ _ st a st) by done. rewrite Hchw.
  rewrite (bind_Ok_eq _ _ st (c, h, w) st) by done.
  destruct (require_dataset key [n_steps; h; w; c] [1; h; w; c] st) as [[[]|err] st1] eqn:Hreq;
    [|by rewrite (bind_Err_eq _ _ _ _ _ Hreq)].
  rewrite (bind_Ok_eq _ _ _ _ _ Hreq).
  assert (Himg : has_image key [n_steps; h; w; c] st1).
  { unfold require_dataset in Hreq. destruct (data_group st !! key) as [z|] eqn:Hz.
    - destruct (decide (z_shape z = [n_steps; h; w; c])); [|done].
      injection Hreq as <-. by exists z.
    - injection Hreq as <-. eexists. split; [apply lookup_insert_eq|done]. }
  apply (forM_makes_bad (has_image key [n_steps; h; w; c])
           _ _ (e, d)); [by apply elem_of_enumerate| | | |done].
  - intros p. apply keeps_has_image_copy_episode.
  - intros p. by apply stays_bad_copy_episode.
  - intros st2 Hst2. unfold copy_episode, getitem. simpl. rewrite Harr. simpl.
    rewrite (bind_Ok_eq _ _ st2 hdf5_arr st2) by done. unfold shape0.
    destruct (head (shape hdf5_arr)) as [n|] eqn:Hn; [|done]. simpl in Hj. simpl.
    rewrite (bind_Ok_eq _ _ st2 n st2) by done.
    apply (forM_makes_bad (has_image key [n_steps; h; w; c])
             _ _ j); [|intros; apply keeps_has_image_copy_step
                      |intros; by apply stays_bad_copy_step| |done].
    + apply elem_of_seq. lia.
    + intros st3 Hst3. by apply (copy_step_fails _ _ _ _ _ _ n_steps c h w start).
Qed.

Lemma load_images_fails sm demos n_workers max_inflight_tasks n_steps episode_starts key a
    c h w e d hdf5_arr j start st :
  key ∈ rgb_keys sm →
  obs_attr sm key = Ok a → unpack3 (attr_shape a) = Ok (c, h, w) →
  demos !! e = Some d → demo_obs d !! key = Some hdf5_arr →
  j < default 0 (head (shape hdf5_arr)) →
  episode_starts !! e = Some start →
  copy_ok codec_ok n_steps (c, h, w) (start + j) hdf5_arr j = false →
  raises (load_images codec_ok first_completed sm demos n_workers max_inflight_tasks
            n_steps episode_starts st).1.
Proof.
  intros Hkey Ha Hchw Hd Harr Hj Hstart Hfail. unfold load_images.
  destruct (decide (n_workers ≤ 0)%Z); [done|].
  rewrite (bind_Ok_eq _ _ st tt st) by done.
  pose proof (forM_makes_bad (fun _ => True)
                (copy_key codec_ok first_completed sm demos max_inflight_tasks n_steps
                   episode_starts) (rgb_keys sm) key Hkey) as Hbad.
  specialize (Hbad ltac:(by intros ? ? ?)).
  specialize (Hbad ltac:(intros; by apply stays_bad_copy_key)).
  specialize (Hbad ltac:(intros st' _; by eapply copy_key_fails)).
  specialize (Hbad st I).
  destruct (forM_ _ (rgb_keys sm) st) as [[[]|err] st1] eqn:Hloop;
    [|by rewrite (bind_Err_eq _ _ _ _ _ Hloop)].
  rewrite (bind_Ok_eq _ _ _ _ _ Hloop).
  destruct (Hbad I) as (f & Hin & Hf). simpl in Hin.
  unfold bind, wait_all, drain. simpl.
  destruct (forallb f_result (futures st1)) eqn:Hall; [|done].
  rewrite forallb_forall in Hall. apply list_elem_of_In in Hin.
  specialize (Hall f Hin). congruence.
Qed.
End failing_copy.

(** C3: if the copy of any frame of any episode of any image field
    fails, the conversion raises and returns no store, whatever the order
    in which the pool completes the tasks and whatever the bound on the
    tasks in flight. *)
Theorem failing_task_aborts {A : Type} (astype_float32 : A → A) (codec_ok : ndarray A → bool)
    (cpu_count : Z) (first_completed : nat → list future → list future * list future)
    (sm : shape_meta_t) (demos : list (demo A)) (abs_action : bool) (rt : RotationTransformer A)
    (n_workers max_inflight_tasks : option Z)
    (key : string) (a : attr) (chw : nat * nat * nat) (e : nat) (d : demo A)
    (hdf5_arr : ndarray A) (j : nat) (episode_ends : list nat) (n_steps start : nat) :
  wait_ok first_completed →
  count_steps 0 demos = Ok episode_ends → last episode_ends = Some n_steps →
  key ∈ rgb_keys sm → obs_attr sm key = Ok a → unpack3 (attr_shape a) = Ok chw →
  demos !! e = Some d → demo_obs d !! key = Some hdf5_arr →
  j < default 0 (head (shape hdf5_arr)) →
  starts_of episode_ends !! e = Some start →
  copy_ok codec_ok n_steps chw (start + j) hdf5_arr j = false →
  raises (_convert_robomimic_to_replay astype_float32 codec_ok cpu_count first_completed
            sm demos abs_action rt n_workers max_inflight_tasks).
Proof.
  intros Hwait Hends Hlast Hkey Ha Hchw Hd Harr Hj Hstart Hfail.
  unfold _convert_robomimic_to_replay. cbv zeta.
  rewrite Hends, bind_Ok, Hlast. cbn [of_option]. rewrite bind_Ok.
  destruct (save_lowdim astype_float32 sm demos abs_action rt n_steps) as [g|err]; [|done].
  rewrite bind_Ok. destruct chw as [[c h] w].
  pose proof (load_images_fails codec_ok first_completed Hwait sm demos
                (workers cpu_count n_workers)
                (inflight_bound cpu_count n_workers max_inflight_tasks) n_steps
                (starts_of episode_ends) key a c h w e d hdf5_arr j start (init_pool g)
                Hkey Ha Hchw Hd Harr Hj Hstart Hfail) as Hraise.
  by destruct (load_images _ _ _ _ _ _ _ _ _).1.
Qed.

Lemma failing_task_aborts_witness :
  raises (_convert_robomimic_to_replay id picky_codec 4 oldest_first demo_meta
            [make_demo 2 2; flawed_demo] false rt_demo None (Some 2%Z)).
Proof.
  apply (failing_task_aborts id picky_codec 4 oldest_first demo_meta
           [make_demo 2 2; flawed_demo] false rt_demo None (Some 2%Z)
           "cam" {| attr_shape := [1; 1; 1]; attr_type := Some "rgb" |} (1, 1, 1)
           1 flawed_demo {| shape := [3; 1; 1; 1]; data := [7; 9; 7]%Z |} 1 [2; 5] 5 2).
  - apply oldest_first_ok.
  - reflexivity.
  - reflexivity.
  - vm_compute. apply list_elem_of_here.
  - reflexivity.
  - reflexivity.
  - reflexivity.
  - reflexivity.
  - simpl. lia.
  - reflexivity.
  - reflexivity.
Defined.

Section prefix_sums.
Implicit Types (lens : list nat).

Lemma sum_take_S lens e n :
  lens !! e = Some n → sum_list (take (S e) lens) = sum_list (take e lens) + n.
Proof.
  intros He. rewrite (take_S_r _ _ _ He), sum_list_with_app. simpl. lia.
Qed.


Lemma sum_take_total lens e : sum_list (take e lens) ≤ sum_list lens.
Proof.
  rewrite <- (take_drop e lens) at 2. rewrite sum_list_with_app. lia.
Qed.

End prefix_sums.

Section offsets.
Context {A : Type}.
Implicit Types (demos : list (demo A)) (lens ends : list nat).

Lemma count_steps_sums prev demos ends :
  count_steps prev demos = Ok ends →
  ∃ lens, Forall2 (fun d n => head (shape (demo_actions d)) = Some n) demos lens
          ∧ ends = (fun e => prev + sum_list (take (S e) lens)) <$> seq 0 (length lens).
Proof.
  revert prev ends. induction demos as [|d demos IH]; intros prev ends H.
  - injection H as <-. exists []. split; [constructor|done].
  - simpl in H. apply bind_Ok_inv in H as (n & Hn & H).
    apply bind_Ok_inv in H as (rest & Hrest & H). injection H as <-.
    destruct (IH _ _ Hrest) as (lens & Hall & ->).
    exists (n :: lens). split.
    + constructor; [|done]. unfold shape0 in Hn.
      destruct (head (shape (demo_actions d))); simpl in Hn; congruence.
    + simpl length. rewrite <- cons_seq, fmap_cons. f_equal.
      * simpl. lia.
      * rewrite <- fmap_S_seq, <- list_fmap_compose. apply list_fmap_ext.
        intros _ e _. simpl. lia.
Qed.

Lemma starts_of_sums lens e :
  e < length lens →
  starts_of ((fun e => sum_list (take (S e) lens)) <$> seq 0 (length lens)) !! e
  = Some (sum_list (take e lens)).
Proof.
  intros He. unfold starts_of. rewrite length_fmap, length_seq.
  destruct e as [|e]; [done|]. simpl.
  rewrite lookup_take_lt by lia. rewrite list_lookup_fmap, lookup_seq_lt by lia. done.
Qed.

End offsets.

Section destinations.
Context {A : Type}.
Implicit Types (demos : list (demo A)) (lens ends : list nat).


End destinations.




(** * Further properties of the code *)

Import MoreExamples Stores ImageDataset Accepts Episode ImageNormalizer.

(** The example file is converted. *)
Lemma convert_demo_runs :
  ∃ rb, convert_demo demo_meta [make_demo 2 2; make_demo 3 3] None None = Ok rb.
Proof. vm_compute. eexists. reflexivity. Defined.

(** ** Actions of any width *)

Section actions_any_width.
Context {A : Type} (rt : RotationTransformer A).

Lemma convert_core_width (a : ndarray A) (s : list nat) (w : nat) :
  shape a = s ++ [w] → wf a → 6 ≤ w →
  (∀ r, length r = 3 → length (forward_row rt r) = to_dim rt) →
  concatenate_last3 (slice_last 0 3 a) (forward rt (slice_last 3 6 a)) (slice_last_from 6 a)
  = Ok (apply_last (convert_row rt) (3 + to_dim rt + (w - 6)) a).
Proof.
  intros E Hwf Hw Hfwd. pose proof (rows_width a s w E Hwf) as Hrows.
  unfold forward, slice_last, slice_last_from. rewrite (last_shape_snoc _ _ _ E).
  change (default 0 (Some w)) with w. rewrite (Nat.min_l 3 w), (Nat.min_l 6 w) by lia.
  rewrite apply_last_compose.
  2:{ eapply Forall_impl; [exact Hrows|]. intros r Hr. cbn beta in *.
      rewrite length_take, length_drop. lia. }
  apply (concatenate_last3_apply (fun r => take (3 - 0) (drop 0 r))
           (forward_row rt ∘ (fun r => take (6 - 3) (drop 3 r))) (drop 6)).
  - eapply Forall_impl; [exact Hrows|]. intros r Hr. cbn beta in *.
    rewrite length_take, length_drop. lia.
  - eapply Forall_impl; [exact Hrows|]. intros r Hr. cbn in *.
    apply Hfwd. rewrite length_take, length_drop. lia.
  - eapply Forall_impl; [exact Hrows|]. intros r Hr. cbn beta in *. rewrite length_drop. lia.
Qed.

Lemma length_convert_row_width (r : list A) (w : nat) :
  length r = w → 6 ≤ w →
  (∀ r, length r = 3 → length (forward_row rt r) = to_dim rt) →
  length (convert_row rt r) = 3 + to_dim rt + (w - 6).
Proof.
  intros Hr Hw Hfwd. unfold convert_row. rewrite !length_app, length_take, length_drop.
  rewrite Hfwd; [lia|]. rewrite length_take, length_drop. lia.
Qed.

Lemma undo_core_width (c : ndarray A) (s : list nat) (w : nat) :
  shape c = s ++ [S w] → wf c → 3 ≤ w →
  (∀ x, length x = S w - 4 → length (inverse_row rt x) = 3) →
  concatenate_last3 (slice_last 0 3 c) (inverse rt (slice_last 3 (3 + (S w - 4)) c))
    (apply_last (drop w) 1 c)
  = Ok (apply_last (undo_row rt (S w)) 7 c).
Proof.
  intros E Hwf Hw Hinv. pose proof (rows_width c s (S w) E Hwf) as Hrows.
  unfold inverse, slice_last. rewrite (last_shape_snoc _ _ _ E).
  change (default 0 (Some (S w))) with (S w).
  rewrite (Nat.min_l 3 (S w)), (Nat.min_l (3 + (S w - 4)) (S w)) by lia.
  rewrite apply_last_compose.
  2:{ eapply Forall_impl; [exact Hrows|]. intros r Hr. cbn beta in *.
      rewrite length_take, length_drop. lia. }
  replace (S w - 1) with w by lia.
  pose proof (concatenate_last3_apply (fun r => take (3 - 0) (drop 0 r))
           (inverse_row rt ∘ (fun r => take (3 + (S w - 4) - 3) (drop 3 r))) (drop w)
           3 3 1 c) as Hcat.
  unfold undo_row. replace (S w - 1) with w by lia.
  apply Hcat.
  - eapply Forall_impl; [exact Hrows|]. intros r Hr. cbn beta in *.
    rewrite length_take, length_drop. lia.
  - eapply Forall_impl; [exact Hrows|]. intros r Hr. cbn in *.
    apply Hinv. rewrite length_take, length_drop. lia.
  - eapply Forall_impl; [exact Hrows|]. intros r Hr. cbn beta in *. rewrite length_drop. lia.
Qed.
End actions_any_width.

Section cast_rows.
Context {A : Type} (astype_float32 : A → A).

Lemma wf_astype (a : ndarray A) : wf a → wf (astype astype_float32 a).
Proof. unfold wf. simpl. by rewrite length_fmap. Qed.

Lemma rows_astype (a : ndarray A) :
  rows (astype astype_float32 a) = (fun r : list A => astype_float32 <$> r) <$> rows a.
Proof.
  unfold rows, rows_of. cbn [astype shape data]. rewrite <- list_fmap_compose.
  apply list_fmap_ext. intros i k _. unfold row. cbn [compose].
  by rewrite fmap_take, fmap_drop.
Qed.

Lemma reshape_infer_astype (tl : list nat) (a : ndarray A) :
  reshape_infer tl (astype astype_float32 a)
  = c ← reshape_infer tl a; Ok (astype astype_float32 c).
Proof. unfold reshape_infer. cbv zeta. cbn [astype shape data]. by destruct (decide _). Qed.

(** The conversion with the cast is the conversion without it, followed
    by the cast of all elements. *)
Lemma convert_actions_cast (a : ndarray A) (rt : RotationTransformer A) :
  Casts._convert_actions astype_float32 a true rt
  = c ← _convert_actions a true rt; Ok (astype astype_float32 c).
Proof.
  unfold Casts._convert_actions, _convert_actions.
  destruct (last_dim a) as [w|e]; [|done]. rewrite !bind_Ok. cbv zeta.
  destruct (bool_decide (w = 14)).
  - destruct (reshape_infer [2; 7] a) as [a1|e]; [|done]. rewrite !bind_Ok.
    destruct (concatenate_last3 _ _ _) as [c|e]; [|done]. rewrite !bind_Ok.
    apply reshape_infer_astype.
  - unfold mret at 1 3, result_ret. rewrite !bind_Ok.
    destruct (concatenate_last3 _ _ _) as [c|e]; [|done]. by rewrite !bind_Ok.
Qed.

End cast_rows.

(** X1: for absolute actions of any width from 6 on other than 14
    and a transformer whose [forward] returns [to_dim] columns,
    [_convert_actions] keeps the leading axes, returns rows of width
    [3 + to_dim + (w - 6)], and every row is the cast to float32 of the
    row's position, its transformed rotation and its columns from 6
    on *)
Theorem convert_actions_single_arm {A : Type} (astype_float32 : A → A)
    (rt : RotationTransformer A) (a : ndarray A) (s : list nat) (w : nat) :
  shape a = s ++ [w] → wf a → 6 ≤ w → w ≠ 14 →
  (∀ r, length r = 3 → length (forward_row rt r) = to_dim rt) →
  ∃ c, Casts._convert_actions astype_float32 a true rt = Ok c
       ∧ shape c = s ++ [3 + to_dim rt + (w - 6)] ∧ wf c
       ∧ rows c = (fun r : list A => astype_float32 <$> convert_row rt r) <$> rows a.
Proof.
  intros E Hwf Hw H14 Hfwd. pose proof (rows_width a s w E Hwf) as Hrows.
  assert (Hc : Forall (fun r => length (convert_row rt r) = 3 + to_dim rt + (w - 6))
                 (rows a)).
  { eapply Forall_impl; [exact Hrows|]. intros r Hr. cbn beta in *.
    by apply length_convert_row_width. }
  eexists. split.
  { rewrite convert_actions_cast. unfold _convert_actions.
    rewrite (last_dim_snoc _ _ _ E), bind_Ok. cbv zeta.
    rewrite bool_decide_eq_false_2 by done. unfold mret at 1, result_ret.
    rewrite bind_Ok, (convert_core_width rt a s w) by done.
    rewrite bind_Ok. unfold mret, result_ret. by rewrite bind_Ok. }
  split; [by cbn [astype shape]; rewrite shape_apply_last, (leading_snoc _ _ _ E)|].
  split; [by apply wf_astype, wf_apply_last|].
  rewrite rows_astype, rows_apply_last by done. by rewrite <- list_fmap_compose.
Qed.

Lemma convert_actions_single_arm_witness :
  ∃ c, Casts._convert_actions round_even odd_action true rt_quat = Ok c
       ∧ shape c = [1] ++ [3 + 4 + (7 - 6)] ∧ wf c
       ∧ rows c = (fun r => round_even <$> convert_row rt_quat r) <$> rows odd_action.
Proof.
  apply (convert_actions_single_arm round_even rt_quat odd_action [1] 7);
    [reflexivity|reflexivity|lia|lia|].
  intros r Hr. simpl. rewrite length_app. simpl. lia.
Defined.

(** X2: on actions of width 14 [_convert_actions] flattens the
    leading axes; with a rotation representation of [to_dim] numbers the
    result has [N * (4 + to_dim) / 10] rows of width 20 for [N] rows of
    the input, and it raises [ValueError] when that number is not
    whole; its data are the arm-by-arm conversion of the view with 7
    columns *)
Theorem convert_actions_dual_arm {A : Type} (rt : RotationTransformer A)
    (a : ndarray A) (s : list nat) :
  shape a = s ++ [14] → wf a →
  (∀ r, length r = 3 → length (forward_row rt r) = to_dim rt) →
  ((size_of s * (4 + to_dim rt)) `mod` 10 = 0 →
     ∃ c, _convert_actions a true rt = Ok c
          ∧ shape c = [(size_of s * (4 + to_dim rt)) `div` 10; 20]
          ∧ _convert_actions {| shape := [size_of s * 2; 7]; data := data a |} true rt
            = Ok {| shape := [size_of s * 2; 3 + to_dim rt + 1]; data := data c |})
  ∧ ((size_of s * (4 + to_dim rt)) `mod` 10 ≠ 0 →
     _convert_actions a true rt = Err ValueError).
Proof.
  intros E Hwf Hfwd.
  set (a1 := {| shape := [size_of s; 2; 7]; data := data a |}).
  assert (E1 : shape a1 = [size_of s; 2] ++ [7]) by done.
  assert (Hwf1 : wf a1).
  { unfold wf in *. simpl. rewrite Hwf, E, size_of_snoc. simpl. lia. }
  set (a2 := {| shape := [size_of s * 2; 7]; data := data a |}).
  assert (E2 : shape a2 = [size_of s * 2] ++ [7]) by done.
  assert (Hwf2 : wf a2).
  { unfold wf in *. simpl. rewrite Hwf, E, size_of_snoc. simpl. lia. }
  assert (Hrun : _convert_actions a true rt
                 = reshape_infer [20] (apply_last (convert_row rt) (3 + to_dim rt + (7 - 6)) a1)).
  { unfold _convert_actions. rewrite (last_dim_snoc _ _ _ E), bind_Ok. cbv zeta.
    rewrite bool_decide_eq_true_2 by done.
    rewrite (reshape_infer_ok [2; 7] a (size_of s)), bind_Ok.
    2: done. 2:{ rewrite E, size_of_snoc. simpl. lia. }
    fold a1. rewrite (convert_core_width rt a1 _ 7 E1 Hwf1) by (lia || done).
    by rewrite bind_Ok. }
  assert (Hsize : size_of (shape (apply_last (convert_row rt) (3 + to_dim rt + (7 - 6)) a1))
                  = 2 * (size_of s * (4 + to_dim rt))).
  { rewrite shape_apply_last, (leading_snoc _ _ _ E1). simpl. lia. }
  assert (Hmod : (2 * (size_of s * (4 + to_dim rt))) `mod` 20
                 = 2 * ((size_of s * (4 + to_dim rt)) `mod` 10)).
  { by rewrite <- (Nat.Div0.mul_mod_distr_l _ 10 2). }
  split.
  - intros Hdiv. eexists. split.
    { rewrite Hrun. unfold reshape_infer. cbv zeta. rewrite Hsize.
      change (size_of [20]) with 20.
      rewrite decide_True; [done|]. split; [done|]. rewrite Hmod, Hdiv. done. }
    split.
    { cbn [shape]. f_equal.
      by apply (Nat.Div0.div_mul_cancel_l (size_of s * (4 + to_dim rt)) 10 2). }
    unfold _convert_actions. rewrite (last_dim_snoc _ _ _ E2), bind_Ok.
    cbv zeta. rewrite bool_decide_eq_false_2 by done.
    unfold mret at 1, result_ret. rewrite bind_Ok. fold a2.
    rewrite (convert_core_width rt a2 _ 7 E2 Hwf2) by (lia || done).
    rewrite bind_Ok. unfold mret, result_ret. f_equal.
    unfold apply_last, rows. rewrite (leading_snoc _ _ _ E1), (leading_snoc _ _ _ E2).
    cbn [shape data last_dim]. 
    replace (size_of [size_of s; 2]) with (size_of [size_of s * 2]) by (simpl; lia).
    f_equal.
  - intros Hdiv. rewrite Hrun. unfold reshape_infer. cbv zeta. rewrite Hsize.
    change (size_of [20]) with 20.
    rewrite decide_False; [done|]. intros [_ H0]. rewrite Hmod in H0. lia.
Qed.

Lemma convert_actions_dual_arm_witness :
  (∃ c, _convert_actions five_dual_arm true rt_quat = Ok c ∧ shape c = [4; 20])
  ∧ _convert_actions dual_arm_demo true rt_quat = Err ValueError.
Proof.
  assert (Hq : ∀ r : list Z, length r = 3 → length (forward_row rt_quat r) = to_dim rt_quat).
  { intros r Hr. simpl. rewrite length_app. simpl. lia. }
  split.
  - destruct (proj1 (convert_actions_dual_arm rt_quat five_dual_arm [5] eq_refl eq_refl Hq)
                eq_refl) as (c & Hc & Hs & _).
    by exists c.
  - apply (proj2 (convert_actions_dual_arm rt_quat dual_arm_demo [1] eq_refl eq_refl Hq)).
    simpl. lia.
Defined.

(** X3: on actions of a width [w] from 4 on other than 20, and
    with a transformer whose [inverse] returns 3 columns for rotations
    of [w - 4] columns, [undo_transform_action] keeps the leading axes
    and returns rows of width 7: the position, the inverse of the
    columns [3 .. w - 2] and the last column *)
Theorem undo_transform_action_single_arm {A : Type} (rt : RotationTransformer A)
    (c : ndarray A) (s : list nat) (w : nat) :
  shape c = s ++ [w] → wf c → 4 ≤ w → w ≠ 20 →
  (∀ x, length x = w - 4 → length (inverse_row rt x) = 3) →
  ∃ u, undo_transform_action rt c = Ok u
       ∧ shape u = s ++ [7] ∧ wf u
       ∧ rows u = undo_row rt w <$> rows c.
Proof.
  intros E Hwf Hw H20 Hinv. destruct w as [|w]; [lia|].
  pose proof (rows_width c s (S w) E Hwf) as Hrows.
  assert (Hu : Forall (fun r => length (undo_row rt (S w) r) = 7) (rows c)).
  { eapply Forall_impl; [exact Hrows|]. intros r Hr. cbn beta in *.
    unfold undo_row. rewrite !length_app, length_take, length_drop, Hinv.
    - lia.
    - rewrite length_take, length_drop. lia. }
  eexists. split.
  { unfold undo_transform_action. cbv zeta.
    rewrite (last_dim_snoc _ _ _ E), bind_Ok.
    rewrite bool_decide_eq_false_2 by done. unfold mret at 1, result_ret.
    rewrite bind_Ok, (last_dim_snoc _ _ _ E), bind_Ok.
    rewrite (index_last_m1_snoc _ _ _ E), bind_Ok.
    rewrite (undo_core_width rt c s w E Hwf) by (lia || done).
    by rewrite bind_Ok. }
  split; [by rewrite shape_apply_last, (leading_snoc _ _ _ E)|].
  split; [by apply wf_apply_last|by apply rows_apply_last].
Qed.

Lemma undo_transform_action_single_arm_witness :
  ∃ u, undo_transform_action rt_quat {| shape := [2; 8]; data := replicate 16 5%Z |} = Ok u
       ∧ shape u = [2] ++ [7] ∧ wf u
       ∧ rows u = undo_row rt_quat 8 <$> rows {| shape := [2; 8]; data := replicate 16 5%Z |}.
Proof.
  apply (undo_transform_action_single_arm rt_quat
           {| shape := [2; 8]; data := replicate 16 5%Z |} [2] 8);
    [reflexivity|reflexivity|lia|lia|].
  intros x Hx. simpl. rewrite length_take. lia.
Defined.

(** X4: on actions of width 20 [undo_transform_action] keeps all
    leading axes, unlike [_convert_actions], and returns rows of width
    14 whose data are the arm-by-arm inverse of the view with 10
    columns *)
Theorem undo_transform_action_dual_arm {A : Type} (rt : RotationTransformer A)
    (c : ndarray A) (s : list nat) :
  shape c = s ++ [20] → wf c →
  (∀ x, length x = 6 → length (inverse_row rt x) = 3) →
  ∃ u, undo_transform_action rt c = Ok u
       ∧ shape u = s ++ [14] ∧ wf u
       ∧ data u = concat (undo_row rt 10 <$> rows_of (size_of s * 2) 10 (data c)).
Proof.
  intros E Hwf Hinv.
  set (c1 := {| shape := [size_of s; 2; 10]; data := data c |}).
  assert (E1 : shape c1 = [size_of s; 2] ++ [10]) by done.
  assert (Hwf1 : wf c1).
  { unfold wf in *. simpl. rewrite Hwf, E, size_of_snoc. simpl. lia. }
  pose proof (rows_width c1 _ 10 E1 Hwf1) as Hrows.
  assert (Hu : Forall (fun r => length (undo_row rt 10 r) = 7) (rows c1)).
  { eapply Forall_impl; [exact Hrows|]. intros r Hr. cbn beta in *.
    unfold undo_row. rewrite !length_app, length_take, length_drop, Hinv.
    - lia.
    - rewrite length_take, length_drop. lia. }
  assert (Hlen : length (shape c) = S (length s)).
  { rewrite E, length_app. simpl. lia. }
  assert (Hrun : undo_transform_action rt c
                 = Ok {| shape := s ++ [14]; data := data (apply_last (undo_row rt 10) 7 c1) |}).
  { unfold undo_transform_action. cbv zeta.
    rewrite (last_dim_snoc c s 20 E), bind_Ok.
    rewrite bool_decide_eq_true_2 by done.
    rewrite (reshape_infer_ok [2; 10] c (size_of s)), bind_Ok.
    2: done. 2:{ rewrite E, size_of_snoc. simpl. lia. }
    fold c1. rewrite (last_dim_snoc _ _ _ E1), bind_Ok.
    rewrite (index_last_m1_snoc _ _ _ E1), bind_Ok.
    rewrite (undo_core_width rt c1 _ 9 E1 Hwf1) by (lia || done).
    rewrite bind_Ok, Hlen. replace (S (length s) - 1) with (length s) by lia.
    rewrite E, take_app_length. rewrite reshape_ok; [done|].
    rewrite shape_apply_last, (leading_snoc _ _ _ E1), size_of_snoc. simpl. lia. }
  eexists. split; [exact Hrun|]. split; [done|]. split.
  - pose proof (wf_apply_last (undo_row rt 10) 7 c1 Hu) as Hw1.
    unfold wf in *. cbn [shape data]. rewrite Hw1, shape_apply_last, (leading_snoc _ _ _ E1).
    rewrite !size_of_snoc. simpl. lia.
  - cbn [data apply_last]. unfold rows. rewrite (leading_snoc _ _ _ E1).
    cbn [shape data last_dim]. by do 3 f_equal.
Qed.

Lemma undo_transform_action_dual_arm_witness :
  ∃ u, undo_transform_action rt_demo {| shape := [3; 2; 20]; data := replicate 120 1%Z |}
       = Ok u
       ∧ shape u = [3; 2] ++ [14] ∧ wf u
       ∧ data u = concat (undo_row rt_demo 10
                            <$> rows_of (size_of [3; 2] * 2) 10 (replicate 120 1%Z)).
Proof.
  apply (undo_transform_action_dual_arm rt_demo
           {| shape := [3; 2; 20]; data := replicate 120 1%Z |} [3; 2]);
    [reflexivity|reflexivity|].
  apply (rot_inverse_width _ _ rt_demo_ok).
Defined.

(** ** The store that the conversion returns *)

Section store_steps.
Context {A : Type} (astype_float32 : A → A).
Implicit Types (g : gmap string (zarr_array A)) (key : string).

(** The low-dimensional phase stores one single-chunk array per key. *)
Lemma save_lowdim_arrays sm demos abs_action rt n_steps g :
  save_lowdim astype_float32 sm demos abs_action rt n_steps = Ok g →
  NoDup (lowdim_keys sm ++ ["action"])
  ∧ (∀ key, is_Some (g !! key) → key ∈ lowdim_keys sm ++ ["action"])
  ∧ ∀ key, key ∈ lowdim_keys sm ++ ["action"] →
      ∃ d, checked_lowdim astype_float32 sm demos abs_action rt n_steps key = Ok d
           ∧ g !! key = Some (lowdim_array d).
Proof.
  unfold save_lowdim. generalize (lowdim_keys sm ++ ["action"]). intros keys.
  assert (Hgen : ∀ g0 g,
    foldM (save_lowdim_key astype_float32 sm demos abs_action rt n_steps) g0 keys = Ok g →
    NoDup keys ∧ (∀ key, key ∈ keys → g0 !! key = None)
    ∧ (∀ key, is_Some (g !! key) → is_Some (g0 !! key) ∨ key ∈ keys)
    ∧ (∀ key z, g0 !! key = Some z → g !! key = Some z)
    ∧ ∀ key, key ∈ keys →
        ∃ d, checked_lowdim astype_float32 sm demos abs_action rt n_steps key = Ok d
             ∧ g !! key = Some (lowdim_array d)).
  { clear g. induction keys as [|k keys IH]; intros g0 g H.
    - injection H as <-. split; [constructor|]. split; [by intros key ?%elem_of_nil|].
      split; [by left|]. split; [done|]. by intros key ?%elem_of_nil.
    - simpl in H. apply bind_Ok_inv in H as (g1 & Hk & H).
      unfold save_lowdim_key in Hk. apply bind_Ok_inv in Hk as (d & Hd & Hk).
      unfold group_array in Hk. destruct (g0 !! k) as [z|] eqn:Hg0; [done|].
      destruct (decide (0 ∈ shape d)) as [H0|H0]; [done|].
      injection Hk as <-.
      destruct (IH _ _ H) as (Hnd & Hfresh & Hdom & Hkeep & Hall).
      assert (Hk : k ∉ keys).
      { intros Hin. specialize (Hfresh k Hin). by rewrite lookup_insert_eq in Hfresh. }
      split; [by constructor|]. split; [|split; [|split]].
      + intros key [->|Hin]%elem_of_cons; [done|].
        specialize (Hfresh key Hin). rewrite lookup_insert_ne in Hfresh; [done|].
        intros ->. done.
      + intros key Hsome. destruct (Hdom key Hsome) as [Hin|Hin].
        * destruct (decide (k = key)) as [->|Hne]; [right; apply list_elem_of_here|].
          left. by rewrite lookup_insert_ne in Hin.
        * right. by apply list_elem_of_further.
      + intros key z Hz. apply Hkeep. rewrite lookup_insert_ne; [done|]. congruence.
      + intros key [->|Hin]%elem_of_cons; [|by apply Hall].
        exists d. split; [done|]. apply Hkeep. by rewrite lookup_insert_eq. }
  intros H. destruct (Hgen ∅ g H) as (Hnd & _ & Hdom & _ & Hall).
  split; [done|]. split; [|done]. intros key Hsome.
  destruct (Hdom key Hsome) as [Hin|Hin]; [|done].
  rewrite lookup_empty in Hin. by destruct Hin.
Qed.

Lemma store_step_keys keys n g g' :
  store_step keys n g g' →
  (∀ k, is_Some (g !! k) → is_Some (g' !! k))
  ∧ (∀ k, is_Some (g' !! k) → is_Some (g !! k) ∨ k ∈ keys).
Proof.
  intros [key h w c g0 Hk Hg|key z idx v g0 Hk Hg Hi Hs]; split; intros k;
    rewrite lookup_insert_is_Some; destruct (decide (key = k)) as [->|Hne].
  - by left.
  - intros H. right. by split.
  - intros _. by right.
  - intros [H|[_ H]]; [done|by left].
  - by left.
  - intros H. right. by split.
  - intros _. by right.
  - intros [H|[_ H]]; [done|by left].
Qed.

Lemma rtc_store_step_keys keys n g g' :
  rtc (store_step keys n) g g' →
  (∀ k, is_Some (g !! k) → is_Some (g' !! k))
  ∧ (∀ k, is_Some (g' !! k) → is_Some (g !! k) ∨ k ∈ keys).
Proof.
  induction 1 as [g|g g1 g2 H1 _ [IH1 IH2]]; [split; [done|by left]|].
  apply store_step_keys in H1 as [H1 H2]. split.
  - intros k Hk. by apply IH1, H1.
  - intros k Hk. destruct (IH2 k Hk) as [H|H]; [by apply H2|by right].
Qed.

Lemma rtc_store_step_other keys n g g' key :
  rtc (store_step keys n) g g' → key ∉ keys → g' !! key = g !! key.
Proof.
  intros H Hk. induction H as [g|g g1 g2 H1 _ IH]; [done|]. rewrite IH.
  destruct H1 as [key' h w c g0 Hk' Hg|key' z idx v g0 Hk' Hg Hi Hs];
    apply lookup_insert_ne; congruence.
Qed.

Lemma rtc_store_step_rows keys n g g' :
  rtc (store_step keys n) g g' →
  map_Forall (fun _ z => head (z_shape z) = Some n) g →
  map_Forall (fun _ z => head (z_shape z) = Some n) g'.
Proof.
  induction 1 as [g|g g1 g2 H1 _ IH]; [done|]. intros Hg. apply IH.
  destruct H1 as [key h w c g0 Hk Hg0|key z idx v g0 Hk Hg0 Hi Hs].
  - by apply map_Forall_insert_2.
  - apply map_Forall_insert_2; [|done]. simpl. by apply (Hg key).
Qed.

End store_steps.

Section store_facts.
Context {A : Type} (astype_float32 : A → A) (codec_ok : ndarray A → bool) (cpu_count : Z).
Context (first_completed : nat → list future → list future * list future).
Implicit Types (g : gmap string (zarr_array A)) (st : pool A) (key : string).

Lemma img_copy_cases g key idx arr j :
  (∃ z, g !! key = Some z ∧ idx < default 0 (head (z_shape z))
        ∧ shape (frame_at arr j) = drop 1 (z_shape z)
        ∧ codec_ok (frame_at arr j) = true
        ∧ img_copy codec_ok g key idx arr j
          = (true, <[key := written z idx (frame_at arr j)]> g))
  ∨ img_copy codec_ok g key idx arr j = (false, g).
Proof.
  unfold img_copy. destruct (g !! key) as [z|] eqn:Hz; simpl; [|by right].
  unfold zarr_setitem.
  destruct (decide (idx < default 0 (head (z_shape z)))) as [Hi|]; [|by right].
  destruct (decide (shape (frame_at arr j) = drop 1 (z_shape z))) as [Hs|]; [|by right].
  destruct (codec_ok (frame_at arr j)) eqn:Hc; [|by right].
  left. by exists z.
Qed.

Lemma evolves_ret {X} keys n (x : X) : evolves (A := A) keys n (ret x).
Proof. by intros st. Qed.

Lemma evolves_raise {X} keys n e : evolves (A := A) keys n (raise (X := X) e).
Proof. by intros st. Qed.

Lemma evolves_lift {X} keys n (r : result X) : evolves (A := A) keys n (lift r).
Proof. by intros st. Qed.

Lemma evolves_bind {X Y} keys n (m : @M A X) (f : X → @M A Y) :
  evolves keys n m → (∀ x, evolves keys n (f x)) → evolves keys n (bind m f).
Proof.
  intros Hm Hf st. unfold bind. specialize (Hm st).
  destruct (m st) as [[x|e] st']; [|done]. etrans; [exact Hm|apply Hf].
Qed.

Lemma evolves_forM {X} keys n (f : X → @M A unit) (l : list X) :
  (∀ x, evolves keys n (f x)) → evolves keys n (forM_ f l).
Proof.
  intros Hf. induction l as [|x l IH]; [apply evolves_ret|].
  simpl. apply evolves_bind; [done|]. by intros _.
Qed.

Lemma evolves_throttle keys n b : evolves (A := A) keys n (throttle first_completed b).
Proof.
  intros st. unfold throttle. destruct (decide _); [|done].
  unfold bind, wait_first, drain. simpl. by destruct (forallb _ _).
Qed.

Lemma evolves_submit keys n key idx arr j :
  key ∈ keys → evolves (A := A) keys n (submit codec_ok key idx arr j).
Proof.
  intros Hk st. unfold submit. simpl.
  destruct (img_copy_cases (data_group st) key idx arr j)
    as [(z & Hz & Hi & Hs & _ & ->)| ->]; simpl; [|done].
  apply rtc_once. by apply step_write.
Qed.

Lemma evolves_copy_step keys n b key starts e arr j :
  key ∈ keys → evolves keys n (copy_step codec_ok first_completed b key starts e arr j).
Proof.
  intros Hk. unfold copy_step. apply evolves_bind; [apply evolves_throttle|]. intros _.
  apply evolves_bind; [apply evolves_lift|]. intros start. by apply evolves_submit.
Qed.

Lemma evolves_copy_episode keys n b key starts p :
  key ∈ keys → evolves keys n (copy_episode codec_ok first_completed b key starts p).
Proof.
  intros Hk. unfold copy_episode. apply evolves_bind; [apply evolves_lift|]. intros arr.
  apply evolves_bind; [apply evolves_lift|]. intros m.
  apply evolves_forM. intros j. by apply evolves_copy_step.
Qed.

Lemma evolves_require_dataset keys n key h w c :
  key ∈ keys → evolves (A := A) keys n (require_dataset key [n; h; w; c] [1; h; w; c]).
Proof.
  intros Hk st. unfold require_dataset.
  destruct (data_group st !! key) as [z|] eqn:Hz; [by destruct (decide _)|].
  simpl. apply rtc_once. by apply (step_create keys n key h w c).
Qed.

Lemma evolves_copy_key keys sm demos b n starts key :
  key ∈ keys → evolves keys n (copy_key codec_ok first_completed sm demos b n starts key).
Proof.
  intros Hk. unfold copy_key. apply evolves_bind; [apply evolves_lift|]. intros a.
  apply evolves_bind; [apply evolves_lift|]. intros [[c h] w].
  apply evolves_bind; [by apply evolves_require_dataset|]. intros _.
  apply evolves_forM. intros p. by apply evolves_copy_episode.
Qed.

Lemma evolves_forM_in {X} keys n (f : X → @M A unit) (l : list X) :
  (∀ x, x ∈ l → evolves keys n (f x)) → evolves keys n (forM_ f l).
Proof.
  induction l as [|x l IH]; intros Hf; [apply evolves_ret|].
  simpl. apply evolves_bind; [apply Hf, list_elem_of_here|]. intros _.
  apply IH. intros y Hy. apply Hf. by apply list_elem_of_further.
Qed.

Lemma evolves_load_images sm demos nw b n starts :
  evolves (rgb_keys sm) n (load_images codec_ok first_completed sm demos nw b n starts).
Proof.
  unfold load_images. apply evolves_bind.
  { destruct (decide _); [apply evolves_raise|apply evolves_ret]. }
  intros _. apply evolves_bind.
  { apply evolves_forM_in. intros key Hk. by apply evolves_copy_key. }
  intros _. intros st. unfold bind, wait_all, drain. simpl. by destruct (forallb _ _).
Qed.

(** The conversion returns the group that the image phase leaves. *)
Lemma convert_Ok_store sm demos abs_action rt n_workers max_inflight_tasks (rb : replay_root A) :
  _convert_robomimic_to_replay astype_float32 codec_ok cpu_count first_completed
    sm demos abs_action rt n_workers max_inflight_tasks = Ok rb →
  ∃ episode_ends n_steps g st,
    count_steps 0 demos = Ok episode_ends ∧ last episode_ends = Some n_steps
    ∧ save_lowdim astype_float32 sm demos abs_action rt n_steps = Ok g
    ∧ load_images codec_ok first_completed sm demos (workers cpu_count n_workers)
        (inflight_bound cpu_count n_workers max_inflight_tasks) n_steps
        (starts_of episode_ends) (init_pool g) = (Ok tt, st)
    ∧ rb = {| root_data := data_group st; root_episode_ends := episode_ends |}.
Proof.
  unfold _convert_robomimic_to_replay. cbv zeta. intros H.
  apply bind_Ok_inv in H as (ends & Hends & H).
  apply bind_Ok_inv in H as (n_steps & Hn & H).
  apply bind_Ok_inv in H as (g & Hg & H).
  apply bind_Ok_inv in H as (u & Hu & H). injection H as <-.
  exists ends, n_steps, g. eexists. split; [done|].
  split; [destruct (last ends); simpl in Hn; congruence|]. split; [done|].
  split; [|done]. destruct (load_images _ _ _ _ _ _ _ _ _) as [r st]. simpl in *.
  destruct u. by rewrite Hu.
Qed.

(** A state computation that returns has run both parts of a [bind]. *)
Lemma bind_is_ok {X Y} (m : @M A X) (f : X → @M A Y) st :
  is_ok (bind m f st).1 → ∃ x st', m st = (Ok x, st') ∧ bind m f st = f x st'.
Proof.
  unfold bind. destruct (m st) as [[x|e] st'] eqn:Hm; [|done]. intros _. by exists x, st'.
Qed.

Lemma keeps_forM_in {X} (I : pool A → Prop) (f : X → @M A unit) (l : list X) :
  (∀ y, y ∈ l → keeps I (f y)) → keeps I (forM_ f l).
Proof.
  induction l as [|y l IH]; intros Hf; [apply keeps_ret|].
  simpl. apply keeps_bind; [apply Hf, list_elem_of_here|]. intros _.
  apply IH. intros z Hz. apply Hf. by apply list_elem_of_further.
Qed.

(** Every iteration of a loop that returns has established its
    property, when the later iterations keep it. *)
Lemma forM_establishes {X} (Q : X → pool A → Prop) (f : X → @M A unit) (l : list X) :
  (∀ x st, x ∈ l → is_ok (f x st).1 → Q x (f x st).2) →
  (∀ x y, x ∈ l → y ∈ l → keeps (Q x) (f y)) →
  ∀ st, is_ok (forM_ f l st).1 → ∀ x, x ∈ l → Q x (forM_ f l st).2.
Proof.
  induction l as [|y l IH]; intros Hest Hkeep st Hok x Hx; [by apply elem_of_nil in Hx|].
  simpl in *. apply bind_is_ok in Hok as Hb. destruct Hb as ([] & st1 & Hy & Hb).
  rewrite Hb in *.
  apply elem_of_cons in Hx as Hx'. destruct Hx' as [->|Hin].
  - apply (keeps_forM_in (Q y)).
    + intros z Hz. apply Hkeep; [done|by apply list_elem_of_further].
    + pose proof (Hest y st (list_elem_of_here _ _)) as Hq.
      rewrite Hy in Hq. by apply Hq.
  - apply IH; [| |done|done].
    + intros z st' Hz. apply Hest. by apply list_elem_of_further.
    + intros z z' Hz Hz'. apply Hkeep; by apply list_elem_of_further.
Qed.

Lemma copy_key_creates sm demos b n starts key st :
  is_ok (copy_key codec_ok first_completed sm demos b n starts key st).1 →
  is_Some (data_group (copy_key codec_ok first_completed sm demos b n starts key st).2
           !! key).
Proof.
  unfold copy_key. intros Hok.
  apply bind_is_ok in Hok as Hb. destruct Hb as (a & st1 & Ha & Hb). rewrite Hb in *.
  clear Hb. injection Ha as _ <-.
  apply bind_is_ok in Hok as Hb. destruct Hb as ([[c h] w] & st1 & Hc & Hb).
  rewrite Hb in *. clear Hb. injection Hc as _ <-.
  apply bind_is_ok in Hok as Hb. destruct Hb as ([] & st1 & Hr & Hb).
  rewrite Hb in *. clear Hb.
  assert (H1 : is_Some (data_group st1 !! key)).
  { unfold require_dataset in Hr. destruct (data_group st !! key) as [z|] eqn:Hz.
    - destruct (decide _); [|done]. injection Hr as <-. by rewrite Hz.
    - injection Hr as <-. simpl. by rewrite lookup_insert_eq. }
  pose proof (evolves_forM [key] n
                (copy_episode codec_ok first_completed b key starts) (enumerate demos)
                (fun p => evolves_copy_episode [key] n b key starts p
                            (list_elem_of_here _ _)) st1) as Hev.
  apply rtc_store_step_keys in Hev as [Hev _]. by apply Hev.
Qed.

End store_facts.

Lemma episode_lengths {A} (demos : list (demo A)) lens :
  Forall2 (fun d n => head (shape (demo_actions d)) = Some n) demos lens →
  lens = episode_length <$> demos.
Proof.
  induction 1 as [|d m demos lens Hd _ IH]; [done|].
  rewrite fmap_cons, <- IH. f_equal. unfold episode_length. by rewrite Hd.
Qed.

(** The episode ends are the running sums of the episode lengths. *)
Lemma count_steps_lengths {A} (demos : list (demo A)) ends :
  count_steps 0 demos = Ok ends →
  Forall (fun d => shape (demo_actions d) ≠ []) demos
  ∧ ends = (fun e => sum_list (episode_length <$> take (S e) demos))
             <$> seq 0 (length demos).
Proof.
  intros Hends. destruct (count_steps_sums _ _ _ Hends) as (lens & Hlens & ->).
  pose proof (episode_lengths _ _ Hlens) as Hl. split.
  - clear Hends Hl. induction Hlens as [|d m demos lens Hd _ IH]; constructor; [|done].
    intros Hs. by rewrite Hs in Hd.
  - rewrite Hl, length_fmap. apply list_fmap_ext. intros _ e _. simpl.
    by rewrite <- fmap_take.
Qed.

(** X5: when the conversion returns, there is at least one episode,
    every action array has a first axis, and [episode_ends] holds, for
    every episode, the number of steps up to and including it *)
Theorem episode_ends_prefix_sums {A : Type} (astype_float32 : A → A)
    (codec_ok : ndarray A → bool) (cpu_count : Z)
    (first_completed : nat → list future → list future * list future)
    (sm : shape_meta_t) (demos : list (demo A)) (abs_action : bool) (rt : RotationTransformer A)
    (n_workers max_inflight_tasks : option Z) (rb : replay_root A) :
  _convert_robomimic_to_replay astype_float32 codec_ok cpu_count first_completed
    sm demos abs_action rt n_workers max_inflight_tasks = Ok rb →
  demos ≠ []
  ∧ Forall (fun d => shape (demo_actions d) ≠ []) demos
  ∧ root_episode_ends rb
    = (fun e => sum_list (episode_length <$> take (S e) demos)) <$> seq 0 (length demos).
Proof.
  intros H. apply convert_Ok_inv in H as (ends & n & g & Hends & Hlast & _ & -> & _).
  destruct (count_steps_lengths _ _ Hends) as [Hshapes Hsum].
  split; [|by split]. intros ->. simpl in Hends. injection Hends as <-. done.
Qed.

Lemma episode_ends_prefix_sums_witness :
  ∃ rb, convert_demo demo_meta [make_demo 2 2; make_demo 3 3] None None = Ok rb
        ∧ root_episode_ends rb
          = (fun e => sum_list (episode_length <$> take (S e) [make_demo 2 2; make_demo 3 3]))
              <$> seq 0 2.
Proof.
  destruct convert_demo_runs as (rb & Hrb). exists rb. split; [exact Hrb|].
  exact (proj2 (proj2 (episode_ends_prefix_sums _ _ _ _ _ _ _ _ _ _ _ Hrb))).
Defined.

(** X6: when the conversion returns, every array of the group
    [data], low-dimensional or image, has [n_steps] rows, where
    [n_steps] is the last episode end and the sum of the episode
    lengths *)
Theorem stored_arrays_have_n_steps_rows {A : Type} (astype_float32 : A → A)
    (codec_ok : ndarray A → bool) (cpu_count : Z)
    (first_completed : nat → list future → list future * list future)
    (sm : shape_meta_t) (demos : list (demo A)) (abs_action : bool) (rt : RotationTransformer A)
    (n_workers max_inflight_tasks : option Z) (rb : replay_root A) :
  _convert_robomimic_to_replay astype_float32 codec_ok cpu_count first_completed
    sm demos abs_action rt n_workers max_inflight_tasks = Ok rb →
  ∃ n_steps, last (root_episode_ends rb) = Some n_steps
    ∧ n_steps = sum_list (episode_length <$> demos)
    ∧ ∀ key z, root_data rb !! key = Some z → head (z_shape z) = Some n_steps.
Proof.
  intros H.
  apply convert_Ok_store in H as (ends & n & g & st & Hends & Hlast & Hg & Hload & ->).
  destruct (count_steps_lengths _ _ Hends) as [_ Hsum].
  simpl in *. exists n. split; [done|]. split.
  { rewrite Hsum in Hlast. rewrite fmap_last in Hlast.
    destruct demos as [|d demos _] using rev_ind; [done|].
    rewrite length_app in Hlast. simpl in Hlast.
    rewrite Nat.add_1_r, seq_S, last_snoc in Hlast. simpl in Hlast.
    injection Hlast as <-. rewrite firstn_all2; [done|]. rewrite length_app. simpl. lia. }
  apply save_lowdim_arrays in Hg as (_ & Hdom & Hall).
  pose proof (evolves_load_images codec_ok first_completed sm demos
                (workers cpu_count n_workers)
                (inflight_bound cpu_count n_workers max_inflight_tasks) n
                (starts_of ends) (init_pool g)) as Hev.
  rewrite Hload in Hev. simpl in Hev.
  eapply rtc_store_step_rows; [exact Hev|].
  intros key z Hz. assert (Hk : key ∈ lowdim_keys sm ++ ["action"]).
  { apply Hdom. by rewrite Hz. }
  destruct (Hall key Hk) as (d & Hd & Hgk). rewrite Hz in Hgk. injection Hgk as ->.
  apply checked_lowdim_inv in Hd as (declared & _ & _ & Hs). simpl. by rewrite Hs.
Qed.

Lemma stored_arrays_have_n_steps_rows_witness :
  ∃ rb, convert_demo demo_meta [make_demo 2 2; make_demo 3 3] None None = Ok rb
        ∧ ∃ n_steps, last (root_episode_ends rb) = Some n_steps
            ∧ n_steps = sum_list (episode_length <$> [make_demo 2 2; make_demo 3 3])
            ∧ ∀ key z, root_data rb !! key = Some z → head (z_shape z) = Some n_steps.
Proof.
  destruct convert_demo_runs as (rb & Hrb). exists rb. split; [exact Hrb|].
  exact (stored_arrays_have_n_steps_rows _ _ _ _ _ _ _ _ _ _ _ Hrb).
Defined.

(** X7: when the conversion returns, the group [data] holds an array
    exactly for the low-dimensional keys, for ["action"] and for the
    image keys; an entry of [shape_meta] of any other type is not
    stored *)
Theorem stored_keys {A : Type} (astype_float32 : A → A)
    (codec_ok : ndarray A → bool) (cpu_count : Z)
    (first_completed : nat → list future → list future * list future)
    (sm : shape_meta_t) (demos : list (demo A)) (abs_action : bool) (rt : RotationTransformer A)
    (n_workers max_inflight_tasks : option Z) (rb : replay_root A) :
  _convert_robomimic_to_replay astype_float32 codec_ok cpu_count first_completed
    sm demos abs_action rt n_workers max_inflight_tasks = Ok rb →
  ∀ key, is_Some (root_data rb !! key)
         ↔ key ∈ lowdim_keys sm ∨ key = "action" ∨ key ∈ rgb_keys sm.
Proof.
  intros H key.
  apply convert_Ok_store in H as (ends & n & g & st & Hends & Hlast & Hg & Hload & ->).
  simpl. apply save_lowdim_arrays in Hg as (_ & Hdom & Hall).
  pose proof (evolves_load_images codec_ok first_completed sm demos
                (workers cpu_count n_workers)
                (inflight_bound cpu_count n_workers max_inflight_tasks) n
                (starts_of ends) (init_pool g)) as Hev.
  rewrite Hload in Hev. simpl in Hev. apply rtc_store_step_keys in Hev as [Hlo Hhi].
  split.
  - intros Hk. apply Hhi in Hk as [Hk|Hk]; [|by right; right].
    apply Hdom in Hk. apply elem_of_app in Hk as [Hk|Hk]; [by left|].
    apply list_elem_of_singleton in Hk. by right; left.
  - intros [Hk|[->|Hk]].
    + apply Hlo. destruct (Hall key) as (d & _ & ->); [apply elem_of_app; by left|done].
    + apply Hlo. destruct (Hall "action") as (d & _ & ->); [|done].
      apply elem_of_app. right. apply list_elem_of_here.
    + unfold load_images in Hload.
      assert (Hok : is_ok (load_images codec_ok first_completed sm demos
                (workers cpu_count n_workers)
                (inflight_bound cpu_count n_workers max_inflight_tasks) n
                (starts_of ends) (init_pool g)).1).
      { unfold load_images. by rewrite Hload. }
      unfold load_images in Hok.
      apply bind_is_ok in Hok as Hb. destruct Hb as ([] & st1 & H1 & Hb).
      rewrite Hb in Hok. rewrite Hb in Hload. clear Hb.
      apply bind_is_ok in Hok as Hb. destruct Hb as ([] & st2 & H2 & Hb).
      rewrite Hb in Hok. rewrite Hb in Hload. clear Hb.
      assert (Hst : data_group st = data_group st2).
      { unfold bind, wait_all, drain in Hload. simpl in Hload.
        destruct (forallb f_result (futures st2)); [|done]. by injection Hload as <-. }
      rewrite Hst.
      pose proof (forM_establishes (fun key st => is_Some (data_group st !! key))
                    (copy_key codec_ok first_completed sm demos
                       (inflight_bound cpu_count n_workers max_inflight_tasks) n
                       (starts_of ends)) (rgb_keys sm)) as Hest.
      specialize (Hest ltac:(intros x st' _; apply copy_key_creates)).
      assert (Hkeep : ∀ x y, x ∈ rgb_keys sm → y ∈ rgb_keys sm →
                keeps (fun st' => is_Some (data_group st' !! x))
                  (copy_key codec_ok first_completed sm demos
                       (inflight_bound cpu_count n_workers max_inflight_tasks) n
                       (starts_of ends) y)).
      { intros x y _ Hy st' Hx.
        pose proof (evolves_copy_key codec_ok first_completed (rgb_keys sm) sm demos
                      (inflight_bound cpu_count n_workers max_inflight_tasks) n
                      (starts_of ends) y Hy st') as Hev'.
        apply rtc_store_step_keys in Hev' as [Hev' _]. by apply Hev'. }
      specialize (Hest Hkeep st1). rewrite H2 in Hest. by apply Hest.
Qed.

Lemma stored_keys_witness :
  ∃ rb, convert_demo demo_meta [make_demo 2 2; make_demo 3 3] None None = Ok rb
        ∧ ∀ key, is_Some (root_data rb !! key)
                 ↔ key ∈ lowdim_keys demo_meta ∨ key = "action"
                   ∨ key ∈ rgb_keys demo_meta.
Proof.
  destruct convert_demo_runs as (rb & Hrb). exists rb. split; [exact Hrb|].
  exact (stored_keys _ _ _ _ _ _ _ _ _ _ _ Hrb).
Defined.

(** X8: when the conversion returns, the array of a
    low-dimensional key or of ["action"] that is not also an image key
    is stored as one chunk that holds the whole converted array; the
    image phase leaves it alone *)
Theorem lowdim_arrays_stored_whole {A : Type} (astype_float32 : A → A)
    (codec_ok : ndarray A → bool) (cpu_count : Z)
    (first_completed : nat → list future → list future * list future)
    (sm : shape_meta_t) (demos : list (demo A)) (abs_action : bool) (rt : RotationTransformer A)
    (n_workers max_inflight_tasks : option Z) (rb : replay_root A) (key : string) :
  _convert_robomimic_to_replay astype_float32 codec_ok cpu_count first_completed
    sm demos abs_action rt n_workers max_inflight_tasks = Ok rb →
  key ∈ lowdim_keys sm ++ ["action"] → key ∉ rgb_keys sm →
  ∃ d, converted_lowdim astype_float32 demos abs_action rt key = Ok d
       ∧ root_data rb !! key = Some (lowdim_array d).
Proof.
  intros H Hk Hrgb.
  apply convert_Ok_store in H as (ends & n & g & st & Hends & Hlast & Hg & Hload & ->).
  simpl. apply save_lowdim_arrays in Hg as (_ & _ & Hall).
  destruct (Hall key Hk) as (d & Hd & Hgk).
  apply checked_lowdim_inv in Hd as (declared & Hc & _ & _).
  exists d. split; [done|].
  pose proof (evolves_load_images codec_ok first_completed sm demos
                (workers cpu_count n_workers)
                (inflight_bound cpu_count n_workers max_inflight_tasks) n
                (starts_of ends) (init_pool g)) as Hev.
  rewrite Hload in Hev. simpl in Hev.
  by rewrite (rtc_store_step_other _ _ _ _ key Hev Hrgb).
Qed.

Lemma lowdim_arrays_stored_whole_witness :
  ∃ rb, convert_demo demo_meta [make_demo 2 2; make_demo 3 3] None None = Ok rb
        ∧ ∃ d, converted_lowdim id [make_demo 2 2; make_demo 3 3] false rt_demo "pos" = Ok d
               ∧ root_data rb !! "pos" = Some (lowdim_array d).
Proof.
  destruct convert_demo_runs as (rb & Hrb). exists rb. split; [exact Hrb|].
  apply (lowdim_arrays_stored_whole _ _ _ _ _ _ _ _ _ _ _ "pos" Hrb).
  - vm_compute. apply list_elem_of_here.
  - vm_compute. intros H. apply list_elem_of_singleton in H. discriminate H.
Defined.

(** ** The frames in the image arrays *)

Section image_frames.
Context {A : Type} (codec_ok : ndarray A → bool).
Context (first_completed : nat → list future → list future * list future).
Hypothesis Hwait : wait_ok first_completed.
Implicit Types (g : gmap string (zarr_array A)) (st : pool A) (key : string) (v : ndarray A).

(** One iteration establishes a property that the other iterations
    keep when they return. *)
Lemma forM_reaches {X} (P : pool A → Prop) (f : X → @M A unit) (l : list X) (x : X) :
  x ∈ l →
  (∀ st, is_ok (f x st).1 → P (f x st).2) →
  (∀ y st, y ∈ l → P st → is_ok (f y st).1 → P (f y st).2) →
  ∀ st, is_ok (forM_ f l st).1 → P (forM_ f l st).2.
Proof.
  intros Hx Hest Hkeep.
  assert (Hrest : ∀ l', (∀ y, y ∈ l' → y ∈ l) →
            ∀ st, P st → is_ok (forM_ f l' st).1 → P (forM_ f l' st).2).
  { induction l' as [|y l' IH]; intros Hsub st Hp Hok; [done|].
    simpl in *. apply bind_is_ok in Hok as Hb. destruct Hb as ([] & st1 & Hy & Hb).
    rewrite Hb in *. apply IH; [intros z Hz; by apply Hsub, list_elem_of_further| |done].
    pose proof (Hkeep y st (Hsub y (list_elem_of_here _ _)) Hp) as Hq.
    rewrite Hy in Hq. by apply Hq. }
  clear Hkeep. induction l as [|y l IH]; [by apply elem_of_nil in Hx|].
  intros st Hok. simpl in *. apply bind_is_ok in Hok as Hb.
  destruct Hb as ([] & st1 & Hy & Hb). rewrite Hb in *.
  apply elem_of_cons in Hx as [->|Hin].
  - apply Hrest; [intros z Hz; by apply list_elem_of_further| |done].
    specialize (Hest st). rewrite Hy in Hest. by apply Hest.
  - apply IH; [done| |done].
    intros l' Hsub. apply Hrest. intros z Hz. by apply list_elem_of_further, Hsub.
Qed.

Lemma enumerate_lookup {X} (l : list X) (i : nat) (x : X) :
  (i, x) ∈ enumerate l → l !! i = Some x.
Proof.
  unfold enumerate. intros Hin. apply list_elem_of_lookup in Hin as (k & Hk).
  rewrite list_lookup_imap in Hk. destruct (l !! k) as [y|] eqn:Hy; [|done].
  simpl in Hk. by injection Hk as -> ->.
Qed.

(** *** A written frame stays where it is *)





(** *** A task that returns has written its frame, or has failed *)


Section one_frame.
Context (sm : shape_meta_t) (demos : list (demo A)) (b : Z) (n : nat) (starts : list nat).
Context (key : string) (e : nat) (d : demo A) (arr : ndarray A) (j s : nat).
Hypothesis Hkey : key ∈ rgb_keys sm.
Hypothesis Hd : demos !! e = Some d.
Hypothesis Harr : demo_obs d !! key = Some arr.
Hypothesis Hj : j < default 0 (head (shape arr)).
Hypothesis Hs : starts !! e = Some s.
(** No other task of the field writes another frame to the same row. *)
Hypothesis Hsame : ∀ e' d' arr' j' s',
  demos !! e' = Some d' → demo_obs d' !! key = Some arr' →
  j' < default 0 (head (shape arr')) → starts !! e' = Some s' → s' + j' = s + j →
  frame_at arr' j' = frame_at arr j.





End one_frame.

End image_frames.







(** ** The shapes of the image arrays *)

Section image_shapes.
Context {A : Type} (codec_ok : ndarray A → bool).
Context (first_completed : nat → list future → list future * list future).
Implicit Types (g : gmap string (zarr_array A)) (st : pool A) (key : string).

Lemma rtc_store_step_shape keys n g g' key (z : zarr_array A) :
  rtc (store_step keys n) g g' → g !! key = Some z →
  ∃ z', g' !! key = Some z' ∧ z_shape z' = z_shape z.
Proof.
  intros H. revert z. induction H as [g|g g1 g2 H1 _ IH]; intros z Hz; [by exists z|].
  destruct H1 as [key' h w c g0 Hk Hg0|key' z0 idx v g0 Hk Hg0 Hi Hs].
  - apply (IH z). rewrite lookup_insert_ne; [done|]. congruence.
  - destruct (decide (key' = key)) as [->|Hne].
    + destruct (IH (written z0 idx v)) as (z' & Hz' & Hs'); [apply lookup_insert_eq|].
      exists z'. split; [done|]. rewrite Hs'. simpl. congruence.
    + apply (IH z). by rewrite lookup_insert_ne.
Qed.

Lemma copy_key_image sm demos b n starts key st :
  key ∈ rgb_keys sm →
  is_ok (copy_key codec_ok first_completed sm demos b n starts key st).1 →
  ∃ a c h w z, obs_attr sm key = Ok a ∧ attr_shape a = [c; h; w]
    ∧ data_group (copy_key codec_ok first_completed sm demos b n starts key st).2 !! key
      = Some z
    ∧ z_shape z = [n; h; w; c].
Proof.
  intros Hkey. unfold copy_key. intros Hok.
  apply bind_is_ok in Hok as Hb. destruct Hb as (a & st1 & Ha & Hb). rewrite Hb in *.
  clear Hb. unfold lift in Ha. injection Ha as Ha <-.
  apply bind_is_ok in Hok as Hb. destruct Hb as ([[c h] w] & st1 & Hc & Hb).
  rewrite Hb in *. clear Hb. unfold lift in Hc. injection Hc as Hc <-.
  apply bind_is_ok in Hok as Hb. destruct Hb as ([] & st1 & Hr & Hb).
  rewrite Hb in *. clear Hb.
  assert (H1 : ∃ z, data_group st1 !! key = Some z ∧ z_shape z = [n; h; w; c]).
  { unfold require_dataset in Hr. destruct (data_group st !! key) as [z|] eqn:Hz.
    - destruct (decide _); [|done]. injection Hr as <-. by exists z.
    - injection Hr as <-. simpl. eexists. split; [apply lookup_insert_eq|done]. }
  destruct H1 as (z & Hz & Hs).
  pose proof (evolves_forM (rgb_keys sm) n
                (copy_episode codec_ok first_completed b key starts) (enumerate demos)
                (fun p => evolves_copy_episode codec_ok first_completed (rgb_keys sm) n b key
                            starts p Hkey) st1) as Hev.
  destruct (rtc_store_step_shape _ _ _ _ key z Hev Hz) as (z' & Hz' & Hs').
  exists a, c, h, w, z'. split; [done|]. split.
  - destruct (attr_shape a) as [|c0 [|h0 [|w0 [|x l]]]]; try done.
    simpl in Hc. by injection Hc as -> -> ->.
  - split; [done|]. congruence.
Qed.

End image_shapes.

(** X11: when the conversion returns, every image field is declared
    with three axes [(c, h, w)] and its array has the shape
    [(n_steps, h, w, c)] *)
Theorem image_arrays_channel_last {A : Type} (astype_float32 : A → A)
    (codec_ok : ndarray A → bool) (cpu_count : Z)
    (first_completed : nat → list future → list future * list future)
    (sm : shape_meta_t) (demos : list (demo A)) (abs_action : bool) (rt : RotationTransformer A)
    (n_workers max_inflight_tasks : option Z) (rb : replay_root A) (key : string) :
  _convert_robomimic_to_replay astype_float32 codec_ok cpu_count first_completed
    sm demos abs_action rt n_workers max_inflight_tasks = Ok rb →
  key ∈ rgb_keys sm →
  ∃ a c h w z n_steps,
    obs_attr sm key = Ok a ∧ attr_shape a = [c; h; w]
    ∧ last (root_episode_ends rb) = Some n_steps
    ∧ root_data rb !! key = Some z ∧ z_shape z = [n_steps; h; w; c].
Proof.
  intros H Hkey.
  apply convert_Ok_store in H as (ends & n & g & st & Hends & Hlast & Hg & Hload & ->).
  simpl.
  assert (Hok : is_ok (load_images codec_ok first_completed sm demos
                (workers cpu_count n_workers)
                (inflight_bound cpu_count n_workers max_inflight_tasks) n
                (starts_of ends) (init_pool g)).1) by (by rewrite Hload).
  unfold load_images in Hok, Hload.
  apply bind_is_ok in Hok as Hb. destruct Hb as ([] & st1 & H1 & Hb).
  rewrite Hb in Hok. rewrite Hb in Hload. clear Hb.
  apply bind_is_ok in Hok as Hb. destruct Hb as ([] & st2 & H2 & Hb).
  rewrite Hb in Hok. rewrite Hb in Hload. clear Hb.
  assert (Hst : data_group st = data_group st2).
  { unfold bind, wait_all, drain in Hload. simpl in Hload.
    destruct (forallb f_result (futures st2)); [|done]. by injection Hload as <-. }
  rewrite Hst.
  pose proof (forM_reaches
                (fun st => ∃ a c h w z, obs_attr sm key = Ok a ∧ attr_shape a = [c; h; w]
                             ∧ data_group st !! key = Some z ∧ z_shape z = [n; h; w; c])
                (copy_key codec_ok first_completed sm demos
                   (inflight_bound cpu_count n_workers max_inflight_tasks) n (starts_of ends))
                (rgb_keys sm) key Hkey) as Hreach.
  specialize (Hreach ltac:(intros st0; by apply copy_key_image)).
  assert (Hkeep : ∀ y st0, y ∈ rgb_keys sm →
            (∃ a c h w z, obs_attr sm key = Ok a ∧ attr_shape a = [c; h; w]
               ∧ data_group st0 !! key = Some z ∧ z_shape z = [n; h; w; c]) →
            is_ok (copy_key codec_ok first_completed sm demos
                     (inflight_bound cpu_count n_workers max_inflight_tasks) n
                     (starts_of ends) y st0).1 →
            ∃ a c h w z, obs_attr sm key = Ok a ∧ attr_shape a = [c; h; w]
               ∧ data_group (copy_key codec_ok first_completed sm demos
                     (inflight_bound cpu_count n_workers max_inflight_tasks) n
                     (starts_of ends) y st0).2 !! key = Some z
               ∧ z_shape z = [n; h; w; c]).
  { intros y st0 Hy (a & c & h & w & z & Ha & Hc & Hz & Hs) _.
    pose proof (evolves_copy_key codec_ok first_completed (rgb_keys sm) sm demos
                  (inflight_bound cpu_count n_workers max_inflight_tasks) n
                  (starts_of ends) y Hy st0) as Hev.
    destruct (rtc_store_step_shape _ _ _ _ key z Hev Hz) as (z' & Hz' & Hs').
    exists a, c, h, w, z'. split; [done|]. split; [done|]. split; [done|]. congruence. }
  specialize (Hreach Hkeep st1). rewrite H2 in Hreach.
  destruct (Hreach I) as (a & c & h & w & z & Ha & Hc & Hz & Hs).
  by exists a, c, h, w, z, n.
Qed.

Lemma image_arrays_channel_last_witness :
  ∃ rb, convert_demo demo_meta [make_demo 2 2; make_demo 3 3] None None = Ok rb
        ∧ ∃ a c h w z n_steps,
            obs_attr demo_meta "cam" = Ok a ∧ attr_shape a = [c; h; w]
            ∧ last (root_episode_ends rb) = Some n_steps
            ∧ root_data rb !! "cam" = Some z ∧ z_shape z = [n_steps; h; w; c].
Proof.
  destruct convert_demo_runs as (rb & Hrb). exists rb. split; [exact Hrb|].
  apply (image_arrays_channel_last _ _ _ _ _ _ _ _ _ _ _ "cam" Hrb).
  vm_compute. apply list_elem_of_here.
Defined.

(** ** No frames but those of the tasks *)

Section no_other_frames.
Context {A : Type} (codec_ok : ndarray A → bool).
Context (first_completed : nat → list future → list future * list future).
Context (demos : list (demo A)) (starts : list nat) (key : string).
Implicit Types (st : pool A).




End no_other_frames.



(** ** Files that make the conversion raise *)

Section aborts.
Context {A : Type} (astype_float32 : A → A) (codec_ok : ndarray A → bool) (cpu_count : Z).
Context (first_completed : nat → list future → list future * list future).
Implicit Types (g : gmap string (zarr_array A)) (st : pool A) (key : string).

Lemma mapM_raises {X Y} (f : X → result Y) (l : list X) (x : X) :
  x ∈ l → raises (f x) → raises (mapM f l).
Proof.
  induction l as [|y l IH]; intros Hin Hx; [by apply elem_of_nil in Hin|].
  simpl. destruct (f y) as [v|e] eqn:Hy; [|done]. rewrite bind_Ok.
  apply elem_of_cons in Hin as [->|Hin]; [by rewrite Hy in Hx|].
  apply bind_raises. by apply IH.
Qed.

(** An iteration that raises from every state makes the loop raise. *)
Lemma forM_raises {X} (f : X → @M A unit) (l : list X) (x : X) :
  x ∈ l → (∀ st, raises (f x st).1) → ∀ st, raises (forM_ f l st).1.
Proof.
  induction l as [|y l IH]; intros Hin Hx st; [by apply elem_of_nil in Hin|].
  simpl. unfold bind. destruct (f y st) as [[[]|e] st1] eqn:Hy; [|done].
  apply elem_of_cons in Hin as [->|Hin]; [|by apply IH].
  specialize (Hx st). by rewrite Hy in Hx.
Qed.

Lemma convert_raises_lowdim sm demos abs_action rt n_workers max_inflight_tasks key :
  key ∈ lowdim_keys sm ++ ["action"] →
  (∀ n_steps, raises (checked_lowdim astype_float32 sm demos abs_action rt n_steps key)) →
  raises (_convert_robomimic_to_replay astype_float32 codec_ok cpu_count first_completed
            sm demos abs_action rt n_workers max_inflight_tasks).
Proof.
  intros Hkey Hraise. unfold _convert_robomimic_to_replay. cbv zeta.
  destruct (count_steps 0 demos) as [ends|]; [|done]. rewrite bind_Ok.
  destruct (last ends) as [n|]; [|done]. cbn [of_option]. rewrite bind_Ok.
  apply bind_raises. unfold save_lowdim. apply (foldM_raises _ _ key); [done|].
  intros g. unfold save_lowdim_key. apply bind_raises, Hraise.
Qed.

Lemma convert_raises_images sm demos abs_action rt n_workers max_inflight_tasks key :
  key ∈ rgb_keys sm →
  (∀ b n starts st,
     raises (copy_key codec_ok first_completed sm demos b n starts key st).1) →
  raises (_convert_robomimic_to_replay astype_float32 codec_ok cpu_count first_completed
            sm demos abs_action rt n_workers max_inflight_tasks).
Proof.
  intros Hkey Hraise. unfold _convert_robomimic_to_replay. cbv zeta.
  destruct (count_steps 0 demos) as [ends|]; [|done]. rewrite bind_Ok.
  destruct (last ends) as [n|]; [|done]. cbn [of_option]. rewrite bind_Ok.
  destruct (save_lowdim _ _ _ _ _ _) as [g|]; [|done]. rewrite bind_Ok.
  apply bind_raises. unfold load_images, bind at 1.
  destruct (decide _); [done|]. simpl. unfold bind at 1.
  pose proof (forM_raises
                (copy_key codec_ok first_completed sm demos
                   (inflight_bound cpu_count n_workers max_inflight_tasks) n (starts_of ends))
                (rgb_keys sm) key Hkey (Hraise _ _ _) (init_pool g)) as Hr.
  by destruct (forM_ _ (rgb_keys sm) (init_pool g)) as [[[]|e] st1].
Qed.

End aborts.

(** X13: a low-dimensional or image field of [shape_meta] that an
    episode does not hold makes the conversion raise *)
Theorem missing_field_aborts {A : Type} (astype_float32 : A → A)
    (codec_ok : ndarray A → bool) (cpu_count : Z)
    (first_completed : nat → list future → list future * list future)
    (sm : shape_meta_t) (demos : list (demo A)) (abs_action : bool) (rt : RotationTransformer A)
    (n_workers max_inflight_tasks : option Z) (key : string) (e : nat) (d : demo A) :
  (key ∈ lowdim_keys sm ∧ key ≠ "action") ∨ key ∈ rgb_keys sm →
  demos !! e = Some d → demo_obs d !! key = None →
  raises (_convert_robomimic_to_replay astype_float32 codec_ok cpu_count first_completed
            sm demos abs_action rt n_workers max_inflight_tasks).
Proof.
  intros [[Hkey Hne]|Hkey] Hd Hnone.
  - apply (convert_raises_lowdim _ _ _ _ _ _ _ _ _ _ key); [apply elem_of_app; by left|].
    intros n. unfold checked_lowdim, converted_lowdim, concat_lowdim.
    do 3 apply bind_raises. apply (mapM_raises _ _ d); [by eapply list_elem_of_lookup_2|].
    unfold read_lowdim. rewrite decide_False by done. unfold getitem. by rewrite Hnone.
  - apply (convert_raises_images _ _ _ _ _ _ _ _ _ _ key); [done|].
    intros b n starts st. unfold copy_key, bind at 1, lift.
    destruct (obs_attr sm key) as [a|]; [|done]. unfold bind at 1.
    destruct (unpack3 (attr_shape a)) as [[[c h] w]|]; [|done]. unfold bind at 1.
    destruct (require_dataset key [n; h; w; c] [1; h; w; c] st) as [[[]|err] st1]; [|done].
    apply (forM_raises _ _ (e, d)); [by apply elem_of_enumerate|].
    intros st2. unfold copy_episode, bind at 1, lift, getitem. simpl. by rewrite Hnone.
Qed.

Lemma missing_field_aborts_witness :
  raises (convert_demo demo_meta
            [make_demo 2 2; {| demo_obs := {[ "pos" := demo_pos 3 ]};
                               demo_actions := demo_acts 3 |}] None None).
Proof.
  apply (missing_field_aborts id (fun _ => true) 4 oldest_first demo_meta _ false rt_demo
           None None "cam" 1 {| demo_obs := {[ "pos" := demo_pos 3 ]};
                                demo_actions := demo_acts 3 |}).
  - right. vm_compute. apply list_elem_of_here.
  - reflexivity.
  - reflexivity.
Defined.

(** X14: an image field whose declared shape does not have exactly
    three axes makes the conversion raise *)
Theorem image_shape_needs_three_axes {A : Type} (astype_float32 : A → A)
    (codec_ok : ndarray A → bool) (cpu_count : Z)
    (first_completed : nat → list future → list future * list future)
    (sm : shape_meta_t) (demos : list (demo A)) (abs_action : bool) (rt : RotationTransformer A)
    (n_workers max_inflight_tasks : option Z) (key : string) (a : attr) :
  key ∈ rgb_keys sm → obs_attr sm key = Ok a → length (attr_shape a) ≠ 3 →
  raises (_convert_robomimic_to_replay astype_float32 codec_ok cpu_count first_completed
            sm demos abs_action rt n_workers max_inflight_tasks).
Proof.
  intros Hkey Ha Hlen.
  apply (convert_raises_images _ _ _ _ _ _ _ _ _ _ key); [done|].
  intros b n starts st. unfold copy_key, bind at 1, lift. rewrite Ha. unfold bind at 1.
  destruct (attr_shape a) as [|c [|h [|w [|x l]]]]; done.
Qed.

Lemma image_shape_needs_three_axes_witness :
  raises (convert_demo
            {| sm_obs := [("cam", {| attr_shape := [1; 1]; attr_type := Some "rgb" |})];
               sm_action_shape := [7] |}
            [make_demo 2 2] None None).
Proof.
  apply (image_shape_needs_three_axes id (fun _ => true) 4 oldest_first _ _ false rt_demo
           None None "cam" {| attr_shape := [1; 1]; attr_type := Some "rgb" |}).
  - vm_compute. apply list_elem_of_here.
  - reflexivity.
  - simpl. lia.
Defined.

(** X15: with a worker count of zero or less, given or taken from
    the number of processors, the conversion raises *)
Theorem no_workers_no_buffer {A : Type} (astype_float32 : A → A)
    (codec_ok : ndarray A → bool) (cpu_count : Z)
    (first_completed : nat → list future → list future * list future)
    (sm : shape_meta_t) (demos : list (demo A)) (abs_action : bool) (rt : RotationTransformer A)
    (n_workers max_inflight_tasks : option Z) :
  (workers cpu_count n_workers ≤ 0)%Z →
  raises (_convert_robomimic_to_replay astype_float32 codec_ok cpu_count first_completed
            sm demos abs_action rt n_workers max_inflight_tasks).
Proof.
  intros Hn. unfold _convert_robomimic_to_replay. cbv zeta.
  destruct (count_steps 0 demos) as [ends|]; [|done]. rewrite bind_Ok.
  destruct (last ends) as [n|]; [|done]. cbn [of_option]. rewrite bind_Ok.
  destruct (save_lowdim _ _ _ _ _ _) as [g|]; [|done]. rewrite bind_Ok.
  by rewrite load_images_workers.
Qed.

Lemma no_workers_no_buffer_witness :
  raises (convert_demo demo_meta [make_demo 2 2; make_demo 3 3] (Some 0%Z) None).
Proof.
  apply (no_workers_no_buffer id (fun _ => true) 4 oldest_first demo_meta
           [make_demo 2 2; make_demo 3 3] false rt_demo (Some 0%Z) None).
  unfold workers. simpl. lia.
Defined.

Section action_width.
Context {A : Type} (astype_float32 : A → A).

Lemma concat_lowdim_action_shape (d0 : demo A) rest raw m w :
  concat_lowdim astype_float32 "action" (d0 :: rest) = Ok raw →
  shape (demo_actions d0) = [m; w] → ∃ k, shape raw = [k; w].
Proof.
  unfold concat_lowdim. intros H Hs. apply bind_Ok_inv in H as (arrays & Hm & Hc).
  apply mapM_result_Forall2 in Hm.
  apply Forall2_cons_inv_l in Hm as (a0 & arrays' & Ha0 & _ & ->).
  unfold read_lowdim in Ha0. rewrite decide_True in Ha0 by done. simpl in Ha0.
  injection Ha0 as <-. unfold concatenate0 in Hc. simpl in Hc. rewrite Hs in Hc.
  destruct (forallb _ arrays'); [|done]. injection Hc as <-. simpl. by eexists.
Qed.

Lemma reshape_infer_shape (tl : list nat) (a r : ndarray A) :
  reshape_infer tl a = Ok r → ∃ k, shape r = k :: tl.
Proof.
  unfold reshape_infer. cbv zeta. destruct (decide _); [|done]. intros [= <-]. by eexists.
Qed.

Lemma convert_actions_shape (rt : RotationTransformer A) (raw d : ndarray A) m w :
  _convert_actions raw true rt = Ok d → shape raw = [m; w] →
  (w = 14 → ∃ k, shape d = [k; 20])
  ∧ (w ≠ 14 → shape d = [m; Nat.min 3 w + to_dim rt + (w - 6)]).
Proof.
  intros H Hs. unfold _convert_actions in H.
  rewrite (last_dim_snoc raw [m] w Hs), bind_Ok in H. cbv zeta in H.
  destruct (decide (w = 14)) as [->|Hw].
  - split; [intros _|done]. rewrite bool_decide_eq_true_2 in H by done.
    apply bind_Ok_inv in H as (a1 & _ & H). apply bind_Ok_inv in H as (c & _ & H).
    by apply reshape_infer_shape in H.
  - split; [done|intros _]. rewrite bool_decide_eq_false_2 in H by done.
    unfold mret at 1, result_ret in H. rewrite bind_Ok in H.
    apply bind_Ok_inv in H as (c & Hc & H). injection H as <-.
    assert (Hpos : shape (slice_last 0 3 raw) = [m] ++ [Nat.min 3 w - 0]).
    { unfold slice_last. by rewrite shape_apply_last, (leading_snoc raw [m] w Hs), Hs. }
    assert (Hrot : shape (forward rt (slice_last 3 6 raw)) = [m] ++ [to_dim rt]).
    { unfold forward, slice_last.
      rewrite shape_apply_last.
      by rewrite (leading_snoc (apply_last _ _ raw) (leading raw) _ (shape_apply_last _ _ _)),
        (leading_snoc raw [m] w Hs). }
    assert (Hgrip : shape (slice_last_from 6 raw) = [m] ++ [w - 6]).
    { unfold slice_last_from. by rewrite shape_apply_last, (leading_snoc raw [m] w Hs), Hs. }
    revert Hc Hpos Hrot Hgrip.
    generalize (slice_last 0 3 raw) (forward rt (slice_last 3 6 raw)) (slice_last_from 6 raw).
    intros pos rot gripper Hc Hpos Hrot Hgrip.
    unfold concatenate_last3 in Hc. destruct (decide _); [|done]. injection Hc as <-.
    cbn [shape]. rewrite (leading_snoc _ _ _ Hpos), Hpos, Hrot, Hgrip, !last_snoc.
    simpl. do 3 f_equal. lia.
Qed.

End action_width.

(** X16: with the [shape_meta] that [__init__] uses by default, a
    file whose first episode has actions of width 14 is never converted,
    and a file with actions of width 7 is converted for absolute actions
    only if the rotation representation has 6 numbers *)
Theorem default_shape_meta_action_width {A : Type} (astype_float32 : A → A)
    (codec_ok : ndarray A → bool) (cpu_count : Z)
    (first_completed : nat → list future → list future * list future)
    (d0 : demo A) (rest : list (demo A)) (abs_action : bool) (rt : RotationTransformer A)
    (rb : replay_root A) (m w : nat) :
  init_replay_buffer astype_float32 codec_ok cpu_count first_completed
    None (d0 :: rest) abs_action rt = Ok rb →
  shape (demo_actions d0) = [m; w] → w = 7 ∨ w = 14 →
  w = 7 ∧ (abs_action = true → to_dim rt = 6).
Proof.
  unfold init_replay_buffer. cbv zeta. cbn [default]. intros H Hs Hw.
  apply convert_Ok_inv in H as (ends & n & g & _ & _ & Hg & _ & _).
  destruct (save_lowdim_stored _ _ _ _ _ _ _ "action" Hg) as (d & Hd).
  { apply elem_of_app. right. apply list_elem_of_here. }
  apply checked_lowdim_inv in Hd as (declared & Hc & Hdecl & Hshape).
  unfold declared_shape in Hdecl. rewrite decide_True in Hdecl by done.
  injection Hdecl as <-. unfold converted_lowdim in Hc.
  apply bind_Ok_inv in Hc as (raw & Hraw & Hc). rewrite decide_True in Hc by done.
  destruct (concat_lowdim_action_shape _ _ _ _ _ _ Hraw Hs) as (k & Hk).
  destruct abs_action; simpl in Hshape.
  - destruct (convert_actions_shape rt raw d k w Hc Hk) as [H14 H7].
    destruct Hw as [->| ->].
    + rewrite H7 in Hshape by lia. simpl in Hshape. split; [done|]. intros _.
      injection Hshape as _ Hshape. lia.
    + destruct (H14 eq_refl) as (k' & Hk'). rewrite Hk' in Hshape. discriminate Hshape.
  - injection Hc as <-. rewrite Hk in Hshape. injection Hshape as _ ->. done.
Qed.

Lemma default_shape_meta_action_width_witness :
  ∃ rb, init_replay_buffer id (fun _ => true) 4 oldest_first None [default_demo] true rt_demo
        = Ok rb
        ∧ 7 = 7 ∧ (true = true → to_dim rt_demo = 6).
Proof.
  destruct (init_replay_buffer id (fun _ => true) 4 oldest_first None [default_demo] true
              rt_demo) as [rb|err] eqn:Hrun.
  - exists rb. split; [reflexivity|].
    apply (default_shape_meta_action_width id (fun _ => true) 4 oldest_first
             default_demo [] true rt_demo rb 1 7 Hrun); [reflexivity|by left].
  - exfalso.
    assert (Hok : is_ok (init_replay_buffer id (fun _ => true) 4 oldest_first None
                           [default_demo] true rt_demo)) by (vm_compute; exact I).
    rewrite Hrun in Hok. exact Hok.
Defined.

(** X17: a frame whose destination row is [n_steps] or beyond,
    as when the last episode holds more frames than actions, makes the
    conversion raise *)
Theorem frame_beyond_last_step_aborts {A : Type} (astype_float32 : A → A)
    (codec_ok : ndarray A → bool) (cpu_count : Z)
    (first_completed : nat → list future → list future * list future)
    (sm : shape_meta_t) (demos : list (demo A)) (abs_action : bool) (rt : RotationTransformer A)
    (n_workers max_inflight_tasks : option Z)
    (key : string) (e : nat) (d : demo A) (arr : ndarray A) (j : nat)
    (episode_ends : list nat) (n_steps start : nat) :
  wait_ok first_completed →
  count_steps 0 demos = Ok episode_ends → last episode_ends = Some n_steps →
  key ∈ rgb_keys sm → demos !! e = Some d → demo_obs d !! key = Some arr →
  j < default 0 (head (shape arr)) →
  starts_of episode_ends !! e = Some start → n_steps ≤ start + j →
  raises (_convert_robomimic_to_replay astype_float32 codec_ok cpu_count first_completed
            sm demos abs_action rt n_workers max_inflight_tasks).
Proof.
  intros Hwait Hends Hlast Hkey Hd Harr Hj Hstart Hbeyond.
  destruct (obs_attr sm key) as [a|err] eqn:Ha.
  2:{ apply (convert_raises_images _ _ _ _ _ _ _ _ _ _ key); [done|].
      intros b n starts st. unfold copy_key, bind at 1, lift. by rewrite Ha. }
  destruct (unpack3 (attr_shape a)) as [[[c h] w]|err] eqn:Hchw.
  2:{ apply (convert_raises_images _ _ _ _ _ _ _ _ _ _ key); [done|].
      intros b n starts st. unfold copy_key, bind at 1, lift. rewrite Ha.
      unfold bind at 1. by rewrite Hchw. }
  unfold _convert_robomimic_to_replay. cbv zeta.
  rewrite Hends, bind_Ok, Hlast. cbn [of_option]. rewrite bind_Ok.
  destruct (save_lowdim astype_float32 sm demos abs_action rt n_steps) as [g|err]; [|done].
  rewrite bind_Ok.
  assert (Hfail : copy_ok codec_ok n_steps (c, h, w) (start + j) arr j = false).
  { unfold copy_ok. apply bool_decide_eq_false. unfold zarr_setitem.
    rewrite decide_False by (simpl; lia). simpl. tauto. }
  pose proof (load_images_fails codec_ok first_completed Hwait sm demos
                (workers cpu_count n_workers)
                (inflight_bound cpu_count n_workers max_inflight_tasks) n_steps
                (starts_of episode_ends) key a c h w e d arr j start (init_pool g)
                Hkey Ha Hchw Hd Harr Hj Hstart Hfail) as Hraise.
  by destruct (load_images _ _ _ _ _ _ _ _ _).1.
Qed.

Lemma frame_beyond_last_step_aborts_witness :
  raises (convert_demo demo_meta [make_demo 2 2; make_demo 3 4] None None).
Proof.
  apply (frame_beyond_last_step_aborts id (fun _ => true) 4 oldest_first demo_meta
           [make_demo 2 2; make_demo 3 4] false rt_demo None None
           "cam" 1 (make_demo 3 4) (demo_frames 4) 3 [2; 5] 5 2).
  - apply oldest_first_ok.
  - reflexivity.
  - reflexivity.
  - vm_compute. apply list_elem_of_here.
  - reflexivity.
  - reflexivity.
  - simpl. lia.
  - reflexivity.
  - lia.
Defined.

(** ** Files that the conversion accepts *)

Section accepted.
Context {A : Type} (astype_float32 : A → A) (codec_ok : ndarray A → bool) (cpu_count : Z).
Context (first_completed : nat → list future → list future * list future).
Hypothesis Hwait : wait_ok first_completed.
Implicit Types (g : gmap string (zarr_array A)) (st : pool A) (key : string).
Implicit Types (demos : list (demo A)).

Lemma count_steps_ok prev demos :
  Forall (fun d => shape (demo_actions d) ≠ []) demos →
  ∃ ends, count_steps prev demos = Ok ends.
Proof.
  intros H. revert prev. induction H as [|d demos Hd _ IH]; intros prev; [by eexists|].
  cbn [count_steps]. unfold shape0.
  destruct (shape (demo_actions d)) as [|m tl]; [done|]. cbn [head of_option].
  rewrite bind_Ok. destruct (IH (prev + m)) as (rest & ->). rewrite bind_Ok. by eexists.
Qed.

Lemma mapM_ok {X Y} (P : X → Y → Prop) (f : X → result Y) (l : list X) :
  Forall (fun x => ∃ y, f x = Ok y ∧ P x y) l → ∃ ys, mapM f l = Ok ys ∧ Forall2 P l ys.
Proof.
  induction 1 as [|x l (y & Hy & Hp) _ (ys & Hys & Hall)]; [by exists []|].
  exists (y :: ys). split; [|by constructor]. simpl. by rewrite Hy, bind_Ok, Hys.
Qed.

Lemma concatenate0_ok (arrays : list (ndarray A)) (lens : list nat) (tl : list nat) :
  arrays ≠ [] → Forall2 (fun a m => shape a = m :: tl) arrays lens →
  ∃ raw, concatenate0 arrays = Ok raw ∧ shape raw = sum_list lens :: tl.
Proof.
  intros Hne Hall. destruct Hall as [|a m arrays lens Ha Hall]; [done|].
  unfold concatenate0. rewrite Ha.
  assert (Hf : forallb (fun b => bool_decide (drop 1 (shape b) = tl ∧ shape b ≠ [])) arrays
               = true).
  { apply forallb_forall. intros b Hb. apply list_elem_of_In in Hb.
    apply bool_decide_eq_true. apply list_elem_of_lookup in Hb as (i & Hi).
    destruct (Forall2_lookup_l _ _ _ _ _ Hall Hi) as (k & _ & Hk). by rewrite Hk. }
  rewrite Hf. eexists. split; [done|]. simpl. do 2 f_equal.
  rewrite Ha. simpl. f_equal. clear Hf Hne Ha.
  induction Hall as [|b k arrays lens Hb _ IH]; [done|]. simpl. rewrite Hb, IH. done.
Qed.

Lemma concat_lowdim_ok key demos (tl : list nat) :
  demos ≠ [] →
  Forall (fun d => ∃ arr, read_lowdim astype_float32 key d = Ok arr
                          ∧ shape arr = episode_length d :: tl) demos →
  ∃ raw, concat_lowdim astype_float32 key demos = Ok raw
         ∧ shape raw = sum_list (episode_length <$> demos) :: tl.
Proof.
  intros Hne Hall. unfold concat_lowdim.
  destruct (mapM_ok (fun d arr => shape arr = episode_length d :: tl) _ _ Hall)
    as (arrays & -> & Hshapes).
  rewrite bind_Ok. apply concatenate0_ok.
  - intros ->. apply Forall2_nil_inv_r in Hshapes. done.
  - apply Forall2_fmap_r, Forall2_flip.
    eapply Forall2_impl; [exact Hshapes|]. by intros d arr ->.
Qed.

Lemma foldM_ok {S X} (I : S → Prop) (f : S → X → result S) (l : list X) (s : S) :
  (∀ s x, x ∈ l → I s → ∃ s', f s x = Ok s' ∧ I s') → I s →
  ∃ s', foldM f s l = Ok s' ∧ I s'.
Proof.
  revert s. induction l as [|x l IH]; intros s Hf Hs; [by exists s|].
  destruct (Hf s x (list_elem_of_here _ _) Hs) as (s1 & H1 & Hs1).
  simpl. rewrite H1, bind_Ok. apply IH; [|done].
  intros s2 y Hy. apply Hf. by apply list_elem_of_further.
Qed.

Lemma steps_demos demos : 0 < sum_list (episode_length <$> demos) → demos ≠ [].
Proof. intros H ->. simpl in H. lia. Qed.

Lemma checked_lowdim_ok sm demos rt key :
  0 < sum_list (episode_length <$> demos) → NoDup (lowdim_keys sm ++ ["action"]) →
  key ∈ lowdim_keys sm ++ ["action"] →
  actions_ok sm demos → (∀ k, k ∈ lowdim_keys sm → lowdim_ok sm demos k) →
  ∃ d, checked_lowdim astype_float32 sm demos false rt
         (sum_list (episode_length <$> demos)) key = Ok d
       ∧ 0 ∉ shape d.
Proof.
  intros Hpos Hnd Hkey [Hact0 Hact] Hlow. pose proof (steps_demos demos Hpos) as Hne.
  unfold checked_lowdim, converted_lowdim, declared_shape.
  destruct (decide (key = "action")) as [->|Hna].
  - destruct (concat_lowdim_ok "action" demos (sm_action_shape sm) Hne) as (raw & -> & Hs).
    { eapply Forall_impl; [exact Hact|]. intros d Hd. simpl in Hd.
      unfold read_lowdim. rewrite decide_True by done. by eexists. }
    rewrite bind_Ok. simpl. rewrite decide_True by done. eexists. split; [done|].
    rewrite Hs. apply not_elem_of_cons. split; [lia|done].
  - assert (Hk : key ∈ lowdim_keys sm).
    { apply elem_of_app in Hkey as [Hk|Hk]; [done|].
      by apply list_elem_of_singleton in Hk. }
    destruct (Hlow key Hk) as (a & Ha & Ha0 & Hall).
    destruct (concat_lowdim_ok key demos (attr_shape a) Hne) as (raw & -> & Hs).
    { eapply Forall_impl; [exact Hall|]. intros d (arr & Harr & Hshape).
      unfold read_lowdim, getitem. rewrite decide_False by done. rewrite Harr. simpl.
      by eexists. }
    rewrite bind_Ok, Ha, !bind_Ok. rewrite decide_True by done. eexists. split; [done|].
    rewrite Hs. apply not_elem_of_cons. split; [lia|done].
Qed.

Lemma save_lowdim_ok sm demos rt :
  0 < sum_list (episode_length <$> demos) → NoDup (lowdim_keys sm ++ ["action"]) →
  actions_ok sm demos → (∀ k, k ∈ lowdim_keys sm → lowdim_ok sm demos k) →
  ∃ g, save_lowdim astype_float32 sm demos false rt (sum_list (episode_length <$> demos))
       = Ok g.
Proof.
  intros Hne Hnd Hact Hlow. unfold save_lowdim.
  assert (Hgen : ∀ keys g0, NoDup keys →
            (∀ k, k ∈ keys → k ∈ lowdim_keys sm ++ ["action"]) →
            (∀ k, k ∈ keys → g0 !! k = None) →
            ∃ g, foldM (save_lowdim_key astype_float32 sm demos false rt
                          (sum_list (episode_length <$> demos))) g0 keys = Ok g).
  { induction keys as [|k keys IH]; intros g0 Hnd' Hsub Hfresh; [by eexists|].
    apply NoDup_cons in Hnd' as [Hk Hnd'].
    destruct (checked_lowdim_ok sm demos rt k Hne Hnd
                (Hsub k (list_elem_of_here _ _)) Hact Hlow) as (d & Hd & Hd0).
    simpl. unfold save_lowdim_key at 2. rewrite Hd, bind_Ok. unfold group_array.
    rewrite (Hfresh k (list_elem_of_here _ _)), decide_False by done.
    rewrite bind_Ok. apply IH; [done| |].
    - intros k' Hk'. by apply Hsub, list_elem_of_further.
    - intros k' Hk'. rewrite lookup_insert_ne by congruence.
      by apply Hfresh, list_elem_of_further. }
  by apply Hgen.
Qed.

(** *** The image phase on accepted files *)

Lemma forM_ok {X} (I : pool A → Prop) (f : X → @M A unit) (l : list X) :
  (∀ x st, x ∈ l → I st → (f x st).1 = Ok tt ∧ I (f x st).2) →
  ∀ st, I st → (forM_ f l st).1 = Ok tt ∧ I (forM_ f l st).2.
Proof.
  induction l as [|x l IH]; intros Hf st Hst; [done|].
  destruct (Hf x st (list_elem_of_here _ _) Hst) as [Hx Hst1].
  simpl. unfold bind. destruct (f x st) as [r st1]. simpl in *. subst r.
  apply IH; [|done]. intros y st2 Hy. apply Hf. by apply list_elem_of_further.
Qed.

Lemma throttle_sound sm n b st :
  sound sm n st →
  (throttle first_completed b st).1 = Ok tt
  ∧ sound sm n (throttle first_completed b st).2
  ∧ data_group (throttle first_completed b st).2 = data_group st.
Proof.
  intros [Hres Hshapes]. unfold throttle. destruct (decide _); [|done].
  unfold bind, wait_first. simpl.
  destruct (Hwait (n_waits st) (futures st)) as [Hperm _].
  rewrite <- Hperm in Hres. apply Forall_app in Hres as [Hdone Hrest].
  unfold drain.
  assert (Hall : forallb f_result (first_completed (n_waits st) (futures st)).1 = true).
  { apply forallb_forall. intros f Hf. apply list_elem_of_In in Hf.
    rewrite Forall_forall in Hdone. by apply Hdone. }
  rewrite Hall. simpl. done.
Qed.

Lemma copy_step_sound sm n b key a c h w starts e arr j s m st :
  key ∈ rgb_keys sm → obs_attr sm key = Ok a → attr_shape a = [c; h; w] →
  starts !! e = Some s → s + j < n → shape arr = [m; h; w; c] →
  codec_ok (frame_at arr j) = true →
  sound sm n st ∧ is_Some (data_group st !! key) →
  (copy_step codec_ok first_completed b key starts e arr j st).1 = Ok tt
  ∧ (sound sm n (copy_step codec_ok first_completed b key starts e arr j st).2
     ∧ is_Some (data_group (copy_step codec_ok first_completed b key starts e arr j st).2
                !! key)).
Proof.
  intros Hkey Ha Hchw Hs Hlt Harr Hcodec [Hsound Hsome]. unfold copy_step.
  destruct (throttle_sound sm n b st Hsound) as (Hok & [Hres Hshapes] & Hg).
  destruct (throttle first_completed b st) as [r st1] eqn:Ht. simpl in *. subst r.
  rewrite <- Hg in Hsome. destruct Hsome as (z & Hz).
  pose proof (Hshapes key a c h w z Hkey Ha Hchw Hz) as Hzs.
  assert (Himg : img_copy codec_ok (data_group st1) key (s + j) arr j
                 = (true, <[key := written z (s + j) (frame_at arr j)]> (data_group st1))).
  { unfold img_copy. rewrite Hz. cbn [mbind option_bind]. unfold zarr_setitem.
    rewrite Hzs. cbn [head default]. rewrite decide_True by done.
    assert (Hf : shape (frame_at arr j) = drop 1 [n; h; w; c]).
    { unfold frame_at. by rewrite Harr. }
    rewrite decide_True by done. rewrite Hcodec. cbn [to_option]. unfold written.
    by rewrite Hzs. }
  rewrite (bind_Ok_eq _ _ _ _ _ Ht), Hs. rewrite (bind_Ok_eq _ _ st1 s st1) by done.
  unfold submit. cbv zeta. rewrite Himg.
  cbn [fst snd]. split; [done|]. split.
  - split; simpl.
    + apply Forall_app. split; [done|]. by apply Forall_singleton.
    + intros key' a' c' h' w' z' Hkey' Ha' Hchw' Hz'.
      destruct (decide (key' = key)) as [->|Hne].
      * rewrite lookup_insert_eq in Hz'. injection Hz' as <-. simpl.
        rewrite Ha in Ha'. injection Ha' as <-. rewrite Hchw in Hchw'.
        by injection Hchw' as <- <- <-.
      * rewrite lookup_insert_ne in Hz' by done. by eapply Hshapes.
  - cbn [data_group]. rewrite lookup_insert_eq. by eexists.
Qed.

Lemma copy_episode_sound sm n b key a c h w starts e (d : demo A) arr s st :
  key ∈ rgb_keys sm → obs_attr sm key = Ok a → attr_shape a = [c; h; w] →
  demo_obs d !! key = Some arr → shape arr = [episode_length d; h; w; c] →
  (∀ j, j < episode_length d → codec_ok (frame_at arr j) = true) →
  starts !! e = Some s → s + episode_length d ≤ n →
  sound sm n st ∧ is_Some (data_group st !! key) →
  (copy_episode codec_ok first_completed b key starts (e, d) st).1 = Ok tt
  ∧ (sound sm n (copy_episode codec_ok first_completed b key starts (e, d) st).2
     ∧ is_Some (data_group (copy_episode codec_ok first_completed b key starts (e, d) st).2
                !! key)).
Proof.
  intros Hkey Ha Hchw Harr Hshape Hcodec Hs Hle Hst. unfold copy_episode, getitem.
  cbn [fst snd]. rewrite Harr. cbn [of_option].
  rewrite (bind_Ok_eq _ _ st arr st) by done. unfold shape0. rewrite Hshape.
  cbn [head of_option]. rewrite (bind_Ok_eq _ _ st (episode_length d) st) by done.
  apply (forM_ok (fun st => sound sm n st ∧ is_Some (data_group st !! key))); [|done].
  intros j st1 Hj Hst1. apply elem_of_seq in Hj.
  apply (copy_step_sound sm n b key a c h w starts e arr j s (episode_length d));
    try done; [lia|apply Hcodec; lia].
Qed.

Lemma copy_key_sound sm demos n b starts key st :
  key ∈ rgb_keys sm → image_ok codec_ok sm demos key →
  (∀ e d, demos !! e = Some d → ∃ s, starts !! e = Some s ∧ s + episode_length d ≤ n) →
  sound sm n st →
  (copy_key codec_ok first_completed sm demos b n starts key st).1 = Ok tt
  ∧ sound sm n (copy_key codec_ok first_completed sm demos b n starts key st).2.
Proof.
  intros Hkey (a & c & h & w & Ha & Hchw & _ & _ & _ & Hall) Hstarts Hsound.
  unfold copy_key.
  rewrite Ha. rewrite (bind_Ok_eq _ _ st a st) by done. rewrite Hchw. cbn [unpack3].
  rewrite (bind_Ok_eq _ _ st (c, h, w) st) by done.
  assert (Hreq : ∃ st1, require_dataset key [n; h; w; c] [1; h; w; c] st = (Ok tt, st1)
                        ∧ sound sm n st1 ∧ is_Some (data_group st1 !! key)).
  { unfold require_dataset. destruct (data_group st !! key) as [z|] eqn:Hz.
    - destruct Hsound as [Hres Hshapes].
      rewrite decide_True by (by eapply Hshapes). exists st. by rewrite Hz.
    - eexists. split; [done|]. split.
      + destruct Hsound as [Hres Hshapes]. split; [done|]. cbn [data_group].
        intros key' a' c' h' w' z' Hkey' Ha' Hchw' Hz'.
        destruct (decide (key' = key)) as [->|Hne].
        * rewrite lookup_insert_eq in Hz'. injection Hz' as <-. simpl.
          rewrite Ha in Ha'. injection Ha' as <-. rewrite Hchw in Hchw'.
          by injection Hchw' as <- <- <-.
        * rewrite lookup_insert_ne in Hz' by done. by eapply Hshapes.
      + cbn [data_group]. rewrite lookup_insert_eq. by eexists. }
  destruct Hreq as (st1 & Hreq & Hst1). rewrite (bind_Ok_eq _ _ _ _ _ Hreq).
  destruct (forM_ok (fun st => sound sm n st ∧ is_Some (data_group st !! key))
              (copy_episode codec_ok first_completed b key starts) (enumerate demos))
    with (st := st1) as [Hok [Hs _]]; [|done|done].
  intros [e d] st2 Hp Hst2. apply enumerate_lookup in Hp.
  rewrite Forall_lookup in Hall. destruct (Hall e d Hp) as (arr & Harr & Hshape & Hcodec).
  destruct (Hstarts e d Hp) as (s & Hs & Hle).
  by apply (copy_episode_sound sm n b key a c h w starts e d arr s).
Qed.

Lemma load_images_ok sm demos nw b n starts g :
  (0 < nw)%Z →
  (∀ key, key ∈ rgb_keys sm → image_ok codec_ok sm demos key ∧ g !! key = None) →
  (∀ e d, demos !! e = Some d → ∃ s, starts !! e = Some s ∧ s + episode_length d ≤ n) →
  (load_images codec_ok first_completed sm demos nw b n starts (init_pool g)).1 = Ok tt.
Proof.
  intros Hnw Hkeys Hstarts. unfold load_images. rewrite decide_False by lia.
  rewrite (bind_Ok_eq _ _ (init_pool g) tt (init_pool g)) by done.
  destruct (forM_ok (sound sm n)
              (copy_key codec_ok first_completed sm demos b n starts) (rgb_keys sm))
    with (st := init_pool g) as [Hok [Hres _]].
  - intros key st Hkey Hst. apply copy_key_sound; try done. by apply Hkeys.
  - split; [constructor|]. simpl. intros key a c h w z Hkey _ _ Hz.
    destruct (Hkeys key Hkey) as [_ Hnone]. congruence.
  - destruct (forM_ _ (rgb_keys sm) (init_pool g)) as [r st1] eqn:Hloop. simpl in *.
    subst r. rewrite (bind_Ok_eq _ _ _ _ _ Hloop).
    unfold bind, wait_all, drain. simpl.
    assert (Hall : forallb f_result (futures st1) = true).
    { apply forallb_forall. intros f Hf. apply list_elem_of_In in Hf.
      rewrite Forall_forall in Hres. by apply Hres. }
    by rewrite Hall.
Qed.

End accepted.

(** X18: the conversion of relative actions returns a replay
    buffer when the episodes have at least one step in total, the worker
    count is positive, the low-dimensional keys and ["action"] are
    distinct, no declared shape has an axis of length 0, every episode
    holds the actions and every low-dimensional field in the declared
    shape, and every image field is apart from those keys, is declared
    with three axes, has one frame of that shape per step and is
    accepted by the codec *)
Theorem conversion_accepts {A : Type} (astype_float32 : A → A)
    (codec_ok : ndarray A → bool) (cpu_count : Z)
    (first_completed : nat → list future → list future * list future)
    (sm : shape_meta_t) (demos : list (demo A)) (rt : RotationTransformer A)
    (n_workers max_inflight_tasks : option Z) :
  wait_ok first_completed → (0 < workers cpu_count n_workers)%Z →
  0 < sum_list (episode_length <$> demos) → NoDup (lowdim_keys sm ++ ["action"]) →
  actions_ok sm demos →
  (∀ key, key ∈ lowdim_keys sm → lowdim_ok sm demos key) →
  (∀ key, key ∈ rgb_keys sm →
     (key ∉ lowdim_keys sm ++ ["action"]) ∧ image_ok codec_ok sm demos key) →
  ∃ rb, _convert_robomimic_to_replay astype_float32 codec_ok cpu_count first_completed
          sm demos false rt n_workers max_inflight_tasks = Ok rb.
Proof.
  intros Hwait Hnw Hpos Hnd Hact Hlow Himg.
  destruct (count_steps_ok 0 demos) as (ends & Hends).
  { eapply Forall_impl; [exact (proj2 Hact)|]. intros d Hd. simpl in Hd. by rewrite Hd. }
  destruct (count_steps_sums _ _ _ Hends) as (lens & Hlens & Hsum). simpl in Hsum.
  pose proof (episode_lengths _ _ Hlens) as Hl.
  assert (Hlast : last ends = Some (sum_list lens)).
  { rewrite Hsum, fmap_last. destruct lens as [|m lens _] using rev_ind.
    - destruct demos; [simpl in Hpos; lia|]. discriminate Hl.
    - rewrite length_app. simpl. rewrite Nat.add_1_r, seq_S, last_snoc. simpl.
      rewrite firstn_all2; [done|]. rewrite length_app. simpl. lia. }
  destruct (save_lowdim_ok astype_float32 sm demos rt Hpos Hnd Hact Hlow) as (g & Hg).
  rewrite <- Hl in Hg.
  pose proof (save_lowdim_arrays _ _ _ _ _ _ _ Hg) as (_ & Hdom & _).
  unfold _convert_robomimic_to_replay. cbv zeta.
  rewrite Hends, bind_Ok, Hlast. cbn [of_option]. rewrite bind_Ok, Hg, bind_Ok.
  rewrite (load_images_ok codec_ok first_completed Hwait); [by eexists|done| |].
  - intros key Hkey. destruct (Himg key Hkey) as [Hnot Hok]. split; [done|].
    destruct (g !! key) as [z|] eqn:Hz; [|done]. destruct Hnot. apply Hdom.
    by rewrite Hz.
  - intros e d Hd. exists (sum_list (take e lens)).
    destruct (Forall2_lookup_l _ _ _ _ _ Hlens Hd) as (m & Hm & Hhead).
    split; [rewrite Hsum; apply starts_of_sums; by apply lookup_lt_Some in Hm|].
    unfold episode_length. rewrite Hhead. simpl.
    rewrite <- (sum_take_S _ _ _ Hm). apply sum_take_total.
Qed.

Lemma conversion_accepts_witness :
  ∃ rb, _convert_robomimic_to_replay id (fun _ => true) 4 oldest_first demo_meta
          [make_demo 2 2; make_demo 3 3] false rt_demo None None = Ok rb.
Proof.
  apply (conversion_accepts id (fun _ => true) 4 oldest_first demo_meta
           [make_demo 2 2; make_demo 3 3] rt_demo None None).
  - apply oldest_first_ok.
  - unfold workers. simpl. lia.
  - vm_compute. lia.
  - vm_compute. apply NoDup_cons. split.
    + intros H. apply list_elem_of_singleton in H. discriminate H.
    + apply NoDup_singleton.
  - split; [|repeat constructor].
    intros H. apply list_elem_of_singleton in H. discriminate H.
  - intros key Hkey. vm_compute in Hkey. apply list_elem_of_singleton in Hkey. subst key.
    eexists. split; [reflexivity|]. split.
    + intros H. apply list_elem_of_singleton in H. discriminate H.
    + repeat constructor; eexists; split; reflexivity.
  - intros key Hkey. vm_compute in Hkey. apply list_elem_of_singleton in Hkey. subst key.
    split.
    + vm_compute. intros H. apply elem_of_cons in H as [H|H]; [discriminate H|].
      apply list_elem_of_singleton in H. discriminate H.
    + exists {| attr_shape := [1; 1; 1]; attr_type := Some "rgb" |}, 1, 1, 1.
      split; [reflexivity|]. split; [reflexivity|]. do 3 (split; [lia|]).
      repeat constructor; eexists; (split; [reflexivity|]); split; reflexivity || done.
Defined.

(** ** Episodes of the low-dimensional dataset *)

Section episode_facts.
Context {A : Type} (astype_float32 : A → A).
Implicit Types (raw_obs : gmap string (ndarray A)) (parts : list (ndarray A)).

Lemma mapM_cons_eq {X Y} (f : X → result Y) (x : X) (l : list X) :
  mapM f (x :: l) = y ← f x; k ← mapM f l; mret (y :: k).
Proof. done. Qed.

Lemma mapM_getitem_missing raw_obs (ks1 ks2 : list string) (k : string) :
  Forall (fun k' => is_Some (raw_obs !! k')) ks1 → raw_obs !! k = None →
  mapM (getitem raw_obs) (ks1 ++ k :: ks2) = Err (KeyError k).
Proof.
  intros Hall Hk. induction Hall as [|k' ks1 [p Hp] _ IH].
  - assert (Hg : getitem raw_obs k = Err (KeyError k)) by (unfold getitem; by rewrite Hk).
    by rewrite app_nil_l, mapM_cons_eq, Hg.
  - assert (Hg : getitem raw_obs k' = Ok p) by (unfold getitem; by rewrite Hp).
    by rewrite <- app_comm_cons, mapM_cons_eq, Hg, bind_Ok, IH.
Qed.

Lemma mapM_getitem_present raw_obs (ks : list string) parts :
  Forall2 (fun k p => raw_obs !! k = Some p) ks parts →
  mapM (getitem raw_obs) ks = Ok parts.
Proof.
  induction 1 as [|k p ks parts Hk _ IH]; [done|].
  assert (Hg : getitem raw_obs k = Ok p) by (unfold getitem; by rewrite Hk).
  by rewrite mapM_cons_eq, Hg, bind_Ok, IH.
Qed.

Lemma concatenate_last_shape parts (s : list nat) (ws : list nat) :
  parts ≠ [] → Forall2 (fun p w => shape p = s ++ [w]) parts ws →
  ∃ obs, concatenate_last parts = Ok obs ∧ shape obs = s ++ [sum_list ws].
Proof.
  intros Hne Hall. destruct Hall as [|a w parts ws Ha Hall]; [done|].
  unfold concatenate_last. rewrite decide_True.
  - eexists. split; [done|]. cbn [shape data]. rewrite (leading_snoc _ _ _ Ha).
    do 2 f_equal. rewrite fmap_cons. simpl. rewrite Ha, last_snoc. simpl. f_equal.
    clear Ha Hne. induction Hall as [|b k parts ws Hb _ IH]; [done|].
    rewrite fmap_cons. simpl. rewrite Hb, last_snoc, IH. done.
  - split; [rewrite Ha; by destruct s|].
    rewrite Forall_forall. intros b Hb. apply list_elem_of_lookup in Hb as (i & Hi).
    destruct (Forall2_lookup_l _ _ _ _ _ Hall Hi) as (k & _ & Hk).
    split; [rewrite Hk; by destruct s|].
    by rewrite (leading_snoc _ _ _ Hk), (leading_snoc _ _ _ Ha).
Qed.

End episode_facts.

(** X19: [_data_to_obs] raises [KeyError] for the first key of
    [obs_keys] that the episode does not hold, before it looks at the
    actions, and [ValueError] when [obs_keys] is empty *)
Theorem data_to_obs_bad_keys {A : Type} (astype_float32 : A → A)
    (raw_obs : gmap string (ndarray A)) (raw_actions : ndarray A)
    (ks1 ks2 : list string) (k : string) (abs_action : bool) (rt : RotationTransformer A) :
  Forall (fun k' => is_Some (raw_obs !! k')) ks1 → raw_obs !! k = None →
  _data_to_obs astype_float32 raw_obs raw_actions (ks1 ++ k :: ks2) abs_action rt
  = Err (KeyError k)
  ∧ _data_to_obs astype_float32 raw_obs raw_actions [] abs_action rt = Err ValueError.
Proof.
  intros Hall Hk. split; [|done].
  unfold _data_to_obs. by rewrite (mapM_getitem_missing _ _ _ _ Hall Hk).
Qed.

Lemma data_to_obs_bad_keys_witness :
  _data_to_obs id {[ "object" := demo_pos 2 ]} (demo_acts 2)
    (["object"] ++ "robot0_eef_pos" :: ["robot0_eef_quat"]) true rt_demo
  = Err (KeyError "robot0_eef_pos")
  ∧ _data_to_obs id {[ "object" := demo_pos 2 ]} (demo_acts 2) [] true rt_demo
    = Err ValueError.
Proof.
  apply (data_to_obs_bad_keys id {[ "object" := demo_pos 2 ]} (demo_acts 2)
           ["object"] ["robot0_eef_quat"] "robot0_eef_pos" true rt_demo).
  - repeat constructor. by eexists.
  - reflexivity.
Defined.

(** X20: when the episode holds every key of [obs_keys] with the
    same leading axes, [_data_to_obs] fails exactly when
    [_convert_actions] fails on the actions, with the same exception,
    and otherwise returns the two entries ["obs"] and ["action"]: the
    width of the observation is the sum of the widths of the fields and
    the action is the result of [_convert_actions] *)
Theorem data_to_obs_episode {A : Type} (astype_float32 : A → A)
    (raw_obs : gmap string (ndarray A)) (raw_actions : ndarray A)
    (obs_keys : list string) (abs_action : bool) (rt : RotationTransformer A)
    (parts : list (ndarray A)) (s ws : list nat) :
  obs_keys ≠ [] →
  Forall2 (fun k p => raw_obs !! k = Some p) obs_keys parts →
  Forall2 (fun p w => shape p = s ++ [w]) parts ws →
  match _convert_actions raw_actions abs_action rt with
  | Ok actions =>
      ∃ obs, _data_to_obs astype_float32 raw_obs raw_actions obs_keys abs_action rt
             = Ok {[ "obs" := obs; "action" := actions ]}
             ∧ shape obs = s ++ [sum_list ws]
  | Err e =>
      _data_to_obs astype_float32 raw_obs raw_actions obs_keys abs_action rt = Err e
  end.
Proof.
  intros Hne Hparts Hshapes.
  assert (Hp : parts ≠ []).
  { intros ->. apply Forall2_nil_inv_r in Hparts. done. }
  destruct (concatenate_last_shape parts s ws Hp Hshapes) as (obs & Hobs & Hs).
  unfold _data_to_obs. rewrite (mapM_getitem_present _ _ _ Hparts), bind_Ok, Hobs, bind_Ok.
  cbv zeta. unfold _convert_actions.
  destruct abs_action.
  - destruct (last_dim raw_actions) as [w|e]; [|done]. rewrite !bind_Ok.
    destruct (if bool_decide (w = 14) then reshape_infer [2; 7] raw_actions
              else mret raw_actions) as [a1|e]; [|done].
    rewrite !bind_Ok.
    destruct (concatenate_last3 _ _ _) as [a2|e]; [|done]. rewrite !bind_Ok.
    destruct (if bool_decide (w = 14) then reshape_infer [20] a2 else mret a2) as [a3|e];
      [|done].
    rewrite bind_Ok. by eexists.
  - unfold mret at 1, result_ret. rewrite bind_Ok. by eexists.
Qed.

Lemma data_to_obs_episode_witness :
  ∃ obs, _data_to_obs id {[ "object" := demo_pos 2; "robot0_eef_pos" := demo_pos 2 ]}
           (demo_acts 2) ["object"; "robot0_eef_pos"] false rt_demo
         = Ok {[ "obs" := obs; "action" := demo_acts 2 ]}
         ∧ shape obs = [2] ++ [sum_list [3; 3]].
Proof.
  apply (data_to_obs_episode id {[ "object" := demo_pos 2; "robot0_eef_pos" := demo_pos 2 ]}
           (demo_acts 2) ["object"; "robot0_eef_pos"] false rt_demo
           [demo_pos 2; demo_pos 2] [2] [3; 3]).
  - done.
  - repeat constructor.
  - repeat constructor.
Defined.

(** ** The normalizers of the image dataset *)

Section normalizer_keys.
Context {A N : Type}.

Lemma foldM_insert_ok {V} (body : gmap string V → string → result (gmap string V))
    (l : list string) (m0 : gmap string V) :
  (∀ m k, k ∈ l → ∃ v, body m k = Ok (<[k := v]> m)) →
  ∃ m, foldM body m0 l = Ok m
       ∧ ∀ k, is_Some (m !! k) ↔ is_Some (m0 !! k) ∨ k ∈ l.
Proof.
  revert m0. induction l as [|x l IH]; intros m0 Hbody.
  - exists m0. split; [done|]. intros k. split; [by left|].
    intros [H|H]; [done|by apply elem_of_nil in H].
  - destruct (Hbody m0 x (list_elem_of_here _ _)) as (v & Hv).
    destruct (IH (<[x := v]> m0)) as (m & Hm & Hdom).
    { intros m1 k Hk. apply Hbody. by apply list_elem_of_further. }
    exists m. split; [simpl; by rewrite Hv, bind_Ok|].
    intros k. rewrite Hdom, elem_of_cons. rewrite lookup_insert_is_Some.
    destruct (decide (x = k)) as [->|Hne]; [split; intros _; [right|left]; by left|].
    split.
    + intros [[H|[_ H]]|H]; [done|by left|by right; right].
    + intros [H|[H|H]]; [left; right; by split|congruence|by right].
Qed.

Lemma obs_attr_declared (sm : shape_meta_t) (ty key : string) :
  key ∈ keys_of_type ty sm → ∃ a, obs_attr sm key = Ok a.
Proof.
  unfold keys_of_type, obs_attr. intros Hkey.
  apply list_elem_of_fmap in Hkey as ([k a] & -> & Hin).
  apply list_elem_of_filter in Hin as [_ Hin]. simpl.
  destruct (list_find (fun kv => kv.1 = k) (sm_obs sm)) as [[i [k' a']]|] eqn:Hfind.
  - by eexists.
  - apply list_find_None in Hfind. rewrite Forall_forall in Hfind.
    by specialize (Hfind (k, a) Hin).
Qed.

Lemma mapM_lookup_ok {X Y} (f : X → result Y) (l : list X) :
  (∀ x, x ∈ l → ∃ y, f x = Ok y) → ∃ ys, mapM f l = Ok ys.
Proof.
  induction l as [|x l IH]; intros Hf; [by eexists|].
  destruct (Hf x (list_elem_of_here _ _)) as (y & Hy).
  destruct IH as (ys & Hys); [intros z Hz; by apply Hf, list_elem_of_further|].
  exists (y :: ys). simpl. by rewrite Hy, bind_Ok, Hys.
Qed.

End normalizer_keys.

(** X21: after a conversion that returns, [__init__] of the image
    dataset builds its dictionary of normalizers without a [KeyError],
    and every normalizer that [__getitem__] looks up, for the image
    fields, the low-dimensional fields and the action, is found *)
Theorem image_dataset_normalizers {A N : Type} (astype_float32 : A → A)
    (codec_ok : ndarray A → bool) (cpu_count : Z)
    (first_completed : nat → list future → list future * list future)
    (fit : zarr_array A → N) (pixel_range : list nat → N)
    (sm : shape_meta_t) (demos : list (demo A)) (abs_action : bool) (rt : RotationTransformer A)
    (n_workers max_inflight_tasks : option Z) (rb : replay_root A) :
  _convert_robomimic_to_replay astype_float32 codec_ok cpu_count first_completed
    sm demos abs_action rt n_workers max_inflight_tasks = Ok rb →
  ∃ normalizer found,
    init_normalizer fit pixel_range sm rb = Ok normalizer
    ∧ getitem_normalizers normalizer sm = Ok found.
Proof.
  intros H.
  apply convert_Ok_store in H as (ends & n & g & st & Hends & Hlast & Hg & Hload & ->).
  apply save_lowdim_arrays in Hg as (_ & _ & Hall).
  pose proof (evolves_load_images codec_ok first_completed sm demos
                (workers cpu_count n_workers)
                (inflight_bound cpu_count n_workers max_inflight_tasks) n
                (starts_of ends) (init_pool g)) as Hev.
  rewrite Hload in Hev. simpl in Hev. apply rtc_store_step_keys in Hev as [Hlo _].
  assert (Hstored : ∀ key, key ∈ lowdim_keys sm ++ ["action"] →
            ∃ z, getitem (data_group st) key = Ok z).
  { intros key Hkey. unfold getitem.
    assert (Hin : is_Some (data_group st !! key)).
    { apply Hlo. destruct (Hall key Hkey) as (d & _ & ->). done. }
    destruct Hin as (z & ->). by exists z. }
  unfold init_normalizer. cbn [root_data].
  destruct (foldM_insert_ok
              (fun obs key => z ← getitem (data_group st) key; Ok (<[key := fit z]> obs))
              (lowdim_keys sm) ∅) as (obs1 & -> & Hobs1).
  { intros m k Hk. destruct (Hstored k) as (z & ->); [apply elem_of_app; by left|].
    by eexists. }
  rewrite bind_Ok.
  destruct (foldM_insert_ok
              (fun obs key => a ← obs_attr sm key; Ok (<[key := pixel_range (attr_shape a)]> obs))
              (rgb_keys sm) obs1) as (obs2 & -> & Hobs2).
  { intros m k Hk. destruct (obs_attr_declared sm "rgb" k Hk) as (a & ->). by eexists. }
  rewrite bind_Ok.
  destruct (Hstored "action") as (z & ->).
  { apply elem_of_app. right. apply list_elem_of_here. }
  rewrite bind_Ok.
  set (nz := ({[ "obs" := Dict obs2; "action" := Leaf (fit z) ]} : gmap string (entry N))).
  assert (Hlookup : ∀ key, key ∈ rgb_keys sm ∨ key ∈ lowdim_keys sm →
            ∃ v, lookup_obs nz key = Ok v).
  { intros key Hkey. unfold lookup_obs, nz, getitem.
    rewrite lookup_insert_eq. cbn [of_option]. rewrite bind_Ok. unfold subscript, getitem.
    assert (Hsome : is_Some (obs2 !! key)).
    { apply Hobs2. destruct Hkey as [Hk|Hk]; [by right|]. left. apply Hobs1. by right. }
    destruct Hsome as (v & ->). by exists v. }
  destruct (mapM_lookup_ok (lookup_obs nz) (rgb_keys sm)) as (rgb & Hrgb).
  { intros key Hkey. apply Hlookup. by left. }
  destruct (mapM_lookup_ok (lookup_obs nz) (lowdim_keys sm)) as (low & Hlow).
  { intros key Hkey. apply Hlookup. by right. }
  exists nz, (rgb, low, fit z). split; [done|].
  unfold getitem_normalizers. rewrite Hrgb, bind_Ok, Hlow, bind_Ok.
  unfold lookup_action, nz, getitem. rewrite lookup_insert_ne by done.
  by rewrite lookup_singleton_eq.
Qed.

Lemma image_dataset_normalizers_witness :
  ∃ rb, convert_demo demo_meta [make_demo 2 2; make_demo 3 3] None None = Ok rb
        ∧ ∃ normalizer found,
            init_normalizer (fun z : zarr_array Z => z_shape z) (fun s => s) demo_meta rb
            = Ok normalizer
            ∧ getitem_normalizers normalizer demo_meta = Ok found.
Proof.
  destruct convert_demo_runs as (rb & Hrb). exists rb. split; [exact Hrb|].
  exact (image_dataset_normalizers _ _ _ _ _ _ _ _ _ _ _ _ rb Hrb).
Defined.
